(** * xvsh: a shallow embedding of the xv6 shell [xvsh.c]

    The shell reads a line into a character buffer, cuts it into tokens in
    place with [strtok_custom], and runs the line as a plain command, a
    redirected command or a pipeline.  The embedding follows the C text
    function by function:

    - the line buffer is a [list ascii], a [char *] into it is an offset
      ([nat]), and [NULL] is [None];
    - the [static char *last] of the tokenizer, the shell's descriptor table
      and its unreaped children are fields of one [world] record that every
      function threads through;
    - the kernel's answers (does [fork] succeed, which child does [wait]
      return, which descriptor is handed out) are functions collected in a
      [kernel] record, so every statement below holds for each way the system
      calls can turn out;
    - a store past the end of one of the fixed 16-slot arrays, and a call of
      [exit] by the shell itself, stop the run ([Halt]). *)

From stdpp Require Import gmap list strings.
From Stdlib Require Import Ascii ZArith Lia.
From Stdlib Require Strings.String.

Abbreviation list_ascii_of_string := Stdlib.Strings.String.list_ascii_of_string.

Local Open Scope nat_scope.

(** ** Constants of the source *)

Definition MAXLINE : nat := 256.
Definition MAXTOKENS : nat := 16.
Definition SH_PROMPT : string := "xvsh> ".

(** The terminator of a C string. *)
Definition NUL : ascii := "000"%char.
Definition SPACE : ascii := " "%char.

(** ** Memory: the line buffer

    Reading at an offset is total: past the end of the list the buffer reads
    as the terminator, which is what [main] guarantees by storing [0] after
    the last character read. *)

Definition char_at (b : list ascii) (i : nat) : ascii := default NUL (b !! i).

(** The characters before the first terminator. *)
Fixpoint cstr_of (l : list ascii) : list ascii :=
  match l with
  | [] => []
  | c :: l' => if decide (c = NUL) then [] else c :: cstr_of l'
  end.

(** The C string that starts at offset [p] of the buffer. *)
Definition cstr (b : list ascii) (p : nat) : list ascii := cstr_of (drop p b).

(** [strcmp(s, lit) == 0] for a literal [lit]. *)
Definition streq (s : list ascii) (lit : string) : bool :=
  bool_decide (s = cstr_of (list_ascii_of_string lit)).

(** ** The world the shell runs in *)

(** Mode flags of [open].  [fcntl.h] is not part of the source file, so the
    flags are kept symbolic; [O_TRUNC] is listed to be able to say that a
    call does not pass it. *)
Inductive oflag := O_WRONLY | O_CREATE | O_TRUNC.

Global Instance oflag_eq_dec : EqDecision oflag.
Proof. solve_decision. Defined.

(** What a descriptor refers to. *)
Inductive file :=
| Console
| PipeRead (id : nat)
| PipeWrite (id : nat)
| Opened (path : list ascii) (flags : list oflag).

Global Instance file_eq_dec : EqDecision file.
Proof. solve_decision. Defined.

(** An argument of [printf]. *)
Inductive parg :=
| PStr (s : option (list ascii))
| PInt (n : Z).

(** A forked child of the shell, as it stands when it calls [exec]: its
    descriptor table after its own [dup] and [close] calls, the path and the
    argument vector handed to [exec].  When [exec] fails the child prints
    "Cannot run this command" with its path and exits; the shell only
    learns of a child's end through [wait]. *)
Record child := Child {
  c_ofile : gmap nat file;
  c_path : option (list ascii);
  c_argv : list (list ascii)
}.

(** The system calls of the shell process, in the order it makes them. *)
Inductive event :=
| EPrintf (fd : nat) (fmt : string) (args : list parg)
| EMalloc (slots : nat) (ok : bool)
| EFree
| ERead (n : nat)
| EPipe (r : option (nat * nat))
| EFork (r : option (nat * child))
| EOpen (path : list ascii) (flags : list oflag) (r : option nat)
| EClose (fd : nat)
| EWait (r : option nat)
| EExit.

(** Modelled from the spec: the program replacement primitive, which
    replaces the image of the calling process and, on failure, returns to
    the caller.  What a child does when [exec] returns (lines 91-92, 158-159
    and 216-217); these are calls of the child, not of the shell. *)
Definition exec_failed (c : child) : list event :=
  [EPrintf 2 "Cannot run this command %s\n" [PStr (c_path c)]; EExit].

Record world := World {
  buf : list ascii;          (* [char buf[MAXLINE]] of [main] *)
  last : option nat;         (* [static char *last] of [strtok_custom] *)
  ofile : gmap nat file;     (* descriptor table of the shell *)
  children : list nat;       (* children forked and not yet reaped *)
  pipes : nat;               (* pipes created so far; names the next one *)
  log : list event           (* system calls so far, oldest first *)
}.

Definition set_buf (b : list ascii) (w : world) : world :=
  World b (last w) (ofile w) (children w) (pipes w) (log w).
Definition set_last (l : option nat) (w : world) : world :=
  World (buf w) l (ofile w) (children w) (pipes w) (log w).
Definition set_ofile (t : gmap nat file) (w : world) : world :=
  World (buf w) (last w) t (children w) (pipes w) (log w).
Definition set_children (cs : list nat) (w : world) : world :=
  World (buf w) (last w) (ofile w) cs (pipes w) (log w).
Definition set_pipes (n : nat) (w : world) : world :=
  World (buf w) (last w) (ofile w) (children w) n (log w).
Definition emit (e : event) (w : world) : world :=
  World (buf w) (last w) (ofile w) (children w) (pipes w) (log w ++ [e]).

(** The kernel's side of every system call whose result the shell cannot
    determine.  Each answer may depend on the whole history. *)
Record kernel := Kernel {
  k_malloc : world → nat → bool;          (* does the allocation succeed *)
  k_fork : world → option nat;            (* pid of the new child, if any *)
  k_pipe : world → bool;                  (* may a pipe be created *)
  k_open : world → list ascii → bool;     (* may the file be opened *)
  k_wait : world → nat;                   (* which unreaped child ends first *)
  k_fdalloc : gmap nat file → option nat  (* the descriptor handed out next *)
}.

(** A descriptor that is handed out was not in use. *)
Definition fresh_descriptors (k : kernel) : Prop :=
  ∀ t n, k_fdalloc k t = Some n → t !! n = None.

(** ** Runs that may stop *)

Inductive halt :=
| Exited                                  (* the shell called [exit] *)
| OutOfBounds (array : string) (idx : nat) (* store past the end of an array *)
| Diverged.                               (* a loop outran the model's bound *)

Inductive result (A : Type) :=
| Ok (a : A) (w : world)
| Halt (h : halt) (w : world).
Arguments Ok {A} a w.
Arguments Halt {A} h w.

Definition M (A : Type) : Type := world → result A.

Global Instance M_ret : MRet M := λ A a w, Ok a w.
Global Instance M_bind : MBind M := λ A B f m w,
  match m w with
  | Ok a w' => f a w'
  | Halt h w' => Halt h w'
  end.
Definition get : M world := λ w, Ok w w.
Definition modify (f : world → world) : M unit := λ w, Ok tt (f w).
Definition stop {A} (h : halt) : M A := λ w, Halt h w.

Definition final {A} (r : result A) : world :=
  match r with Ok _ w => w | Halt _ w => w end.

(** ** Tokenizer ([strtok_custom], lines 24-64) *)

(** The delimiter argument is read as a C string: the loops never compare
    the current character against anything behind its terminator. *)
Definition in_delim (delim : list ascii) (c : ascii) : bool :=
  bool_decide (c ∈ cstr_of delim).

(** Lines 34-39: the number of leading characters that are delimiters.  A
    terminator ends the run, since the [for] loop stops at the delimiter
    string's own terminator without comparing it. *)
Fixpoint span_delims (delim l : list ascii) : nat :=
  match l with
  | c :: l' => if in_delim delim c then S (span_delims delim l') else 0
  | [] => 0
  end.

(** Lines 49-62: the number of characters before the first delimiter or
    terminator (the [do ... while] loop also compares against the
    delimiter string's terminator). *)
Fixpoint span_token (delim l : list ascii) : nat :=
  match l with
  | c :: l' =>
      if in_delim delim c || bool_decide (c = NUL) then 0
      else S (span_token delim l')
  | [] => 0
  end.

Definition strtok_custom (s : option nat) (delim : list ascii) : M (option nat) :=
  λ w,
    match (match s with Some p => Some p | None => last w end) with
    | None => Ok None w
    | Some p =>
        let q := p + span_delims delim (drop p (buf w)) in
        if decide (char_at (buf w) q = NUL) then Ok None (set_last None w)
        else
          let e := q + span_token delim (drop q (buf w)) in
          if decide (char_at (buf w) e = NUL) then Ok (Some q) (set_last None w)
          else Ok (Some q) (set_last (Some (S e)) (set_buf (<[e := NUL]> (buf w)) w))
    end.

Definition delim_space : list ascii := list_ascii_of_string " ".
Definition delim_pipe : list ascii := list_ascii_of_string "|".

(** ** System calls and library calls of the shell

    [user.h] and what it declares are not part of the source file.  The
    calls are modelled by what they do to the shell's [world]; every answer
    the shell cannot determine is asked of the [kernel]. *)

(** Format strings are kept as the source spells them, escapes included. *)
Definition printf (fd : nat) (fmt : string) (args : list parg) : M unit :=
  modify (emit (EPrintf fd fmt args)).

Definition exit {A} : M A := λ w, Halt Exited (emit EExit w).

Definition malloc (k : kernel) (slots : nat) : M bool :=
  λ w, let ok := k_malloc k w slots in Ok ok (emit (EMalloc slots ok) w).

Definition free : M unit := modify (emit EFree).

Definition fd_close (t : gmap nat file) (fd : nat) : gmap nat file := delete fd t.

(** [dup] takes the descriptor to copy and nothing else: the descriptor it
    returns for the same file is the kernel's choice ([k_fdalloc]) among
    those not in use.  It fails, changing nothing, on a closed descriptor or
    when no descriptor is left.  The specification names no such
    primitive. *)
Definition fd_dup (k : kernel) (t : gmap nat file) (fd : nat) : gmap nat file :=
  match t !! fd, k_fdalloc k t with
  | Some f, Some n => <[n := f]> t
  | _, _ => t
  end.

Definition close (fd : nat) : M unit :=
  modify (λ w, emit (EClose fd) (set_ofile (fd_close (ofile w) fd) w)).

(** Modelled from the spec: the pipe primitive, which returns a connected
    read/write descriptor pair.  After [pipe(fd)] the read end is [fd[0]]
    and the write end [fd[1]]; the call can fail. *)
Definition pipe (k : kernel) : M (option (nat * nat)) :=
  λ w,
    let failed := Ok None (emit (EPipe None) w) in
    if k_pipe k w then
      match k_fdalloc k (ofile w) with
      | Some fd0 =>
          let t := <[fd0 := PipeRead (pipes w)]> (ofile w) in
          match k_fdalloc k t with
          | Some fd1 =>
              Ok (Some (fd0, fd1))
                 (emit (EPipe (Some (fd0, fd1)))
                    (set_pipes (S (pipes w))
                       (set_ofile (<[fd1 := PipeWrite (pipes w)]> t) w)))
          | None => failed
          end
      | None => failed
      end
    else failed.

(** Modelled from the spec: the file open primitive, which, given a path
    and mode flags, returns a descriptor or a failure. *)
Definition open (k : kernel) (path : list ascii) (flags : list oflag) : M (option nat) :=
  λ w,
    match (if k_open k w path then k_fdalloc k (ofile w) else None) with
    | Some fd =>
        Ok (Some fd)
           (emit (EOpen path flags (Some fd))
              (set_ofile (<[fd := Opened path flags]> (ofile w)) w))
    | None => Ok None (emit (EOpen path flags None) w)
    end.

(** Modelled from the spec: the process creation primitive, which
    duplicates the calling process and returns the child's identifier to the
    parent.  The child starts as a copy of the shell; [image] is the child's
    branch of the code, run on that copy up to its [exec].  The call can
    fail. *)
Definition fork (k : kernel) (image : world → child) : M (option nat) :=
  λ w,
    match k_fork k w with
    | Some pid =>
        Ok (Some pid)
           (emit (EFork (Some (pid, image w)))
              (set_children (children w ++ [pid]) w))
    | None => Ok None (emit (EFork None) w)
    end.

(** Modelled from the spec: the wait primitive, which blocks until any
    child of the calling process terminates, returning its identifier, or
    fails when no children remain.  The child that is returned, and reaped,
    is the kernel's choice.  The call is modelled at its return: the time a
    child takes to end is not. *)
Definition wait (k : kernel) : M (option nat) :=
  λ w,
    match children w with
    | [] => Ok None (emit (EWait None) w)
    | c0 :: _ =>
        let i := k_wait k w `mod` length (children w) in
        let pid := default c0 (children w !! i) in
        Ok (Some pid)
           (emit (EWait (Some pid)) (set_children (delete i (children w)) w))
    end.

(** A store [array[idx] = ...] into an array of [cap] slots. *)
Definition store (array : string) (cap idx : nat) : M unit :=
  λ w, if decide (idx < cap) then Ok tt w else Halt (OutOfBounds array idx) w.

(** ** Argument vectors

    A [char **] vector is the list of the pointers before its [NULL]
    sentinel; reading slot [i] is [v !! i], so the slot that holds the
    sentinel reads as [None]. *)

Definition argv_of (w : world) (v : list nat) : list (list ascii) :=
  cstr (buf w) <$> v.
Definition path_of (w : world) (v : list nat) : option (list ascii) :=
  cstr (buf w) <$> (v !! 0).

(** ** [exit_check] (lines 67-69) *)
Definition exit_check (b : list ascii) (tok : list nat) : bool :=
  match tok !! 0 with
  | Some p => streq (cstr b p) "exit"
  | None => false
  end.

(** ** [wait_for_background_processes] (lines 72-78) *)
Fixpoint wait_loop (k : kernel) (fuel : nat) : M unit :=
  match fuel with
  | 0 => stop Diverged
  | S fuel' =>
      pid ← wait k;
      match pid with
      | None => mret tt
      | Some _ => wait_loop k fuel'
      end
  end.

(** Every round reaps one child, so one round more than there are children
    is enough (lemma [wait_loop_reaps_all]). *)
Definition wait_for_background_processes (k : kernel) : M unit :=
  w ← get; wait_loop k (S (length (children w))).

(** ** [process_normal] (lines 81-102) *)
Definition process_normal (k : kernel) (tok : list nat) (bg : bool) : M Z :=
  pid ← fork k (λ w, Child (ofile w) (path_of w tok) (argv_of w tok));
  match pid with
  | None => printf 2 "Fork failed\n" [];; mret (-1)%Z
  | Some pid =>
      (if bg then printf 1 "[pid %d] runs as a background process\n" [PInt (Z.of_nat pid)]
       else _ ← wait k; mret tt);;
      mret 0%Z
  end.

(** ** [execute_piped_commands] (lines 119-174) *)

(** Lines 130-133.  [n] counts the rounds the guard [j < MAXTOKENS - 1]
    still allows: [j] is [length args] and [n] is [MAXTOKENS - 1 - j]. *)
Fixpoint collect_args (n : nat) (tok : option nat) (args : list nat) : M (list nat) :=
  match tok, n with
  | Some t, S n' =>
      store "args" MAXTOKENS (length args);;
      tok' ← strtok_custom None delim_space;
      collect_args n' tok' (args ++ [t])
  | _, _ => mret args
  end.

(** Lines 125-134: the argument vector of one stage, ending with the store
    of the sentinel at [args[j]]. *)
Definition stage_args (cmd : option nat) : M (list nat) :=
  tok ← strtok_custom cmd delim_space;
  args ← collect_args (MAXTOKENS - 1) tok [];
  store "args" MAXTOKENS (length args);;
  mret args.

(** Lines 147-159: the child of stage [i], on its copy of the shell. *)
Definition stage_child (k : kernel) (inp : nat) (fd : nat * nat)
    (not_last : bool) (args : list nat) (w : world) : child :=
  let t0 := ofile w in
  let t1 := if decide (inp ≠ 0) then fd_close (fd_dup k t0 inp) inp else t0 in
  let t2 := if not_last
            then fd_close (fd_close (fd_dup k t1 fd.2) fd.1) fd.2
            else t1 in
  Child t2 (path_of w args) (argv_of w args).

(** Lines 124-166.  [n] is [num_commands - i].  The result tells whether the
    loop ran to its end ([true]) or returned early after a failed [pipe] or
    [fork] ([false]). *)
Fixpoint piped_stages (k : kernel) (commands : list nat) (num_commands : nat)
    (n i inp : nat) : M bool :=
  match n with
  | 0 => mret true
  | S n' =>
      args ← stage_args (commands !! i);
      fd ← pipe k;
      match fd with
      | None => printf 2 "Pipe failed\n" [];; mret false
      | Some fd =>
          pid ← fork k (stage_child k inp fd (bool_decide (i < num_commands - 1)) args);
          match pid with
          | None => printf 2 "Fork failed\n" [];; mret false
          | Some _ =>
              (if decide (inp ≠ 0) then close inp else mret tt);;
              close fd.2;;
              piped_stages k commands num_commands n' (S i) fd.1
          end
      end
  end.

(** Lines 169-171. *)
Fixpoint wait_n (k : kernel) (n : nat) : M unit :=
  match n with
  | 0 => mret tt
  | S n' => _ ← wait k; wait_n k n'
  end.

Definition execute_piped_commands (k : kernel) (commands : list nat)
    (num_commands : nat) : M Z :=
  finished ← piped_stages k commands num_commands num_commands 0 0;
  if finished : bool then wait_n k num_commands;; mret 0%Z else mret (-1)%Z.

(** ** [execute_redirection] (lines 177-230) *)

(** Lines 184-192.  [n] is [MAXTOKENS - 1 - i]; the result is [cmd_args]
    and [outfile].  The store [tok[i] = NULL] changes the caller's vector,
    which is not read again. *)
Fixpoint scan_redirect (n : nat) (tok : list nat) (i : nat) (cmd_args : list nat)
    : M (list nat * option nat) :=
  match tok !! i, n with
  | Some t, S n' =>
      w ← get;
      if streq (cstr (buf w) t) ">" then mret (cmd_args, tok !! S i)
      else
        store "cmd_args" MAXTOKENS i;;
        scan_redirect n' tok (S i) (cmd_args ++ [t])
  | _, _ => mret (cmd_args, None)
  end.

(** Lines 210-218: the child, on its copy of the shell. *)
Definition redirect_child (k : kernel) (fd : option nat) (cmd_args : list nat)
    (w : world) : child :=
  let t := match fd with
           | Some fd => fd_close (fd_dup k (ofile w) fd) fd
           | None => ofile w
           end in
  Child t (path_of w cmd_args) (argv_of w cmd_args).

(** Lines 203-229; [fd] is [None] when [outfile] is [NULL]. *)
Definition redirect_run (k : kernel) (cmd_args : list nat) (fd : option nat)
    (bg : bool) : M Z :=
  pid ← fork k (redirect_child k fd cmd_args);
  match pid with
  | None => printf 2 "Fork failed\n" [];; mret (-1)%Z
  | Some pid =>
      (match fd with Some fd => close fd | None => mret tt end);;
      (if bg then printf 1 "[pid %d] runs as a background process\n" [PInt (Z.of_nat pid)]
       else _ ← wait k; mret tt);;
      mret 0%Z
  end.

Definition redirect_flags : list oflag := [O_CREATE; O_WRONLY].

Definition execute_redirection (k : kernel) (tok : list nat) (bg : bool) : M Z :=
  '(cmd_args, outfile) ← scan_redirect (MAXTOKENS - 1) tok 0 [];
  store "cmd_args" MAXTOKENS (length cmd_args);;
  match outfile with
  | Some o =>
      w ← get;
      fd ← open k (cstr (buf w) o) redirect_flags;
      match fd with
      | None => printf 2 "Cannot open file %s\n" [PStr (Some (cstr (buf w) o))];; mret (-1)%Z
      | Some fd => redirect_run k cmd_args (Some fd) bg
      end
  | None => redirect_run k cmd_args None bg
  end.

(** ** [process_one_cmd] (lines 233-316) *)

(** Lines 239-243. *)
Definition count_tokens (b : list ascii) : nat :=
  length (filter (λ c, c = SPACE) (cstr b 0)) + 1.

(** Lines 255-262.  [room] is the number of slots of [tok] from [tok[i]] on;
    the array has [num_tok + 1] of them, and what the tokenizer returns is
    stored in [tok[i]] before it is tested. *)
Fixpoint more_tokens (room i : nat) (tok : list nat) : M (list nat * bool) :=
  t ← strtok_custom None delim_space;
  match room with
  | 0 => stop (OutOfBounds "tok" i)
  | S room' =>
      match t with
      | None => mret (tok, false)
      | Some p =>
          w ← get;
          if streq (cstr (buf w) p) "&" then mret (tok, true)
          else more_tokens room' (S i) (tok ++ [p])
      end
  end.

(** Lines 251-262: the vector [tok] and the flag [bg].  When the first call
    finds no token, [tok[0]] is the sentinel and the vector is empty. *)
Definition read_tokens (num_tok : nat) : M (list nat * bool) :=
  t0 ← strtok_custom (Some 0) delim_space;
  '(rest, bg) ← more_tokens num_tok 1 [];
  mret (match t0 with Some p => p :: rest | None => [] end, bg).

(** The [for] loops of lines 273-278 and 298-303. *)
Definition has_token (b : list ascii) (tok : list nat) (lit : string) : bool :=
  existsb (λ p, streq (cstr b p) lit) tok.

(** Lines 110 and 287: the loop that steps [cmd] over leading spaces. *)
Fixpoint span_spaces (l : list ascii) : nat :=
  match l with
  | c :: l' => if decide (c = SPACE) then S (span_spaces l') else 0
  | [] => 0
  end.

(** Lines 285-290, the same text as lines 108-113 of [split_commands].
    [n] is [MAXTOKENS - num_commands]. *)
Fixpoint split_loop (n : nat) (cmd : option nat) (commands : list nat) : M (list nat) :=
  match cmd, n with
  | Some c, S n' =>
      w ← get;
      store "commands" MAXTOKENS (length commands);;
      cmd' ← strtok_custom None delim_pipe;
      split_loop n' cmd' (commands ++ [c + span_spaces (drop c (buf w))])
  | _, _ => mret commands
  end.

(** Lines 282-291 ([split_commands], lines 105-116): the command strings,
    ending with the store of the sentinel at [commands[num_commands]]. *)
Definition split_commands (bufp : nat) : M (list nat) :=
  cmd ← strtok_custom (Some bufp) delim_pipe;
  commands ← split_loop MAXTOKENS cmd [];
  store "commands" MAXTOKENS (length commands);;
  mret commands.

(** The shape of a command line, as the tests of lines 265, 280 and 305
    decide it. *)
Inductive shape := Builtin_exit | Pipeline | Redirected | Plain.

Definition classify (b : list ascii) (tok : list nat) : shape :=
  if exit_check b tok then Builtin_exit
  else if has_token b tok "|" then Pipeline
  else if has_token b tok ">" then Redirected
  else Plain.

Definition process_one_cmd (k : kernel) : M Z :=
  w ← get;
  let num_tok := count_tokens (buf w) in
  ok ← malloc k (num_tok + 1);
  if negb ok then printf 1 "malloc failed\n" [];; exit
  else
    '(tok, bg) ← read_tokens num_tok;
    w ← get;
    match classify (buf w) tok with
    | Builtin_exit =>
        wait_for_background_processes k;; free;; exit
    | Pipeline =>
        commands ← split_commands 0;
        _ ← execute_piped_commands k commands (length commands);
        free;; mret 0%Z
    | Redirected =>
        _ ← execute_redirection k tok bg;
        free;; mret 0%Z
    | Plain =>
        _ ← process_normal k tok bg;
        free;; mret 0%Z
    end.

(** ** [main] (lines 318-340)

    [input] lists what the successive calls of [read] return; the end of the
    list, like an empty chunk, is the end of the input. *)
Fixpoint read_loop (k : kernel) (input : list (list ascii)) : M unit :=
  match input with
  | [] => mret tt
  | chunk :: input' =>
      let n := length chunk `min` MAXLINE in
      if decide (n = 0) then mret tt
      else
        modify (λ w, emit (ERead n) (set_buf (take n chunk ++ drop n (buf w)) w));;
        if decide (n = 1) then
          printf 1 SH_PROMPT [];; read_loop k input'
        else
          modify (λ w, set_buf (<[n - 1 := NUL]> (buf w)) w);;
          _ ← process_one_cmd k;
          printf 1 SH_PROMPT [];;
          modify (set_buf (replicate MAXLINE NUL));;
          read_loop k input'
  end.

Definition main (k : kernel) (input : list (list ascii)) : M unit :=
  printf 1 SH_PROMPT [];;
  read_loop k input;;
  exit.

(** ** Reference definitions, in the words of the specification *)

(** The pieces of [s] between delimiters, empty pieces included. *)
Fixpoint fields (d s : list ascii) : list (list ascii) :=
  match s with
  | [] => [[]]
  | c :: s' =>
      if bool_decide (c ∈ d) then [] :: fields d s'
      else match fields d s' with
           | f :: fs => (c :: f) :: fs
           | [] => [[c]]
           end
  end.

(** The split of [s] on the delimiters [d]: its non-empty pieces. *)
Definition words (d s : list ascii) : list (list ascii) :=
  filter (λ f, f ≠ []) (fields d s).

(** The whitespace split of a line. *)
Definition ws_split (line : list ascii) : list (list ascii) :=
  words delim_space line.

(** The control tokens and the name of the builtin. *)
Definition AMP : list ascii := list_ascii_of_string "&".
Definition GT : list ascii := list_ascii_of_string ">".
Definition PIPE : list ascii := list_ascii_of_string "|".
Definition EXIT : list ascii := list_ascii_of_string "exit".

(** The tokens before the first background marker, and whether there is
    one. *)
Fixpoint until_amp (ts : list (list ascii)) : list (list ascii) * bool :=
  match ts with
  | [] => ([], false)
  | t :: ts' =>
      if decide (t = AMP) then ([], true)
      else (t :: (until_amp ts').1, (until_amp ts').2)
  end.

(** The argument vector and the background flag of a line, in terms of its
    whitespace split: the first token is never taken for the marker, and
    the first marker behind it ends the vector. *)
Definition line_tokens (line : list ascii) : list (list ascii) * bool :=
  match ws_split line with
  | [] => ([], false)
  | t0 :: rest => (t0 :: (until_amp rest).1, (until_amp rest).2)
  end.

(** The command strings of a pipeline as the specification describes them:
    the line split on the pipe character, leading spaces trimmed. *)
Definition spec_stages (line : list ascii) : list (list ascii) :=
  (λ s, drop (span_spaces s) s) <$> words delim_pipe line.

(** The line [process_one_cmd] finds in the buffer after [main] has read
    [chunk] and put the terminator in the place of its last character. *)
Definition line_of (chunk : list ascii) : list ascii :=
  cstr_of (take (length chunk `min` MAXLINE - 1) chunk).

(** The command strings a line is cut into when it is run as a pipeline
    (lines 251-291), if it is. *)
Definition line_stages (w : world) : option (list (list ascii)) :=
  match read_tokens (count_tokens (buf w)) w with
  | Ok (tok, _) w1 =>
      match classify (buf w1) tok with
      | Pipeline =>
          match split_commands 0 w1 with
          | Ok commands w2 => Some (argv_of w2 commands)
          | Halt _ _ => None
          end
      | _ => None
      end
  | Halt _ _ => None
  end.

(** ** Reading the log *)

Definition is_prompt (e : event) : bool :=
  match e with
  | EPrintf 1 fmt [] => bool_decide (fmt = SH_PROMPT)
  | _ => false
  end.
Definition is_read (e : event) : bool :=
  match e with ERead _ => true | _ => false end.
Definition is_pipe (e : event) : bool :=
  match e with EPipe (Some _) => true | _ => false end.
Definition is_fork (e : event) : bool :=
  match e with EFork (Some _) => true | _ => false end.
Definition is_wait (e : event) : bool :=
  match e with EWait _ => true | _ => false end.
Definition is_open (e : event) : bool :=
  match e with EOpen _ _ _ => true | _ => false end.

Definition count (p : event → bool) (l : list event) : nat :=
  length (filter (λ e, p e = true) l).

(** The children forked in a stretch of the log, oldest first. *)
Definition forked (l : list event) : list child :=
  omap (λ e, match e with EFork (Some (_, c)) => Some c | _ => None end) l.

(** The process ids [fork] returned in a stretch of the log. *)
Definition forked_pids (l : list event) : list nat :=
  omap (λ e, match e with EFork (Some (pid, _)) => Some pid | _ => None end) l.

(** [w'] comes after [w]: its log is the log of [w] and then calls that
    satisfy [P]. *)
Definition extends (P : event → Prop) (w w' : world) : Prop :=
  ∃ evs, log w' = log w ++ evs ∧ Forall P evs.

(** [m] always returns, with a value that satisfies [Q], and only adds
    calls that satisfy [P]. *)
Definition runs (P : event → Prop) {A} (m : M A) (Q : A → Prop) : Prop :=
  ∀ w, ∃ a w', m w = Ok a w' ∧ Q a ∧ extends P w w'.

Definition any {A} : A → Prop := λ _, True.

(** A call made while a command line is processed: no prompt, no [read]. *)
Definition in_command (e : event) : Prop :=
  is_prompt e = false ∧ is_read e = false.

(** A call other than an [open] that failed. *)
Definition no_failed_open (e : event) : Prop :=
  match e with EOpen _ _ None => False | _ => True end.

(** Two worlds that differ in the line buffer and the tokenizer's cursor
    only. *)
Definition same_os (w w' : world) : Prop :=
  ofile w' = ofile w ∧ children w' = children w ∧
  pipes w' = pipes w ∧ log w' = log w.


(** The shell's table [t] inside the loop of [execute_piped_commands], in
    terms of the table [T] it entered the function with: before the first
    round [in] is 0 and the table is [T]; later [in] is the read end of the
    pipe of the round before, which is open besides [T]. *)
Definition pipeline_table (T : gmap nat file) (inp : nat) (t : gmap nat file) : Prop :=
  if decide (inp = 0) then t = T
  else T !! inp = None ∧ ∃ id, t = <[inp := PipeRead id]> T.

(** A call a pipeline line may make: no prompt, no [read], no [open], and
    no report of a background child. *)
Definition pipeline_call (e : event) : Prop :=
  in_command e ∧ is_open e = false ∧
  ∀ args, e ≠ EPrintf 1 "[pid %d] runs as a background process\n" args.

(** Command strings that lie one behind the other in the buffer: each ends,
    terminator included, in front of every later one. *)
Fixpoint separated (b : list ascii) (cs : list nat) : Prop :=
  match cs with
  | [] => True
  | c :: cs' => Forall (λ c', c + length (cstr b c) < c') cs' ∧ separated b cs'
  end.

(** ** How a buffer is cut: predicates of the tokenizer proofs *)

(** A tail that ends the string in front of it. *)
Definition ends (tail : list ascii) : Prop := tail = [] ∨ ∃ r, tail = NUL :: r.

(** What stops the first loop of the tokenizer: the end, a terminator, or a
    character that is no delimiter. *)
Definition stops_skip (d rest : list ascii) : Prop :=
  ∀ c r, rest = c :: r → c ∉ d.

(** What stops its second loop. *)
Definition stops_token (d rest : list ascii) : Prop :=
  ∀ c r, rest = c :: r → c ∈ d ∨ c = NUL.

(** The scan starts at [p]: [p] is passed, or [NULL] is passed and [last]
    is [p]. *)
Definition starts_at (s : option nat) (w : world) (p : nat) : Prop :=
  s = Some p ∨ (s = None ∧ last w = Some p).

(** ** A concrete kernel and concrete worlds, for the examples *)

Definition NOFILE : nat := 16.

(** xv6 hands out the lowest free slot of a table of [NOFILE] slots. *)
Definition lowest_free (t : gmap nat file) : option nat :=
  fst <$> list_find (λ n, t !! n = None) (seq 0 NOFILE).

(** Every call succeeds; [wait] returns the oldest child. *)
Definition kernel_ok : kernel :=
  Kernel (λ _ _, true) (λ w, Some (3 + length (log w))) (λ _, true)
         (λ _ _, true) (λ _, 0) lowest_free.

(** As [kernel_ok], but no memory can be allocated. *)
Definition kernel_nomem : kernel :=
  Kernel (λ _ _, false) (k_fork kernel_ok) (k_pipe kernel_ok)
         (k_open kernel_ok) (k_wait kernel_ok) lowest_free.

(** As [kernel_ok], but no file can be opened. *)
Definition kernel_noopen : kernel :=
  Kernel (k_malloc kernel_ok) (k_fork kernel_ok) (k_pipe kernel_ok)
         (λ _ _, false) (k_wait kernel_ok) lowest_free.

(** As [kernel_ok], but no process can be created. *)
Definition kernel_nofork : kernel :=
  Kernel (k_malloc kernel_ok) (λ _, None) (k_pipe kernel_ok)
         (k_open kernel_ok) (k_wait kernel_ok) lowest_free.

(** The three descriptors a shell is started with. *)
Definition console : gmap nat file :=
  <[0 := Console]> (<[1 := Console]> (<[2 := Console]> ∅)).

(** The shell with [line] in its buffer and no children. *)
Definition boot (line : string) : world :=
  World (list_ascii_of_string line) None console [] 0 [].

(** The shell with [line] in its buffer and the children [cs]. *)
Definition boot_with (line : string) (cs : list nat) : world :=
  World (list_ascii_of_string line) None console cs 0 [].

Definition NEWLINE : ascii := "010"%char.

(** A line as [read] returns it. *)
Definition typed (line : string) : list ascii :=
  list_ascii_of_string line ++ [NEWLINE].

(** The buffer when [execute_piped_commands] is entered with three command
    strings at the offsets 0, 5 and 10. *)
Definition three_commands : world :=
  World (list_ascii_of_string "cmd1" ++ NUL :: list_ascii_of_string "cmd2"
           ++ NUL :: list_ascii_of_string "cmd3")
        None console [] 0 [].

(** A line that [process_one_cmd] runs as a pipeline of these three command
    strings. *)
Definition three_stage_line : string := "cmd1|cmd2|cmd3 | x".

(** The buffer when [execute_redirection] is entered for [ls > out.txt]:
    the tokens are at the offsets 0, 3 and 5. *)
Definition ls_to_file : world :=
  World (list_ascii_of_string "ls" ++ NUL :: list_ascii_of_string ">"
           ++ NUL :: list_ascii_of_string "out.txt")
        None console [] 0 [].



(** A line whose first token holds 16 command strings. *)
Definition sixteen_stages : string :=
  "a|b|c|d|e|f|g|h|i|j|k|l|m|n|o|p | q".



(** The buffer when [execute_piped_commands] is entered with the command
    strings [ls -l] and [wc -c] at the offsets 0 and 6. *)
Definition two_commands : world :=
  World (list_ascii_of_string "ls -l" ++ NUL :: list_ascii_of_string "wc -c")
        None console [] 0 [].

(** * Facts about C strings *)

Lemma cstr_of_cons (c : ascii) (l : list ascii) :
  cstr_of (c :: l) = if decide (c = NUL) then [] else c :: cstr_of l.
Proof. done. Qed.

Lemma cstr_of_app_nul (t r : list ascii) :
  NUL ∉ t → cstr_of (t ++ NUL :: r) = t.
Proof.
  induction t as [|c t IH]; intros Hn.
  - by rewrite app_nil_l, cstr_of_cons, decide_True.
  - rewrite <-app_comm_cons, cstr_of_cons, decide_False by set_solver.
    f_equal. apply IH. set_solver.
Qed.

Lemma cstr_of_nul_free (t : list ascii) : NUL ∉ t → cstr_of t = t.
Proof.
  induction t as [|c t IH]; intros Hn; [done|].
  rewrite cstr_of_cons, decide_False by set_solver.
  f_equal. apply IH. set_solver.
Qed.

Lemma cstr_of_no_nul (l : list ascii) : NUL ∉ cstr_of l.
Proof.
  induction l as [|c l IH]; [apply not_elem_of_nil|].
  rewrite cstr_of_cons. destruct (decide (c = NUL)); [apply not_elem_of_nil|].
  by apply not_elem_of_cons.
Qed.

Lemma cstr_of_split (l : list ascii) :
  ∃ tail, l = cstr_of l ++ tail ∧ ends tail.
Proof.
  induction l as [|c l (tail & IH & Ht)].
  - exists []. split; [done|by left].
  - rewrite cstr_of_cons. case_decide as Hc.
    + exists (c :: l). split; [done|]. right. exists l. by rewrite Hc.
    + exists tail. split; [|done]. rewrite <-app_comm_cons. by rewrite <-IH.
Qed.

Lemma cstr_of_app_ends (t tail : list ascii) :
  NUL ∉ t → ends tail → cstr_of (t ++ tail) = t.
Proof.
  intros Hn [->|[r ->]].
  - rewrite app_nil_r. by apply cstr_of_nul_free.
  - by apply cstr_of_app_nul.
Qed.

Lemma cstr_at (pre t tail : list ascii) :
  NUL ∉ t → ends tail → cstr (pre ++ t ++ tail) (length pre) = t.
Proof.
  intros. unfold cstr. rewrite drop_app_length. by apply cstr_of_app_ends.
Qed.

Lemma char_at_app (pre l : list ascii) (i : nat) :
  char_at (pre ++ l) (length pre + i) = char_at l i.
Proof.
  unfold char_at. rewrite lookup_app_r by lia.
  by replace (length pre + i - length pre) with i by lia.
Qed.

Lemma char_at_ends (tail : list ascii) : ends tail → char_at tail 0 = NUL.
Proof. by intros [->|[r ->]]. Qed.

(** * Facts about the reference split *)

Lemma fields_cons_delim (d : list ascii) (c : ascii) (s : list ascii) :
  c ∈ d → fields d (c :: s) = [] :: fields d s.
Proof. intros Hc. simpl. by rewrite bool_decide_eq_true_2. Qed.

Lemma fields_token (d t : list ascii) :
  Forall (λ c, c ∉ d) t → fields d t = [t].
Proof.
  induction 1 as [|c t Hc _ IH]; [done|].
  simpl. rewrite bool_decide_eq_false_2 by done. by rewrite IH.
Qed.

Lemma fields_token_sep (d t : list ascii) (c : ascii) (r : list ascii) :
  Forall (λ c, c ∉ d) t → c ∈ d → fields d (t ++ c :: r) = t :: fields d r.
Proof.
  intros Ht Hc. induction Ht as [|a t Ha _ IH].
  - by apply fields_cons_delim.
  - simpl. rewrite bool_decide_eq_false_2 by done. by rewrite IH.
Qed.

Lemma length_fields (d s : list ascii) :
  length (fields d s) = S (length (filter (λ c, c ∈ d) s)).
Proof.
  induction s as [|c s IH]; [done|].
  simpl. rewrite filter_cons. case_bool_decide as Hc.
  - rewrite decide_True by done. simpl. by rewrite IH.
  - rewrite decide_False by done.
    destruct (fields d s) as [|f fs]; [done|]. by rewrite <-IH.
Qed.

Lemma length_words (d s : list ascii) :
  length (words d s) ≤ S (length (filter (λ c, c ∈ d) s)).
Proof. unfold words. rewrite <-length_fields. apply length_filter. Qed.

Lemma words_delims (d ds s : list ascii) :
  Forall (λ c, c ∈ d) ds → words d (ds ++ s) = words d s.
Proof.
  induction 1 as [|c ds Hc _ IH]; [done|].
  unfold words in *. rewrite <-app_comm_cons, fields_cons_delim by done.
  by rewrite filter_cons, decide_False by naive_solver.
Qed.

Lemma words_only_delims (d ds : list ascii) :
  Forall (λ c, c ∈ d) ds → words d ds = [].
Proof.
  intros H. rewrite <-(app_nil_r ds). by rewrite words_delims.
Qed.

Lemma words_token (d ds t : list ascii) :
  Forall (λ c, c ∈ d) ds → Forall (λ c, c ∉ d) t → t ≠ [] →
  words d (ds ++ t) = [t].
Proof.
  intros Hds Ht Hne. rewrite words_delims by done.
  unfold words. rewrite fields_token by done.
  by rewrite filter_cons, decide_True.
Qed.

Lemma words_token_sep (d ds t : list ascii) (c : ascii) (r : list ascii) :
  Forall (λ c, c ∈ d) ds → Forall (λ c, c ∉ d) t → t ≠ [] → c ∈ d →
  words d (ds ++ t ++ c :: r) = t :: words d r.
Proof.
  intros Hds Ht Hne Hc. rewrite words_delims by done.
  unfold words. rewrite fields_token_sep by done.
  by rewrite filter_cons, decide_True.
Qed.

(** Every string is a run of delimiters, followed by nothing, by a last
    token, or by a token and a delimiter. *)
Lemma token_cases (d s : list ascii) :
  ∃ t, Forall (λ c, c ∉ d) t ∧
       (s = t ∨ ∃ c r, s = t ++ c :: r ∧ c ∈ d).
Proof.
  induction s as [|a s (t & Ht & IH)].
  - exists []. by split; [|left].
  - destruct (decide (a ∈ d)) as [Ha|Ha].
    + exists []. split; [done|]. right. by exists a, s.
    + exists (a :: t). split; [by constructor|].
      destruct IH as [->|(c & r & -> & Hc)]; [by left|].
      right. by exists c, r.
Qed.

Lemma word_cases (d s : list ascii) :
  ∃ ds, Forall (λ c, c ∈ d) ds ∧
    (s = ds ∨
     ∃ t, t ≠ [] ∧ Forall (λ c, c ∉ d) t ∧
          (s = ds ++ t ∨ ∃ c r, s = ds ++ t ++ c :: r ∧ c ∈ d)).
Proof.
  induction s as [|a s (ds & Hds & IH)].
  - exists []. by split; [|left].
  - destruct (decide (a ∈ d)) as [Ha|Ha].
    + exists (a :: ds). split; [by constructor|].
      destruct IH as [->|(t & Hne & Ht & [->|(c & r & -> & Hc)])].
      * by left.
      * right. exists t. by repeat split; [..|left].
      * right. exists t. repeat split; [done..|]. right. by exists c, r.
    + exists []. split; [done|]. right.
      destruct (token_cases d s) as (t & Ht & Hs).
      exists (a :: t). split; [done|]. split; [by constructor|].
      destruct Hs as [->|(c & r & -> & Hc)]; [by left|].
      right. by exists c, r.
Qed.

(** * Facts about the two scanning loops of the tokenizer *)

Lemma in_delim_spec (d : list ascii) (c : ascii) :
  NUL ∉ d → in_delim d c = true ↔ c ∈ d.
Proof.
  intros Hd. unfold in_delim. rewrite cstr_of_nul_free by done.
  apply bool_decide_eq_true.
Qed.

Lemma in_delim_true (d : list ascii) (c : ascii) :
  NUL ∉ d → c ∈ d → in_delim d c = true.
Proof. intros. by apply in_delim_spec. Qed.

Lemma in_delim_false (d : list ascii) (c : ascii) :
  NUL ∉ d → c ∉ d → in_delim d c = false.
Proof.
  intros Hd Hc. apply not_true_is_false. by rewrite in_delim_spec.
Qed.

Lemma in_delim_nul (d : list ascii) : in_delim d NUL = false.
Proof.
  unfold in_delim. apply bool_decide_eq_false_2, cstr_of_no_nul.
Qed.

Lemma span_delims_app (d ds rest : list ascii) :
  NUL ∉ d → Forall (λ c, c ∈ d) ds → stops_skip d rest →
  span_delims d (ds ++ rest) = length ds.
Proof.
  intros Hd Hds Hrest. induction Hds as [|c ds Hc _ IH].
  - destruct rest as [|c r]; [done|].
    simpl. by rewrite in_delim_false by eauto.
  - simpl. rewrite in_delim_true by done. by rewrite IH.
Qed.

Lemma span_token_app (d t rest : list ascii) :
  NUL ∉ d → Forall (λ c, c ∉ d) t → NUL ∉ t → stops_token d rest →
  span_token d (t ++ rest) = length t.
Proof.
  intros Hd Ht Hn Hrest. induction Ht as [|c t Hc _ IH].
  - destruct rest as [|c r]; [done|]. simpl.
    destruct (Hrest c r eq_refl) as [Hc| ->].
    + by rewrite in_delim_true.
    + by rewrite in_delim_nul.
  - simpl. rewrite in_delim_false by done.
    rewrite bool_decide_eq_false_2 by set_solver.
    simpl. rewrite IH; [done|set_solver].
Qed.

Lemma stops_skip_ends (d tail : list ascii) :
  NUL ∉ d → ends tail → stops_skip d tail.
Proof. intros Hd [->|[r ->]] c r' [=]; by subst. Qed.

Lemma stops_token_ends (d tail : list ascii) :
  ends tail → stops_token d tail.
Proof. intros [->|[r ->]] c r' [=]; subst. by right. Qed.

(** * One call of the tokenizer

    The buffer is cut as [pre ++ ds ++ t ++ rest]: the scan starts behind
    [pre], [ds] are delimiters and [t] is the token. *)

Lemma char_at_mid (pre l : list ascii) :
  char_at (pre ++ l) (length pre) = char_at l 0.
Proof. by rewrite <-(Nat.add_0_r (length pre)), char_at_app. Qed.

Lemma char_at_head_token (d t rest : list ascii) :
  t ≠ [] → NUL ∉ t → char_at (t ++ rest) 0 ≠ NUL.
Proof. destruct t as [|c t]; [done|]. intros _ Hn. cbn. set_solver. Qed.

Lemma strtok_custom_start (s : option nat) (d : list ascii) (w : world) (p : nat) :
  starts_at s w p →
  strtok_custom s d w =
    let q := p + span_delims d (drop p (buf w)) in
    if decide (char_at (buf w) q = NUL) then Ok None (set_last None w)
    else
      let e := q + span_token d (drop q (buf w)) in
      if decide (char_at (buf w) e = NUL) then Ok (Some q) (set_last None w)
      else Ok (Some q) (set_last (Some (S e)) (set_buf (<[e := NUL]> (buf w)) w)).
Proof. unfold strtok_custom. by intros [->|[-> ->]]. Qed.

Lemma strtok_none (s : option nat) (d pre ds tail : list ascii) (w : world) :
  NUL ∉ d → starts_at s w (length pre) →
  buf w = pre ++ ds ++ tail → Forall (λ c, c ∈ d) ds → ends tail →
  strtok_custom s d w = Ok None (set_last None w).
Proof.
  intros Hd Hs Hb Hds Ht. rewrite (strtok_custom_start _ _ _ _ Hs), Hb. cbn zeta.
  rewrite drop_app_length, span_delims_app by eauto using stops_skip_ends.
  rewrite <-length_app, (app_assoc pre), char_at_mid, char_at_ends by done.
  by rewrite decide_True.
Qed.

Lemma strtok_last (s : option nat) (d pre ds t tail : list ascii) (w : world) :
  NUL ∉ d → starts_at s w (length pre) →
  buf w = pre ++ ds ++ t ++ tail → Forall (λ c, c ∈ d) ds →
  t ≠ [] → Forall (λ c, c ∉ d) t → NUL ∉ t → ends tail →
  strtok_custom s d w = Ok (Some (length pre + length ds)) (set_last None w).
Proof.
  intros Hd Hs Hb Hds Hne Ht Hn Htl.
  rewrite (strtok_custom_start _ _ _ _ Hs), Hb. cbn zeta.
  rewrite drop_app_length, span_delims_app; [|done..|].
  2:{ intros c r Hc. destruct t as [|a t]; [done|].
      injection Hc as <- _. by inversion Ht. }
  rewrite <-length_app, (app_assoc pre), char_at_mid.
  rewrite decide_False by by apply (char_at_head_token d).
  rewrite drop_app_length, span_token_app by eauto using stops_token_ends.
  rewrite <-length_app, (app_assoc (pre ++ ds)), char_at_mid, char_at_ends by done.
  by rewrite decide_True.
Qed.

Lemma strtok_sep (s : option nat) (d pre ds t : list ascii) (c : ascii)
    (r : list ascii) (w : world) :
  NUL ∉ d → starts_at s w (length pre) →
  buf w = pre ++ ds ++ t ++ c :: r → Forall (λ c, c ∈ d) ds →
  t ≠ [] → Forall (λ c, c ∉ d) t → NUL ∉ t → c ∈ d →
  strtok_custom s d w =
    Ok (Some (length pre + length ds))
       (set_last (Some (S (length pre + length ds + length t)))
          (set_buf (pre ++ ds ++ t ++ NUL :: r) w)).
Proof.
  intros Hd Hs Hb Hds Hne Ht Hn Hc.
  rewrite (strtok_custom_start _ _ _ _ Hs), Hb. cbn zeta.
  rewrite drop_app_length, span_delims_app; [|done..|].
  2:{ intros a r' Ha. destruct t as [|a' t]; [done|].
      injection Ha as <- _. by inversion Ht. }
  rewrite <-length_app, (app_assoc pre), char_at_mid.
  rewrite decide_False by by apply (char_at_head_token d).
  rewrite drop_app_length, span_token_app; [|done..|].
  2:{ intros a r' [= <- _]. by left. }
  rewrite <-length_app, (app_assoc (pre ++ ds)), char_at_mid.
  rewrite decide_False; [|cbn; set_solver].
  rewrite <-(Nat.add_0_r (length ((pre ++ ds) ++ t))), insert_app_r.
  rewrite Nat.add_0_r, !length_app. cbn.
  by rewrite <-!app_assoc.
Qed.

(** * Running the monad step by step *)

Lemma bind_ok {A B} (m : M A) (f : A → M B) (w w' : world) (a : A) :
  m w = Ok a w' → (m ≫= f) w = f a w'.
Proof. unfold mbind, M_bind. by intros ->. Qed.

Lemma bind_halt {A B} (m : M A) (f : A → M B) (w w' : world) (h : halt) :
  m w = Halt h w' → (m ≫= f) w = Halt h w'.
Proof. unfold mbind, M_bind. by intros ->. Qed.

Lemma bind_get {B} (f : world → M B) (w : world) : (get ≫= f) w = f w w.
Proof. done. Qed.

Lemma bind_modify {B} (g : world → world) (f : unit → M B) (w : world) :
  (modify g ≫= f) w = f tt (g w).
Proof. done. Qed.

Lemma same_os_trans (w1 w2 w3 : world) :
  same_os w1 w2 → same_os w2 w3 → same_os w1 w3.
Proof. unfold same_os. intros (?&?&?&?) (?&?&?&?). repeat split; congruence. Qed.

(** * The loop that collects the tokens of a line *)

Lemma streq_amp (t : list ascii) : streq t "&" = bool_decide (t = AMP).
Proof. done. Qed.

Lemma delim_space_nul : NUL ∉ delim_space.
Proof. unfold delim_space. cbn. by rewrite list_elem_of_singleton. Qed.

Lemma more_tokens_done (room i : nat) (tok : list nat) (w : world) :
  last w = None → 0 < room →
  more_tokens room i tok w = Ok (tok, false) w.
Proof.
  intros Hl Hr. destruct room as [|room]; [lia|]. cbn [more_tokens].
  by erewrite bind_ok by (unfold strtok_custom; by rewrite Hl).
Qed.

Lemma more_tokens_spec (n : nat) :
  ∀ (s pre tail : list ascii) (w : world) (room i : nat) (tok : list nat),
    length s ≤ n →
    buf w = pre ++ s ++ tail → NUL ∉ s → ends tail →
    last w = Some (length pre) → length (ws_split s) < room →
    ∃ new w',
      more_tokens room i tok w = Ok (tok ++ new, (until_amp (ws_split s)).2) w' ∧
      argv_of w' new = (until_amp (ws_split s)).1 ∧
      (∃ x, buf w' = pre ++ x) ∧ same_os w w'.
Proof.
  pose proof delim_space_nul as Hd. unfold ws_split.
  induction n as [|n IH]; intros s pre tail w room i tok Hlen Hb Hn Ht Hl Hroom.
  all: destruct room as [|room]; [lia|]; cbn [more_tokens].
  all: destruct (word_cases delim_space s)
         as (ds & Hds & [->|(t & Hne & Htok & [->|(c & r & -> & Hc)])]).
  all: try (destruct t; [done|]; rewrite !length_app in Hlen; simpl in Hlen; lia).
  (* only delimiters are left *)
  1,2: erewrite bind_ok by (eapply strtok_none; eauto; by right);
       rewrite words_only_delims by done;
       exists [], (set_last None w); rewrite app_nil_r;
       by repeat split; [exists (ds ++ tail)|..].
  (* a last token *)
  - rewrite <-app_assoc in Hb.
    assert (NUL ∉ t) by (by apply not_elem_of_app in Hn as [_ ?]).
    erewrite bind_ok by (eapply strtok_last; eauto; by right).
    cbn beta iota. rewrite bind_get. cbn [buf set_last]. rewrite Hb, (app_assoc pre).
    rewrite <-length_app, cstr_at, streq_amp by done.
    rewrite words_token by done. cbn [until_amp].
    case_bool_decide as Ha.
    + rewrite decide_True by done.
      exists [], (set_last None w). rewrite app_nil_r.
      by repeat split; [exists (ds ++ t ++ tail)|..].
    + rewrite decide_False by done.
      rewrite words_token in Hroom by done. simpl in Hroom.
      rewrite more_tokens_done by (done || lia).
      exists [length (pre ++ ds)], (set_last None w).
      split; [done|]. split; [|by split; [exists (ds ++ t ++ tail)|]].
      unfold argv_of. cbn. by rewrite Hb, (app_assoc pre), cstr_at.
  (* a token and more behind it *)
  - rewrite <-!app_assoc, <-app_comm_cons in Hb.
    apply not_elem_of_app in Hn as [_ Hn].
    apply not_elem_of_app in Hn as [Hnt Hn].
    apply not_elem_of_cons in Hn as [_ Hnr].
    erewrite bind_ok by (eapply strtok_sep; eauto; by right).
    cbn beta iota. rewrite bind_get. cbn [buf set_last set_buf].
    rewrite (app_assoc pre), <-length_app, cstr_at, streq_amp;
      [|done|right; eauto].
    rewrite words_token_sep in * by done. cbn [until_amp].
    case_bool_decide as Ha.
    + rewrite decide_True by done.
      eexists [], _. rewrite app_nil_r.
      split; [done|]. split; [done|]. split; [|done].
      eexists. cbn. by rewrite <-app_assoc.
    + rewrite decide_False by done.
      set (w1 := set_last _ _).
      destruct (IH r (pre ++ ds ++ t ++ [NUL]) tail w1 room (S i)
                  (tok ++ [length (pre ++ ds)]))
        as (new & w' & Hrun & Hargv & [x Hx] & Hos).
      { rewrite !length_app in Hlen. simpl in Hlen. lia. }
      { subst w1. cbn. by rewrite <-!app_assoc. }
      { done. }
      { done. }
      { subst w1. cbn. rewrite !length_app. simpl. f_equal. lia. }
      { simpl in Hroom. lia. }
      rewrite Hrun. exists (length (pre ++ ds) :: new), w'.
      rewrite <-app_assoc. cbn [fst snd]. split; [done|]. split; [|split].
      * unfold argv_of in *. rewrite fmap_cons, Hargv. f_equal.
        rewrite Hx, <-!app_assoc, (app_assoc pre).
        apply cstr_at; [done|]. right. eauto.
      * exists (ds ++ t ++ [NUL] ++ x). by rewrite Hx, <-!app_assoc.
      * eapply same_os_trans; [|done]. done.
Qed.

(** * The tokens of a whole line ([read_tokens]) *)

Lemma filter_space_length (s : list ascii) :
  length (filter (λ c, c ∈ delim_space) s) = length (filter (λ c, c = SPACE) s).
Proof.
  induction s as [|c s IH]; [done|].
  rewrite !filter_cons. destruct (decide (c = SPACE)) as [->|Hc].
  - rewrite decide_True; [by simpl; rewrite IH|].
    unfold delim_space. cbn. by rewrite list_elem_of_singleton.
  - rewrite decide_False; [done|].
    unfold delim_space. cbn. by rewrite list_elem_of_singleton.
Qed.

Lemma ws_split_length (s : list ascii) :
  length (ws_split s) ≤ S (length (filter (λ c, c = SPACE) s)).
Proof. rewrite <-filter_space_length. apply length_words. Qed.

(** The vector and the flag [read_tokens] computes, and what is left in
    front of the buffer: its first C string is now the line up to the end
    of its first token. *)
Lemma read_tokens_prefix (w : world) :
  ∃ tok w',
    read_tokens (count_tokens (buf w)) w
      = Ok (tok, (line_tokens (cstr (buf w) 0)).2) w' ∧
    argv_of w' tok = (line_tokens (cstr (buf w) 0)).1 ∧
    same_os w w' ∧
    ∀ t0 rest, ws_split (cstr (buf w) 0) = t0 :: rest →
      t0 ≠ [] ∧ Forall (λ c, c ∉ delim_space) t0 ∧
      ∃ ds x, Forall (λ c, c ∈ delim_space) ds ∧
              cstr (buf w) 0 = ds ++ t0 ++ x ∧ cstr (buf w') 0 = ds ++ t0.
Proof.
  pose proof delim_space_nul as Hd.
  unfold count_tokens, cstr. rewrite !drop_0.
  destruct (cstr_of_split (buf w)) as (tail & Hb & Ht).
  pose proof (cstr_of_no_nul (buf w)) as Hn.
  pose proof (ws_split_length (cstr_of (buf w))) as Hroom.
  revert Hb Hn Hroom. generalize (cstr_of (buf w)). intros s Hb Hn Hroom.
  unfold read_tokens, line_tokens, ws_split in *.
  assert (Hs : starts_at (Some 0) w (length (@nil ascii))) by by left.
  destruct (word_cases delim_space s)
    as (ds & Hds & [->|(t & Hne & Htok & [->|(c & r & -> & Hc)])]).
  - erewrite bind_ok by (by eapply (strtok_none _ _ []); eauto).
    erewrite bind_ok by (apply more_tokens_done; [done|lia]).
    rewrite words_only_delims by done.
    by exists [], (set_last None w).
  - pose proof Hn as [_ Hnt]%not_elem_of_app.
    rewrite <-app_assoc in Hb.
    erewrite bind_ok by (by eapply (strtok_last _ _ []); eauto).
    erewrite bind_ok by (apply more_tokens_done; [done|lia]).
    rewrite words_token by done.
    exists [length ds], (set_last None w). split; [done|]. split; [|split; [done|]].
    + unfold argv_of. cbn. by rewrite Hb, cstr_at.
    + intros t0 rest [= <- <-]. repeat split; [done..|].
      exists ds, []. split; [done|]. split; [by rewrite app_nil_r|].
      cbn [buf set_last]. rewrite drop_0, Hb, app_assoc.
      by apply cstr_of_app_ends.
  - assert (Hnt : NUL ∉ t).
    { apply not_elem_of_app in Hn as [_ Hn].
      by apply not_elem_of_app in Hn as [Hn _]. }
    assert (Hnr : NUL ∉ r).
    { apply not_elem_of_app in Hn as [_ Hn].
      apply not_elem_of_app in Hn as [_ Hn].
      by apply not_elem_of_cons in Hn as [_ Hn]. }
    assert (Hnds : NUL ∉ ds) by by apply not_elem_of_app in Hn as [Hn _].
    rewrite <-!app_assoc, <-app_comm_cons in Hb.
    erewrite bind_ok by (by eapply (strtok_sep _ _ []); eauto).
    set (w1 := set_last _ _).
    rewrite words_token_sep in * by done.
    destruct (more_tokens_spec (length r) r (ds ++ t ++ [NUL]) tail w1
                (length (filter (λ c, c = SPACE) (ds ++ t ++ c :: r)) + 1) 1 [])
      as (new & w' & Hrun & Hargv & [x Hx] & Hos); [done| |done..| | |].
    { subst w1. cbn. by rewrite <-!app_assoc. }
    { subst w1. cbn. rewrite !length_app. simpl. f_equal. lia. }
    { simpl in Hroom. unfold ws_split. lia. }
    erewrite bind_ok by exact Hrun.
    exists (length ds :: new), w'. cbn [fst snd]. split; [done|].
    split; [|split].
    + unfold argv_of in *. rewrite fmap_cons. unfold ws_split in Hargv.
      rewrite Hargv. f_equal. rewrite Hx, <-!app_assoc.
      apply (cstr_at ds); [done|]. right. eauto.
    + eapply same_os_trans; [|done]. done.
    + intros t0 rest [= <- <-]. repeat split; [done..|].
      exists ds, (c :: r). split; [done|]. split; [done|].
      rewrite drop_0, Hx, <-!app_assoc, (app_assoc ds).
      apply cstr_of_app_nul. by apply not_elem_of_app.
Qed.

Lemma read_tokens_full (w : world) :
  ∃ tok w',
    read_tokens (count_tokens (buf w)) w
      = Ok (tok, (line_tokens (cstr (buf w) 0)).2) w' ∧
    argv_of w' tok = (line_tokens (cstr (buf w) 0)).1 ∧
    same_os w w' ∧
    ∀ t0 rest, ws_split (cstr (buf w) 0) = t0 :: rest →
      t0 ≠ [] ∧ Forall (λ c, c ∉ delim_space) t0 ∧
      ∃ ds, Forall (λ c, c ∈ delim_space) ds ∧ cstr (buf w') 0 = ds ++ t0.
Proof.
  destruct (read_tokens_prefix w) as (tok & w' & Hrun & Hargv & Hos & Hfirst).
  exists tok, w'. repeat split; try done; try apply Hos.
  all: destruct (Hfirst t0 rest) as (? & ? & ds & x & ? & ? & ?); eauto.
Qed.

Lemma read_tokens_spec (w : world) :
  ∃ tok w',
    read_tokens (count_tokens (buf w)) w
      = Ok (tok, (line_tokens (cstr (buf w) 0)).2) w' ∧
    argv_of w' tok = (line_tokens (cstr (buf w) 0)).1 ∧
    same_os w w'.
Proof.
  destruct (read_tokens_full w) as (tok & w' & ? & ? & ? & _). by exists tok, w'.
Qed.

(** * The reaper ([wait_for_background_processes]) *)

Lemma wait_loop_reaps_all (k : kernel) (fuel : nat) :
  ∀ w, length (children w) < fuel →
    ∃ pids,
      pids ≡ₚ children w ∧
      wait_loop k fuel w =
        Ok tt (World (buf w) (last w) (ofile w) [] (pipes w)
                 (log w ++ (EWait ∘ Some <$> pids) ++ [EWait None])).
Proof.
  induction fuel as [|fuel IH]; intros w Hlen; [lia|].
  cbn [wait_loop]. unfold wait at 1.
  destruct (children w) as [|c0 cs] eqn:Hcs.
  - exists []. split; [done|].
    unfold mbind, M_bind. rewrite Hcs. cbn.
    unfold emit. by rewrite Hcs.
  - unfold mbind, M_bind. rewrite Hcs.
    set (i := k_wait k w `mod` length (c0 :: cs)).
    assert (Hi : i < length (c0 :: cs)) by (apply Nat.mod_upper_bound; done).
    destruct (lookup_lt_is_Some_2 (c0 :: cs) i Hi) as [pid Hpid].
    rewrite Hpid. cbn [default].
    set (w1 := emit _ _).
    destruct (IH w1) as (pids & Hperm & Hrun).
    { subst w1. cbn. rewrite length_delete by eauto. simpl in *. lia. }
    exists (pid :: pids). split.
    + rewrite (delete_Permutation _ _ _ Hpid). by f_equiv.
    + rewrite Hrun. subst w1. cbn. by rewrite <-app_assoc.
Qed.

Lemma wait_for_background_processes_spec (k : kernel) (w : world) :
  ∃ pids,
    pids ≡ₚ children w ∧
    wait_for_background_processes k w =
      Ok tt (World (buf w) (last w) (ofile w) [] (pipes w)
               (log w ++ (EWait ∘ Some <$> pids) ++ [EWait None])).
Proof.
  unfold wait_for_background_processes. rewrite bind_get.
  apply wait_loop_reaps_all. lia.
Qed.

Lemma malloc_run (k : kernel) (n : nat) (w : world) :
  malloc k n w = Ok (k_malloc k w n) (emit (EMalloc n (k_malloc k w n)) w).
Proof. done. Qed.

Lemma line_tokens_head (line : list ascii) :
  head (line_tokens line).1 = head (ws_split line).
Proof. unfold line_tokens. by destruct (ws_split line). Qed.

Lemma exit_check_head (w : world) (tok : list nat) :
  exit_check (buf w) tok
    = bool_decide (head (argv_of w tok) = Some (list_ascii_of_string "exit")).
Proof.
  unfold exit_check, argv_of, streq. destruct tok as [|p tok]; [done|].
  cbn. apply bool_decide_ext. split; [by intros ->|by intros [= ->]].
Qed.

Lemma has_token_spec (w : world) (tok : list nat) (lit : string) :
  has_token (buf w) tok lit
    = bool_decide (cstr_of (list_ascii_of_string lit) ∈ argv_of w tok).
Proof.
  unfold has_token, argv_of, streq.
  induction tok as [|p tok IH]; cbn [existsb].
  - symmetry. apply bool_decide_eq_false_2. rewrite fmap_nil. apply not_elem_of_nil.
  - rewrite IH, fmap_cons.
    destruct (decide (cstr (buf w) p = cstr_of (list_ascii_of_string lit))) as [Hp|Hp].
    + rewrite (bool_decide_eq_true_2 _ Hp). symmetry.
      apply bool_decide_eq_true_2. rewrite Hp. apply list_elem_of_here.
    + rewrite (bool_decide_eq_false_2 _ Hp). cbn [orb].
      apply bool_decide_ext. rewrite elem_of_cons. naive_solver.
Qed.

(** C5 (amended): a line whose first token is [exit] and whose token array
    can be allocated makes the shell wait until [wait] reports that no
    child is left, and only then call [exit]: after the allocation the
    shell makes one successful [wait] for each of its children, whatever
    else the line holds, then the failing one, and no other call before
    [free] and [exit]. *)
Theorem C5_exit_reaps_every_child (k : kernel) (w : world) :
  head (ws_split (cstr (buf w) 0)) = Some (list_ascii_of_string "exit") →
  k_malloc k w (count_tokens (buf w) + 1) = true →
  ∃ pids w',
    process_one_cmd k w = Halt Exited w' ∧
    pids ≡ₚ children w ∧
    log w' = log w ++ [EMalloc (count_tokens (buf w) + 1) true]
                   ++ (EWait ∘ Some <$> pids) ++ [EWait None; EFree; EExit] ∧
    children w' = [] ∧
    ofile w' = ofile w.
Proof.
  intros Hexit Hmem. unfold process_one_cmd. rewrite bind_get. cbn zeta.
  erewrite bind_ok by apply malloc_run. rewrite Hmem. cbn [negb].
  set (w1 := emit _ w).
  destruct (read_tokens_spec w1) as (tok & w2 & Hrun & Hargv & Hos).
  change (buf w1) with (buf w) in *.
  erewrite bind_ok by exact Hrun. cbn beta iota. rewrite bind_get.
  unfold classify. rewrite exit_check_head, Hargv, line_tokens_head, Hexit.
  rewrite bool_decide_eq_true_2 by done.
  destruct (wait_for_background_processes_spec k w2) as (pids & Hperm & Hwait).
  erewrite bind_ok by exact Hwait.
  destruct Hos as (Hof & Hch & _ & Hlog).
  exists pids. eexists. split; [reflexivity|]. cbn.
  rewrite Hch in Hperm. rewrite Hlog, Hof. subst w1. cbn.
  split; [done|]. split; [|done].
  by rewrite <-!app_assoc.
Qed.

(** * The background marker *)

Lemma until_amp_marker (l : list (list ascii)) :
  AMP ∉ l → until_amp (l ++ [AMP]) = (l, true).
Proof.
  induction l as [|t l IH]; intros Hl; [done|].
  apply not_elem_of_cons in Hl as [Ht Hl].
  cbn [app until_amp]. rewrite decide_False by done. by rewrite IH.
Qed.

Lemma fork_run (k : kernel) (image : world → child) (w : world) (pid : nat) :
  k_fork k w = Some pid →
  fork k image w =
    Ok (Some pid) (emit (EFork (Some (pid, image w)))
                     (set_children (children w ++ [pid]) w)).
Proof. unfold fork. by intros ->. Qed.

Lemma fork_fail (k : kernel) (image : world → child) (w : world) :
  k_fork k w = None → fork k image w = Ok None (emit (EFork None) w).
Proof. unfold fork. by intros ->. Qed.

Lemma path_of_head (w : world) (v : list nat) :
  path_of w v = head (argv_of w v).
Proof. unfold path_of, argv_of. by destruct v. Qed.

(** C6 (amended): when the whitespace split of the line ends with the
    marker, has a token in front of it, and holds no other marker behind
    its first token, the parser sets the background flag and the argument
    vector is the split without the marker; without pipe and redirection
    tokens, and unless it is the builtin, the line is a plain command.
    [process_normal], entered with the flag set, prints the pid of the child
    it forked and returns 0 with no [wait]. *)
Theorem C6_trailing_marker_runs_in_background (k : kernel) (w : world)
    (t0 : list ascii) (rest : list (list ascii)) :
  ws_split (cstr (buf w) 0) = (t0 :: rest) ++ [AMP] →
  AMP ∉ rest →
  ∃ tok w1,
    read_tokens (count_tokens (buf w)) w = Ok (tok, true) w1 ∧
    argv_of w1 tok = t0 :: rest ∧
    same_os w w1 ∧
    (t0 ≠ EXIT → PIPE ∉ t0 :: rest → GT ∉ t0 :: rest →
     classify (buf w1) tok = Plain) ∧
    ∀ pid, k_fork k w1 = Some pid →
      process_normal k tok true w1 =
        Ok 0%Z
           (emit (EPrintf 1 "[pid %d] runs as a background process\n"
                    [PInt (Z.of_nat pid)])
              (emit (EFork (Some (pid, Child (ofile w) (Some t0) (t0 :: rest))))
                 (set_children (children w ++ [pid]) w1))).
Proof.
  intros Hsplit Hrest.
  destruct (read_tokens_spec w) as (tok & w1 & Hrun & Hargv & Hos).
  unfold line_tokens in *. rewrite Hsplit in *. cbn [app] in *.
  rewrite until_amp_marker in * by done. cbn [fst snd] in *.
  exists tok, w1. repeat (split; [done|]). split.
  { intros Hexit Hpipe Hgt. unfold classify.
    rewrite exit_check_head, !has_token_spec, Hargv. cbn [head].
    rewrite bool_decide_eq_false_2 by (by intros [= ?]).
    by rewrite !bool_decide_eq_false_2. }
  intros pid Hpid. unfold process_normal.
  erewrite bind_ok by (by apply fork_run).
  cbn beta iota. destruct Hos as (Hof & Hch & _).
  by rewrite path_of_head, Hargv, Hof, Hch.
Qed.

(** * Redirection *)

Lemma store_ok (a : string) (cap idx : nat) (w : world) :
  idx < cap → store a cap idx w = Ok tt w.
Proof. intros. unfold store. by rewrite decide_True. Qed.

Lemma scan_redirect_ok (n : nat) :
  ∀ tok i acc w, i + n ≤ MAXTOKENS - 1 →
    ∃ ca out, scan_redirect n tok i acc w = Ok (ca, out) w ∧
              length ca ≤ length acc + n.
Proof.
  induction n as [|n IH]; intros tok i acc w Hn; cbn [scan_redirect].
  - exists acc, None. split; [by destruct (tok !! i)|lia].
  - destruct (tok !! i) as [t|]; [|exists acc, None; split; [done|lia]].
    rewrite bind_get. case (streq _ _).
    + exists acc, (tok !! S i). split; [done|lia].
    + erewrite bind_ok by (apply store_ok; unfold MAXTOKENS in *; lia).
      destruct (IH tok (S i) (acc ++ [t]) w) as (ca & out & -> & Hlen); [lia|].
      exists ca, out. split; [done|]. rewrite length_app in Hlen. simpl in Hlen. lia.
Qed.

Lemma open_fail_inv (k : kernel) (path : list ascii) (fl : list oflag)
    (w w' : world) :
  open k path fl w = Ok None w' → w' = emit (EOpen path fl None) w.
Proof.
  unfold open. destruct (if k_open k w path then _ else _); by intros [=].
Qed.

Lemma open_some_inv (k : kernel) (path : list ascii) (fl : list oflag)
    (w w' : world) (fd : nat) :
  open k path fl w = Ok (Some fd) w' →
  w' = emit (EOpen path fl (Some fd))
         (set_ofile (<[fd := Opened path fl]> (ofile w)) w).
Proof.
  unfold open. destruct (if k_open k w path then _ else _); by intros [= <- <-].
Qed.

Lemma open_total (k : kernel) (path : list ascii) (fl : list oflag) (w : world) :
  ∃ r w', open k path fl w = Ok r w'.
Proof. unfold open. destruct (if k_open k w path then _ else _); eauto. Qed.

(** * Which calls a piece of the shell makes *)

Section Emits.
Context (P : event → Prop).

Lemma extends_refl (w : world) : extends P w w.
Proof. exists []. by rewrite app_nil_r. Qed.

Lemma extends_same_log (w w' : world) : log w' = log w → extends P w w'.
Proof. intros H. exists []. by rewrite app_nil_r. Qed.

Lemma extends_trans (w1 w2 w3 : world) :
  extends P w1 w2 → extends P w2 w3 → extends P w1 w3.
Proof.
  intros (e1 & H1 & F1) (e2 & H2 & F2). exists (e1 ++ e2).
  split; [by rewrite H2, H1, app_assoc|by apply Forall_app].
Qed.

Lemma extends_emit (e : event) (w : world) : P e → extends P w (emit e w).
Proof. intros. exists [e]. split; [done|by constructor]. Qed.

Lemma extends_same_os (w w' : world) : same_os w w' → extends P w w'.
Proof. intros (_ & _ & _ & H). by apply extends_same_log. Qed.

Lemma runs_ret {A} (a : A) (Q : A → Prop) : Q a → runs P (mret a) Q.
Proof. intros H w. exists a, w. split; [done|]. split; [done|apply extends_refl]. Qed.

Lemma runs_bind {A B} (m : M A) (f : A → M B) (Q : A → Prop) (R : B → Prop) :
  runs P m Q → (∀ a, Q a → runs P (f a) R) → runs P (m ≫= f) R.
Proof.
  intros Hm Hf w. destruct (Hm w) as (a & w1 & Hrun & Ha & H1).
  destruct (Hf a Ha w1) as (b & w2 & Hrun2 & Hb & H2).
  exists b, w2. split; [by erewrite bind_ok|].
  split; [done|by eapply extends_trans].
Qed.

Lemma runs_get : runs P get any.
Proof. intros w. exists w, w. split; [done|]. split; [done|apply extends_refl]. Qed.

Lemma runs_strtok_custom (s : option nat) (d : list ascii) :
  runs P (strtok_custom s d) any.
Proof.
  intros w. unfold strtok_custom.
  destruct (match s with Some p => Some p | None => last w end);
    repeat case_decide; eexists _, _; (split; [done|]);
    (split; [done|]); by apply extends_same_log.
Qed.

Lemma runs_store (a : string) (cap idx : nat) :
  idx < cap → runs P (store a cap idx) any.
Proof.
  intros H w. exists tt, w. split; [by apply store_ok|].
  split; [done|apply extends_refl].
Qed.

Lemma runs_printf (fd : nat) (fmt : string) (args : list parg) :
  P (EPrintf fd fmt args) → runs P (printf fd fmt args) any.
Proof. intros H w. eexists tt, _. split; [done|]. split; [done|by apply extends_emit]. Qed.

Lemma runs_close (fd : nat) : P (EClose fd) → runs P (close fd) any.
Proof.
  intros H w. eexists tt, _. split; [done|]. split; [done|].
  eapply extends_trans; [|by apply extends_emit]. by apply extends_same_log.
Qed.

Lemma runs_pipe (k : kernel) : (∀ r, P (EPipe r)) → runs P (pipe k) any.
Proof.
  intros H w. unfold pipe.
  destruct (k_pipe k w); [destruct (k_fdalloc k (ofile w)) as [fd0|];
    [destruct (k_fdalloc k _) as [fd1|]|]|].
  all: eexists _, _; (split; [done|]); (split; [done|]).
  all: try by apply extends_emit.
  eapply extends_trans; [|by apply extends_emit]. by apply extends_same_log.
Qed.

Lemma runs_open (k : kernel) (path : list ascii) (fl : list oflag) :
  (∀ r, P (EOpen path fl r)) → runs P (open k path fl) any.
Proof.
  intros H w. unfold open.
  destruct (if k_open k w path then _ else _).
  all: eexists _, _; (split; [done|]); (split; [done|]).
  - eapply extends_trans; [|by apply extends_emit]. by apply extends_same_log.
  - by apply extends_emit.
Qed.

Lemma runs_fork (k : kernel) (image : world → child) :
  (∀ r, P (EFork r)) → runs P (fork k image) any.
Proof.
  intros H w. unfold fork. destruct (k_fork k w).
  all: eexists _, _; (split; [done|]); (split; [done|]).
  - eapply extends_trans; [|by apply extends_emit]. by apply extends_same_log.
  - by apply extends_emit.
Qed.

Lemma runs_wait (k : kernel) : (∀ r, P (EWait r)) → runs P (wait k) any.
Proof.
  intros H w. unfold wait. destruct (children w).
  all: eexists _, _; (split; [done|]); (split; [done|]).
  - by apply extends_emit.
  - eapply extends_trans; [|by apply extends_emit]. by apply extends_same_log.
Qed.
End Emits.

(** * The executors always return *)

Section Calls.
Context (P : event → Prop) (k : kernel).
Hypothesis Perr : ∀ fmt args, P (EPrintf 2 fmt args).
Hypothesis Ppipe : ∀ r, P (EPipe r).
Hypothesis Pfork : ∀ r, P (EFork r).
Hypothesis Pclose : ∀ fd, P (EClose fd).
Hypothesis Pwait : ∀ r, P (EWait r).

Lemma runs_collect_args (n : nat) :
  ∀ tok args, length args + n ≤ MAXTOKENS - 1 →
    runs P (collect_args n tok args) (λ a, length a ≤ MAXTOKENS - 1).
Proof.
  induction n as [|n IH]; intros tok args Hn; cbn [collect_args].
  - destruct tok; apply runs_ret; lia.
  - destruct tok as [t|]; [|apply runs_ret; lia].
    eapply runs_bind; [apply runs_store; unfold MAXTOKENS in *; lia|].
    intros _ _. eapply runs_bind; [apply runs_strtok_custom|].
    intros tok' _. apply IH. rewrite length_app. unfold MAXTOKENS in *. simpl. lia.
Qed.

(** No store into [args] is out of bounds. *)
Lemma runs_stage_args (cmd : option nat) : runs P (stage_args cmd) any.
Proof.
  unfold stage_args. eapply runs_bind; [apply runs_strtok_custom|].
  intros tok _. eapply runs_bind; [by apply runs_collect_args|].
  intros args Hargs. cbn beta in Hargs.
  eapply runs_bind; [apply runs_store; unfold MAXTOKENS in *; lia|].
  intros _ _. by apply runs_ret.
Qed.

Lemma runs_piped_stages (commands : list nat) (num : nat) (n : nat) :
  ∀ i inp, runs P (piped_stages k commands num n i inp) any.
Proof.
  induction n as [|n IH]; intros i inp; cbn [piped_stages].
  - by apply runs_ret.
  - eapply runs_bind; [apply runs_stage_args|]. intros args _.
    eapply runs_bind; [by apply runs_pipe|]. intros [fd|] _.
    + eapply runs_bind; [by apply runs_fork|]. intros [pid|] _.
      * eapply runs_bind.
        { case_decide; [by apply runs_close|by apply (runs_ret _ _ any)]. }
        intros _ _. eapply runs_bind; [by apply runs_close|].
        intros _ _. apply IH.
      * eapply runs_bind; [by apply runs_printf, Perr|].
        intros _ _. by apply runs_ret.
    + eapply runs_bind; [by apply runs_printf, Perr|].
      intros _ _. by apply runs_ret.
Qed.

Lemma runs_wait_n (n : nat) : runs P (wait_n k n) any.
Proof.
  induction n as [|n IH]; cbn [wait_n]; [by apply runs_ret|].
  eapply runs_bind; [by apply runs_wait|]. intros _ _. apply IH.
Qed.

Lemma runs_execute_piped_commands (commands : list nat) (num : nat) :
  runs P (execute_piped_commands k commands num) any.
Proof.
  unfold execute_piped_commands.
  eapply runs_bind; [apply runs_piped_stages|]. intros [] _.
  - eapply runs_bind; [apply runs_wait_n|]. intros _ _. by apply runs_ret.
  - by apply runs_ret.
Qed.

Hypothesis Pprintf : ∀ fd fmt args, fmt ≠ SH_PROMPT → P (EPrintf fd fmt args).

Lemma runs_background_or_wait (bg : bool) (pid : nat) :
  runs P (if bg
          then printf 1 "[pid %d] runs as a background process\n" [PInt (Z.of_nat pid)]
          else wait k ≫= λ _, mret tt) any.
Proof.
  destruct bg; [by apply runs_printf, Pprintf|].
  eapply runs_bind; [by apply runs_wait|]. intros _ _. by apply runs_ret.
Qed.

Lemma runs_process_normal (tok : list nat) (bg : bool) :
  runs P (process_normal k tok bg) any.
Proof.
  unfold process_normal.
  eapply runs_bind; [by apply runs_fork|]. intros [pid|] _.
  - eapply runs_bind; [apply runs_background_or_wait|].
    intros _ _. by apply runs_ret.
  - eapply runs_bind; [by apply runs_printf, Pprintf|].
    intros _ _. by apply runs_ret.
Qed.

Lemma runs_redirect_run (cmd_args : list nat) (fd : option nat) (bg : bool) :
  runs P (redirect_run k cmd_args fd bg) any.
Proof.
  unfold redirect_run.
  eapply runs_bind; [by apply runs_fork|]. intros [pid|] _.
  - eapply runs_bind.
    { destruct fd; [by apply runs_close|by apply (runs_ret _ _ any)]. }
    intros _ _. eapply runs_bind; [apply runs_background_or_wait|].
    intros _ _. by apply runs_ret.
  - eapply runs_bind; [by apply runs_printf, Pprintf|].
    intros _ _. by apply runs_ret.
Qed.

Lemma runs_scan_redirect (tok : list nat) :
  runs P (scan_redirect (MAXTOKENS - 1) tok 0 [])
       (λ r, length r.1 ≤ MAXTOKENS - 1).
Proof.
  intros w.
  destruct (scan_redirect_ok (MAXTOKENS - 1) tok 0 [] w) as (ca & out & Hrun & Hlen);
    [lia|].
  exists (ca, out), w. split; [done|]. split; [done|apply extends_refl].
Qed.

(** No store into [cmd_args] is out of bounds. *)
Lemma runs_execute_redirection (tok : list nat) (bg : bool) :
  (∀ path r, P (EOpen path redirect_flags r)) →
  runs P (execute_redirection k tok bg) any.
Proof.
  intros Popen. unfold execute_redirection.
  eapply runs_bind; [apply runs_scan_redirect|]. intros [ca out] Hca.
  cbn [fst] in Hca.
  eapply runs_bind; [apply runs_store; unfold MAXTOKENS in *; lia|].
  intros _ _. destruct out as [o|]; [|apply runs_redirect_run].
  eapply runs_bind; [apply runs_get|]. intros w' _.
  eapply runs_bind; [by apply runs_open|]. intros [fd|] _.
  - apply runs_redirect_run.
  - eapply runs_bind; [by apply runs_printf, Pprintf|].
    intros _ _. by apply runs_ret.
Qed.
End Calls.

(** * A failed [open] *)

Lemma extends_new (P : event → Prop) (w w' : world) (e : event) :
  extends P w w' → e ∈ drop (length (log w)) (log w') → P e.
Proof.
  intros (evs & -> & H). rewrite drop_app_length.
  revert e. by apply Forall_forall.
Qed.

Lemma failed_open_inv (k : kernel) (tok : list nat) (bg : bool)
    (w w' : world) (r : Z) (path : list ascii) (fl : list oflag) :
  execute_redirection k tok bg w = Ok r w' →
  EOpen path fl None ∈ drop (length (log w)) (log w') →
  r = (-1)%Z ∧
  w' = emit (EPrintf 2 "Cannot open file %s\n" [PStr (Some path)])
         (emit (EOpen path fl None) w).
Proof.
  unfold execute_redirection. intros Hrun Hin.
  destruct (scan_redirect_ok (MAXTOKENS - 1) tok 0 [] w)
    as (ca & out & Hscan & Hlen); [lia|].
  erewrite bind_ok in Hrun by exact Hscan. cbn beta iota in Hrun.
  erewrite bind_ok in Hrun
    by (apply store_ok; unfold MAXTOKENS in *; simpl in *; lia).
  assert (Hquiet : ∀ fd, runs no_failed_open (redirect_run k ca fd bg) any)
    by (intros; by apply runs_redirect_run).
  destruct out as [o|].
  - rewrite bind_get in Hrun.
    destruct (open_total k (cstr (buf w) o) redirect_flags w) as (r0 & w1 & Hopen).
    erewrite bind_ok in Hrun by exact Hopen.
    destruct r0 as [fd|].
    + apply open_some_inv in Hopen as ->.
      destruct (Hquiet (Some fd) (emit (EOpen (cstr (buf w) o) redirect_flags (Some fd))
                  (set_ofile (<[fd:=Opened (cstr (buf w) o) redirect_flags]> (ofile w)) w)))
        as (r' & w2 & Hrun' & _ & Hext).
      rewrite Hrun' in Hrun. injection Hrun as -> ->.
      destruct (extends_new no_failed_open w w' (EOpen path fl None)); [|done].
      eapply extends_trans; [|exact Hext].
      eapply extends_trans; [|by apply extends_emit]. by apply extends_same_log.
    + apply open_fail_inv in Hopen as ->.
      injection Hrun as <- <-. split; [done|].
      cbn [log emit] in Hin. rewrite <-app_assoc, drop_app_length in Hin.
      apply elem_of_cons in Hin as [[= -> ->]|Hin]; [done|].
      by apply list_elem_of_singleton in Hin.
  - destruct (Hquiet None w) as (r' & w2 & Hrun' & _ & Hext).
    rewrite Hrun' in Hrun. injection Hrun as -> ->.
    by destruct (extends_new no_failed_open w w' (EOpen path fl None)).
Qed.

(** * The scan for the redirection operator *)

Lemma streq_gt (t : list ascii) : streq t ">" = bool_decide (t = GT).
Proof. done. Qed.

Lemma scan_redirect_found (pre : list nat) :
  ∀ (n : nat) (seen : list nat) (g : nat) (rest acc : list nat) (w : world),
    Forall (λ p, cstr (buf w) p ≠ GT) pre → cstr (buf w) g = GT →
    length pre < n → length seen + length pre < MAXTOKENS →
    scan_redirect n (seen ++ pre ++ g :: rest) (length seen) acc w
      = Ok (acc ++ pre, head rest) w.
Proof.
  induction pre as [|p pre IH]; intros n seen g rest acc w Hpre Hg Hn Hcap.
  all: destruct n as [|n]; [simpl in Hn; lia|]; cbn [scan_redirect app].
  all: rewrite list_lookup_middle by done; rewrite bind_get, streq_gt.
  - rewrite bool_decide_eq_true_2 by done. rewrite app_nil_r.
    rewrite (lookup_app_r seen), Nat.sub_succ_l, Nat.sub_diag by lia.
    by destruct rest.
  - inversion_clear Hpre as [|?? Hp Hpre'].
    rewrite bool_decide_eq_false_2 by done.
    erewrite bind_ok by (apply store_ok; lia).
    specialize (IH n (seen ++ [p]) g rest (acc ++ [p]) w Hpre' Hg).
    rewrite length_app, <-!app_assoc in IH. cbn [length app] in IH.
    rewrite Nat.add_1_r in IH. rewrite IH; [done|simpl in *; lia..].
Qed.



(** * The redirected command *)

Lemma wait_some (k : kernel) (w : world) :
  children w ≠ [] →
  ∃ p cs, wait k w = Ok (Some p) (emit (EWait (Some p)) (set_children cs w)).
Proof. unfold wait. destruct (children w); [done|]. eauto. Qed.

Lemma redirect_run_forked (k : kernel) (ca : list nat) (fd : option nat)
    (bg : bool) (w : world) (pid : nat) :
  k_fork k w = Some pid →
  ∃ w' ev,
    redirect_run k ca fd bg w = Ok 0%Z w' ∧
    log w' = log w ++ EFork (Some (pid, redirect_child k fd ca w))
                   :: match fd with Some n => [EClose n] | None => [] end ++ [ev] ∧
    (if bg
     then ev = EPrintf 1 "[pid %d] runs as a background process\n" [PInt (Z.of_nat pid)]
     else ∃ p, ev = EWait (Some p)) ∧
    ofile w' = match fd with Some n => fd_close (ofile w) n | None => ofile w end.
Proof.
  intros Hpid. unfold redirect_run.
  erewrite bind_ok by (by apply fork_run). cbn beta iota.
  set (w1 := emit _ _).
  assert (∃ w2, (match fd with Some n => close n | None => mret tt end) w1 = Ok tt w2 ∧
                log w2 = log w1 ++ match fd with Some n => [EClose n] | None => [] end ∧
                children w2 = children w1 ∧
                ofile w2 = match fd with Some n => fd_close (ofile w) n | None => ofile w end)
    as (w2 & Hclose & Hlog & Hch & Hof).
  { destruct fd; eexists; (split; [done|]); cbn; by rewrite ?app_nil_r. }
  erewrite bind_ok by exact Hclose.
  destruct bg.
  - eexists _, _. split; [done|]. cbn [log emit]. rewrite Hlog.
    subst w1. cbn [log emit set_children]. rewrite <-!app_assoc.
    by repeat split.
  - destruct (wait_some k w2) as (p & cs & Hwait).
    { rewrite Hch. subst w1. cbn. by destruct (children w). }
    erewrite bind_ok by (erewrite bind_ok by exact Hwait; done).
    eexists _, _. split; [done|]. cbn [log emit set_children ofile]. rewrite Hlog.
    subst w1. cbn [log emit set_children]. rewrite <-!app_assoc.
    split; [done|]. split; [by exists p|done].
Qed.



Lemma argv_of_Forall_ne (w : world) (tp : list nat) (t : list ascii) :
  t ∉ argv_of w tp → Forall (λ p, cstr (buf w) p ≠ t) tp.
Proof.
  unfold argv_of. intros H. apply Forall_forall. intros p Hp Heq.
  apply H. rewrite <-Heq. by apply list_elem_of_fmap_2.
Qed.


Lemma redirect_run_failed (k : kernel) (ca : list nat) (fd : option nat)
    (bg : bool) (w : world) :
  k_fork k w = None →
  redirect_run k ca fd bg w
    = Ok (-1)%Z (emit (EPrintf 2 "Fork failed\n" []) (emit (EFork None) w)).
Proof.
  intros Hf. unfold redirect_run. by erewrite bind_ok by (by apply fork_fail).
Qed.

Lemma argv_of_middle_inv (w : world) (tok : list nat) (pre : list (list ascii))
    (t o : list ascii) (post : list (list ascii)) :
  argv_of w tok = pre ++ t :: o :: post →
  ∃ tp g op tpost,
    tok = tp ++ g :: op :: tpost ∧ argv_of w tp = pre ∧
    cstr (buf w) g = t ∧ cstr (buf w) op = o.
Proof.
  unfold argv_of. intros (tp & tg & Hp & Hg & ->)%fmap_app_inv.
  destruct tg as [|g [|op tpost]]; try done.
  injection Hg as -> -> _. by exists tp, g, op, tpost.
Qed.

Lemma execute_redirection_found (k : kernel) (bg : bool) (w : world)
    (tp : list nat) (g op : nat) (tpost : list nat) :
  Forall (λ p, cstr (buf w) p ≠ GT) tp → cstr (buf w) g = GT →
  length tp < MAXTOKENS - 1 →
  ∃ rz r w' evs,
    execute_redirection k (tp ++ g :: op :: tpost) bg w = Ok rz w' ∧
    log w' = log w ++ EOpen (cstr (buf w) op) redirect_flags r :: evs ∧
    Forall (λ c, c_argv c = argv_of w tp) (forked evs) ∧
    Forall (λ e, is_open e = false) evs ∧
    match r with
    | None =>
        evs = [EPrintf 2 "Cannot open file %s\n" [PStr (Some (cstr (buf w) op))]]
    | Some fd =>
        ∃ fr rest,
          evs = EFork fr :: rest ∧
          match fr with
          | None => rest = [EPrintf 2 "Fork failed\n" []]
          | Some (_, c) =>
              c_argv c = argv_of w tp ∧ c_path c = head (argv_of w tp) ∧
              ∃ ev, rest = [EClose fd; ev]
          end
    end.
Proof.
  intros Htp Hg Hlen. unfold execute_redirection.
  erewrite bind_ok.
  2:{ apply (scan_redirect_found tp _ [] g (op :: tpost) [] w); [done..|lia|].
      unfold MAXTOKENS in *. simpl in *. lia. }
  cbn beta iota. cbn [app head].
  erewrite bind_ok by (apply store_ok; unfold MAXTOKENS in *; simpl in *; lia).
  rewrite bind_get.
  destruct (open_total k (cstr (buf w) op) redirect_flags w) as (r0 & w3 & Hopen).
  erewrite bind_ok by exact Hopen.
  destruct r0 as [fd|].
  - apply open_some_inv in Hopen as ->. set (w3 := emit _ _).
    destruct (k_fork k w3) as [pid|] eqn:Hfork.
    + destruct (redirect_run_forked k tp (Some fd) bg w3 pid Hfork)
        as (w4 & ev & Hrun4 & Hlog4 & Hev & _).
      rewrite Hrun4. eexists _, (Some fd), _, _. split; [reflexivity|].
      rewrite Hlog4. subst w3. cbn [log emit set_ofile].
      rewrite <-!app_assoc. split; [reflexivity|].
      split; [|split].
      * destruct bg; [subst ev|destruct Hev as [p ->]]; by repeat constructor.
      * destruct bg; [subst ev|destruct Hev as [p ->]]; by repeat constructor.
      * eexists _, _. split; [reflexivity|]. cbn [redirect_child c_argv c_path].
        split; [done|]. split; [by rewrite path_of_head|by eexists].
    + rewrite redirect_run_failed by done.
      eexists _, (Some fd), _, _. split; [reflexivity|].
      subst w3. cbn [log emit set_ofile].
      rewrite <-!app_assoc. split; [reflexivity|].
      split; [by cbn|]. split; [by repeat constructor|by eexists None, _].
  - apply open_fail_inv in Hopen as ->.
    eexists _, None, _, _. split; [reflexivity|].
    cbn [log emit]. rewrite <-!app_assoc. split; [reflexivity|].
    split; [by cbn|]. split; [by repeat constructor|done].
Qed.

(** C8 (amended): for a line that is not the builtin, whose token array
    can be allocated, whose argument vector holds no pipe token and has its
    first redirection operator among the first 15 tokens with a token behind
    it: the token behind the operator is the path that is opened, with the
    flags create-if-missing and write-only and no other (no truncation is
    asked for), and this is the only [open] of the line.  When the [open]
    fails, the shell reports it and frees the token array.  When it
    succeeds, the shell calls [fork]; a child that is forked executes the
    vector truncated at the operator, that is the tokens in front of it,
    the first one as the path, and the shell closes the target, waits or
    reports the background child, and frees the token array. *)
Theorem C8_target_opened_create_wronly (k : kernel) (w : world)
    (pre : list (list ascii)) (o : list ascii) (post : list (list ascii)) :
  (line_tokens (cstr (buf w) 0)).1 = pre ++ GT :: o :: post →
  GT ∉ pre →
  PIPE ∉ pre ++ GT :: o :: post →
  head pre ≠ Some EXIT →
  length pre < MAXTOKENS - 1 →
  k_malloc k w (count_tokens (buf w) + 1) = true →
  ∃ r w' evs,
    process_one_cmd k w = Ok 0%Z w' ∧
    log w' = log w ++ EMalloc (count_tokens (buf w) + 1) true
                   :: EOpen o [O_CREATE; O_WRONLY] r :: evs ∧
    Forall (λ c, c_argv c = pre) (forked evs) ∧
    Forall (λ e, is_open e = false) evs ∧
    match r with
    | None => evs = [EPrintf 2 "Cannot open file %s\n" [PStr (Some o)]; EFree]
    | Some fd =>
        ∃ fr rest,
          evs = EFork fr :: rest ∧
          match fr with
          | None => rest = [EPrintf 2 "Fork failed\n" []; EFree]
          | Some (_, c) =>
              c_argv c = pre ∧ c_path c = head pre ∧
              ∃ ev, rest = [EClose fd; ev; EFree]
          end
    end.
Proof.
  intros Hline Hgt Hpipe Hexit Hlen Hmem.
  unfold process_one_cmd. rewrite bind_get. cbn zeta.
  erewrite bind_ok by apply malloc_run. rewrite Hmem. cbn [negb].
  set (w1 := emit _ w).
  destruct (read_tokens_spec w1) as (tok & w2 & Hrun & Hargv & Hos).
  change (buf w1) with (buf w) in *.
  erewrite bind_ok by exact Hrun. cbn beta iota. rewrite bind_get.
  rewrite Hline in Hargv.
  (* the shape of the line *)
  unfold classify. rewrite exit_check_head, !has_token_spec, Hargv.
  rewrite bool_decide_eq_false_2.
  2:{ destruct pre; [intros [= H]; by vm_compute in H|].
      intros [= ->]. by apply Hexit. }
  change (cstr_of (list_ascii_of_string "|")) with PIPE.
  change (cstr_of (list_ascii_of_string ">")) with GT.
  rewrite bool_decide_eq_false_2 by done.
  rewrite bool_decide_eq_true_2
    by (apply elem_of_app; right; apply list_elem_of_here).
  (* the scan and the call of [open] *)
  destruct (argv_of_middle_inv _ _ _ _ _ _ Hargv)
    as (tp & g & op & tpost & -> & Hpre & Hg & Ho).
  assert (Hltp : length tp = length pre)
    by (by rewrite <-Hpre; unfold argv_of; rewrite length_fmap).
  destruct (execute_redirection_found k (line_tokens (cstr (buf w) 0)).2 w2
              tp g op tpost)
    as (rz & r & w3 & evs & Hexec & Hlog3 & Hforked & Hopen & Hevs);
    [apply argv_of_Forall_ne; by rewrite Hpre|done|lia|].
  erewrite bind_ok by exact Hexec.
  destruct Hos as (_ & _ & _ & Hlog).
  exists r. eexists _, (evs ++ [EFree]). split; [reflexivity|].
  cbn [log emit]. rewrite Hlog3, Hlog, Ho. subst w1. cbn [log emit].
  rewrite <-!app_assoc. split; [reflexivity|]. split; [|split].
  - unfold forked. rewrite omap_app. cbn. rewrite app_nil_r. by rewrite <-Hpre.
  - apply Forall_app. split; [done|by repeat constructor].
  - rewrite Hpre, Ho in Hevs. destruct r as [fd|]; [|by rewrite Hevs].
    destruct Hevs as (fr & rest & -> & Hrest).
    exists fr, (rest ++ [EFree]). split; [done|].
    destruct fr as [[pid c]|]; [|by rewrite Hrest].
    destruct Hrest as (Hca & Hcp & ev & ->). by repeat split; [..|exists ev].
Qed.

Lemma open_refused (k : kernel) (path : list ascii) (fl : list oflag) (w : world) :
  k_open k w path = false ∨ k_fdalloc k (ofile w) = None →
  open k path fl w = Ok None (emit (EOpen path fl None) w).
Proof.
  unfold open. intros [->| ->]; [done|]. by destruct (k_open k w path).
Qed.

(** C7: the redirection executor on any token vector.  It always returns,
    and whenever its run holds a failed [open] it has reported that with
    the target's name and returned -1, and the shell is then as it was but
    for these two entries of its log.  And the failure does occur for a
    redirected command whose target the kernel refuses to open: when the
    first redirection operator of the vector is among its first 15 tokens
    and has a token [o] behind it, and the kernel does not allow the file to
    be opened or has no descriptor left, the executor returns -1 after
    exactly two calls, the failed [open] of [o] and the report
    [Cannot open file] that names [o].  No process was created, so nothing
    was executed, and the shell's descriptors, children and buffer are
    unchanged. *)
Theorem C7_failed_open_forks_nothing (k : kernel) (tok : list nat) (bg : bool)
    (w : world) :
  (∃ r w',
     execute_redirection k tok bg w = Ok r w' ∧
     ∀ path fl,
       EOpen path fl None ∈ drop (length (log w)) (log w') →
       r = (-1)%Z ∧
       w' = emit (EPrintf 2 "Cannot open file %s\n" [PStr (Some path)])
              (emit (EOpen path fl None) w)) ∧
  ∀ pre o post,
    argv_of w tok = pre ++ GT :: o :: post →
    GT ∉ pre →
    length pre < MAXTOKENS - 1 →
    k_open k w o = false ∨ k_fdalloc k (ofile w) = None →
    execute_redirection k tok bg w =
      Ok (-1)%Z
         (emit (EPrintf 2 "Cannot open file %s\n" [PStr (Some o)])
            (emit (EOpen o [O_CREATE; O_WRONLY] None) w)).
Proof.
  split.
  - destruct (runs_execute_redirection (λ _, True) k ltac:(done) ltac:(done)
                ltac:(done) ltac:(done) tok bg ltac:(done) w)
      as (r & w' & Hrun & _).
    exists r, w'. split; [done|]. intros path fl.
    by apply (failed_open_inv k tok bg).
  - intros pre o post Hargv Hgt Hlen Hrefused.
    destruct (argv_of_middle_inv _ _ _ _ _ _ Hargv)
      as (tp & g & op & tpost & -> & Hpre & Hg & Ho).
    assert (Hltp : length tp = length pre)
      by (by rewrite <-Hpre; unfold argv_of; rewrite length_fmap).
    unfold execute_redirection.
    erewrite bind_ok.
    2:{ apply (scan_redirect_found tp _ [] g (op :: tpost) [] w);
          [apply argv_of_Forall_ne; by rewrite Hpre|done|lia|].
        unfold MAXTOKENS in *. simpl in *. lia. }
    cbn beta iota. cbn [app head].
    erewrite bind_ok by (apply store_ok; unfold MAXTOKENS in *; simpl in *; lia).
    rewrite bind_get, Ho.
    by erewrite bind_ok by (by apply open_refused).
Qed.

(** * One command line never ends the shell by itself *)

Lemma in_command_printf (fd : nat) (fmt : string) (args : list parg) :
  fmt ≠ SH_PROMPT → in_command (EPrintf fd fmt args).
Proof.
  intros Hfmt. split; [|done].
  destruct fd as [|[|fd]], args; try done.
  cbn. by apply bool_decide_eq_false_2.
Qed.

Lemma runs_split_loop (P : event → Prop) (n : nat) :
  ∀ cmd commands, length commands + n ≤ MAXTOKENS →
    runs P (split_loop n cmd commands) (λ cs, length cs ≤ MAXTOKENS).
Proof.
  induction n as [|n IH]; intros cmd commands Hn; cbn [split_loop].
  - destruct cmd; apply runs_ret; lia.
  - destruct cmd as [c|]; [|apply runs_ret; lia].
    eapply runs_bind; [apply runs_get|]. intros w _.
    eapply runs_bind; [apply runs_store; lia|]. intros _ _.
    eapply runs_bind; [apply runs_strtok_custom|]. intros cmd' _.
    apply IH. rewrite length_app. simpl. lia.
Qed.

(** The only store of [split_commands] that can leave the array is the one
    of the sentinel, at index [MAXTOKENS]. *)
Lemma split_commands_cases (P : event → Prop) (w : world) :
  ∃ w', extends P w w' ∧
    ((∃ cs, split_commands 0 w = Ok cs w') ∨
     split_commands 0 w = Halt (OutOfBounds "commands" MAXTOKENS) w').
Proof.
  unfold split_commands.
  destruct (runs_strtok_custom P (Some 0) delim_pipe w) as (cmd & w1 & Hrun1 & _ & H1).
  destruct (runs_split_loop P MAXTOKENS cmd [] (Nat.le_refl _) w1)
    as (cs & w2 & Hrun2 & Hlen & H2).
  exists w2. split; [by eapply extends_trans|].
  erewrite bind_ok by exact Hrun1. erewrite bind_ok by exact Hrun2.
  destruct (decide (length cs < MAXTOKENS)) as [Hlt|Hge].
  - left. exists cs. by erewrite bind_ok by by apply store_ok.
  - right. apply bind_halt. unfold store. rewrite decide_False by done.
    by replace (length cs) with MAXTOKENS by lia.
Qed.

Lemma process_one_cmd_survives (k : kernel) (w : world) :
  k_malloc k w (count_tokens (buf w) + 1) = true →
  head (ws_split (cstr (buf w) 0)) ≠ Some EXIT →
  ∃ w', extends in_command w w' ∧
    (process_one_cmd k w = Ok 0%Z w' ∨
     process_one_cmd k w = Halt (OutOfBounds "commands" MAXTOKENS) w').
Proof.
  intros Hmem Hexit. unfold process_one_cmd. rewrite bind_get. cbn zeta.
  erewrite bind_ok by apply malloc_run. rewrite Hmem. cbn [negb].
  set (w1 := emit _ w).
  assert (H1 : extends in_command w w1) by by apply extends_emit.
  destruct (read_tokens_spec w1) as (tok & w2 & Hrun & Hargv & Hos).
  change (buf w1) with (buf w) in *.
  erewrite bind_ok by exact Hrun. cbn beta iota. rewrite bind_get.
  assert (H2 : extends in_command w w2)
    by (eapply extends_trans; [exact H1|by apply extends_same_os]).
  unfold classify. rewrite exit_check_head, Hargv, line_tokens_head.
  rewrite bool_decide_eq_false_2 by done.
  set (bg := (line_tokens _).2). clearbody bg.
  assert (Hfree : ∀ w3 (r : Z), extends in_command w w3 →
            ∃ w', extends in_command w w' ∧
                  (free ≫= λ _, mret 0%Z) w3 = Ok 0%Z w').
  { intros w3 _ H3. eexists. split; [|done].
    eapply extends_trans; [exact H3|by apply extends_emit]. }
  destruct (has_token (buf w2) tok "|").
  - destruct (split_commands_cases in_command w2) as (w3 & H3 & [[cs Hcs]|Hhalt]).
    + erewrite bind_ok by exact Hcs.
      destruct (runs_execute_piped_commands in_command k ltac:(done)
                  ltac:(done) ltac:(done) ltac:(done) ltac:(done) cs (length cs) w3)
        as (r & w4 & Hrun4 & _ & H4).
      erewrite bind_ok by exact Hrun4.
      destruct (Hfree w4 r) as (w' & H' & ->); [|by eauto].
      eapply extends_trans; [exact H2|]. by eapply extends_trans.
    + exists w3. split; [by eapply extends_trans|]. right. by apply bind_halt.
  - destruct (has_token (buf w2) tok ">").
    + destruct (runs_execute_redirection in_command k ltac:(done) ltac:(done)
                  ltac:(done) in_command_printf tok bg ltac:(done) w2)
        as (r & w4 & Hrun4 & _ & H4).
      erewrite bind_ok by exact Hrun4.
      destruct (Hfree w4 r) as (w' & H' & ->); [|by eauto].
      by eapply extends_trans.
    + destruct (runs_process_normal in_command k ltac:(done) ltac:(done)
                  in_command_printf tok bg w2)
        as (r & w4 & Hrun4 & _ & H4).
      erewrite bind_ok by exact Hrun4.
      destruct (Hfree w4 r) as (w' & H' & ->); [|by eauto].
      by eapply extends_trans.
Qed.

(** * The read loop *)

Lemma count_app (p : event → bool) (l1 l2 : list event) :
  count p (l1 ++ l2) = count p l1 + count p l2.
Proof. unfold count. by rewrite filter_app, length_app. Qed.

Lemma count_cons (p : event → bool) (e : event) (l : list event) :
  count p (e :: l) = (if p e then 1 else 0) + count p l.
Proof.
  unfold count. rewrite filter_cons.
  destruct (p e); [by rewrite decide_True|by rewrite decide_False].
Qed.

Lemma count_nil (p : event → bool) : count p [] = 0.
Proof. done. Qed.

Lemma count_snoc (p : event → bool) (l : list event) (e : event) :
  count p (l ++ [e]) = count p l + (if p e then 1 else 0).
Proof. rewrite count_app, count_cons, count_nil. lia. Qed.

Lemma count_in_command (evs : list event) :
  Forall in_command evs → count is_read evs = 0 ∧ count is_prompt evs = 0.
Proof.
  induction 1 as [|e evs [Hp Hr] _ [IH1 IH2]]; [done|].
  rewrite !count_cons, Hp, Hr. lia.
Qed.

Lemma extends_in_command_counts (w w' : world) :
  extends in_command w w' →
  count is_read (log w') = count is_read (log w) ∧
  count is_prompt (log w') = count is_prompt (log w).
Proof.
  intros (evs & -> & [H1 H2]%count_in_command).
  rewrite !count_app. lia.
Qed.

Lemma cstr_of_app_nul_any (a r : list ascii) :
  cstr_of (a ++ NUL :: r) = cstr_of a.
Proof.
  induction a as [|c a IH].
  - by rewrite app_nil_l, cstr_of_cons, decide_True.
  - rewrite <-app_comm_cons, !cstr_of_cons. case_decide; [done|]. by rewrite IH.
Qed.

(** The buffer [process_one_cmd] is entered with holds the line of the
    chunk that was read. *)
Lemma line_in_buffer (chunk old : list ascii) :
  let n := length chunk `min` MAXLINE in
  n ≠ 0 →
  cstr (<[n - 1 := NUL]> (take n chunk ++ drop n old)) 0 = line_of chunk.
Proof.
  intros n Hn. unfold line_of, cstr. rewrite drop_0. fold n.
  destruct n as [|m] eqn:Hm; [done|].
  replace (S m - 1) with m by lia.
  destruct (lookup_lt_is_Some_2 chunk m) as [x Hx]; [lia|].
  rewrite (take_S_r _ _ _ Hx), <-app_assoc. cbn [app].
  assert (Hlen : length (take m chunk) = m) by (rewrite length_take; lia).
  rewrite <-Hlen at 1. rewrite <-(Nat.add_0_r (length (take m chunk))).
  rewrite insert_app_r. cbn. apply cstr_of_app_nul_any.
Qed.

Lemma read_loop_spec (k : kernel) (input : list (list ascii)) :
  (∀ w n, k_malloc k w n = true) →
  Forall (λ chunk, chunk ≠ [] ∧ head (ws_split (line_of chunk)) ≠ Some EXIT) input →
  ∀ w, ∃ w',
    (read_loop k input w = Ok tt w' ∧
     count is_read (log w') = count is_read (log w) + length input ∧
     count is_prompt (log w') = count is_prompt (log w) + length input) ∨
    read_loop k input w = Halt (OutOfBounds "commands" MAXTOKENS) w'.
Proof.
  intros Hmem. induction 1 as [|chunk input [Hne Hexit] _ IH]; intros w.
  { exists w. left. cbn. split; [done|]. lia. }
  cbn [read_loop]. cbn zeta.
  assert (Hn : length chunk `min` MAXLINE ≠ 0).
  { destruct chunk; [done|]. unfold MAXLINE. simpl. lia. }
  rewrite decide_False by done. rewrite bind_modify.
  set (n := length chunk `min` MAXLINE) in *.
  set (w1 := emit _ _).
  assert (Hr1 : count is_read (log w1) = count is_read (log w) + 1)
    by (subst w1; cbn [log emit set_buf]; by rewrite count_snoc).
  assert (Hp1 : count is_prompt (log w1) = count is_prompt (log w))
    by (subst w1; cbn [log emit set_buf]; rewrite count_snoc; cbn [is_prompt]; lia).
  destruct (decide (n = 1)) as [Hone|Hone].
  - unfold printf. rewrite bind_modify.
    destruct (IH (emit (EPrintf 1 SH_PROMPT []) w1)) as (w' & [(Hrun & Hr & Hp)|Hhalt]).
    + exists w'. left. split; [done|].
      cbn [log emit length] in *. rewrite count_snoc in Hr, Hp.
      change (is_prompt _) with true in Hp. cbn beta iota in Hp.
      cbn [is_read] in Hr. lia.
    + exists w'. by right.
  - rewrite bind_modify. set (w2 := set_buf _ w1).
    destruct (process_one_cmd_survives k w2) as (w3 & Hext & [Hrun|Hhalt]).
    { apply Hmem. }
    { subst w2 w1. cbn [buf set_buf emit]. subst n.
      by rewrite line_in_buffer. }
    + erewrite bind_ok by exact Hrun. unfold printf. rewrite !bind_modify.
      apply extends_in_command_counts in Hext as [Hr3 Hp3].
      change (log w2) with (log w1) in *.
      destruct (IH (set_buf (replicate MAXLINE NUL) (emit (EPrintf 1 SH_PROMPT []) w3)))
        as (w' & [(Hrun' & Hr & Hp)|Hhalt]).
      * exists w'. left. split; [done|].
        cbn [log emit set_buf length] in *. rewrite count_snoc in Hr, Hp.
        change (is_prompt _) with true in Hp. cbn beta iota in Hp.
      cbn [is_read] in Hr. lia.
      * exists w'. by right.
    + exists w3. right. by apply bind_halt.
Qed.

(** C4 (amended): while the token array of every line can be allocated, no
    failure of [fork], [pipe] or [open], and nothing that happens to a child
    (a failed [exec] included), ends the read loop: for lines that are not
    the builtin the shell reads every line and prints a prompt before the
    first and after each one, and ends at the end of the input.  The other
    way a run can end is the store one past the end of the array of command
    strings. *)
Theorem C4_read_loop_survives_failures (k : kernel) (input : list (list ascii))
    (w : world) :
  (∀ w n, k_malloc k w n = true) →
  Forall (λ chunk, chunk ≠ [] ∧ head (ws_split (line_of chunk)) ≠ Some EXIT) input →
  ∃ w',
    (main k input w = Halt Exited w' ∧
     count is_read (log w') = count is_read (log w) + length input ∧
     count is_prompt (log w') = count is_prompt (log w) + length input + 1) ∨
    main k input w = Halt (OutOfBounds "commands" MAXTOKENS) w'.
Proof.
  intros Hmem Hinput. unfold main, printf. rewrite bind_modify.
  destruct (read_loop_spec k input Hmem Hinput (emit (EPrintf 1 SH_PROMPT []) w))
    as (w' & [(Hrun & Hr & Hp)|Hhalt]).
  - exists (emit EExit w'). left. erewrite bind_ok by exact Hrun.
    split; [done|]. cbn [log emit] in *.
    rewrite !count_snoc in *. change (is_prompt (EPrintf _ _ _)) with true in Hp.
    cbn beta iota in Hp.
    cbn [is_read is_prompt] in *. lia.
  - exists w'. right. by apply bind_halt.
Qed.

(** * The pipeline executor in general *)

Lemma strtok_custom_same_os (s : option nat) (d : list ascii) (w : world) :
  ∃ r w', strtok_custom s d w = Ok r w' ∧ same_os w w'.
Proof.
  unfold strtok_custom.
  destruct (match s with Some p => Some p | None => last w end);
    repeat case_decide; by eexists _, _.
Qed.

Lemma collect_args_same_os (n : nat) :
  ∀ tok args w, length args + n ≤ MAXTOKENS - 1 →
    ∃ a w', collect_args n tok args w = Ok a w' ∧ same_os w w' ∧
            length a ≤ MAXTOKENS - 1.
Proof.
  induction n as [|n IH]; intros tok args w Hn; cbn [collect_args].
  - exists args, w. by destruct tok; repeat split; try lia.
  - destruct tok as [t|]; [|exists args, w; repeat split; (done || lia)].
    erewrite bind_ok by (apply store_ok; unfold MAXTOKENS in *; lia).
    destruct (strtok_custom_same_os None delim_space w) as (tok' & w1 & Hrun & Hos).
    erewrite bind_ok by exact Hrun.
    destruct (IH tok' (args ++ [t]) w1) as (a & w2 & Hrun2 & Hos2 & Hlen).
    { rewrite length_app. unfold MAXTOKENS in *. simpl. lia. }
    exists a, w2. split; [done|]. split; [by eapply same_os_trans|done].
Qed.

Lemma stage_args_same_os (cmd : option nat) (w : world) :
  ∃ args w', stage_args cmd w = Ok args w' ∧ same_os w w'.
Proof.
  unfold stage_args.
  destruct (strtok_custom_same_os cmd delim_space w) as (tok & w1 & Hrun & Hos).
  erewrite bind_ok by exact Hrun.
  destruct (collect_args_same_os (MAXTOKENS - 1) tok [] w1) as (a & w2 & Hrun2 & Hos2 & Hlen);
    [simpl; lia|].
  erewrite bind_ok by exact Hrun2.
  erewrite bind_ok by (apply store_ok; unfold MAXTOKENS in *; lia).
  exists a, w2. split; [done|by eapply same_os_trans].
Qed.

Lemma pipe_cases (k : kernel) (w : world) :
  pipe k w = Ok None (emit (EPipe None) w) ∨
  ∃ fd0 fd1,
    k_fdalloc k (ofile w) = Some fd0 ∧
    k_fdalloc k (<[fd0 := PipeRead (pipes w)]> (ofile w)) = Some fd1 ∧
    pipe k w =
      Ok (Some (fd0, fd1))
         (emit (EPipe (Some (fd0, fd1)))
            (set_pipes (S (pipes w))
               (set_ofile (<[fd1 := PipeWrite (pipes w)]>
                             (<[fd0 := PipeRead (pipes w)]> (ofile w))) w))).
Proof.
  unfold pipe. destruct (k_pipe k w); [|by left].
  destruct (k_fdalloc k (ofile w)) as [fd0|]; [|by left].
  destruct (k_fdalloc k _) as [fd1|] eqn:H1; [|by left].
  right. by exists fd0, fd1.
Qed.

Lemma forked_app (l1 l2 : list event) : forked (l1 ++ l2) = forked l1 ++ forked l2.
Proof. apply omap_app. Qed.

Lemma forked_no_fork (evs : list event) :
  Forall (λ e, is_fork e = false) evs → forked evs = [].
Proof.
  induction 1 as [|e evs He _ IH]; [done|].
  unfold forked in *. cbn. rewrite IH. by destruct e as [| | | | |[[]|]| | | |].
Qed.

(** ** The counts of C2 *)

Lemma wait_n_counts (k : kernel) (n : nat) :
  ∀ w, ∃ w' evs,
    wait_n k n w = Ok tt w' ∧ log w' = log w ++ evs ∧
    count is_wait evs = n ∧ count is_pipe evs = 0 ∧ count is_fork evs = 0.
Proof.
  induction n as [|n IH]; intros w; cbn [wait_n].
  - exists w, []. by rewrite app_nil_r.
  - assert (∃ r w1, wait k w = Ok r w1 ∧ log w1 = log w ++ [EWait r])
      as (r & w1 & Hrun & Hlog).
    { unfold wait. destruct (children w); by eexists _, _. }
    erewrite bind_ok by exact Hrun.
    destruct (IH w1) as (w' & evs & Hrun' & Hlog' & Hw & Hp & Hf).
    exists w', (EWait r :: evs). split; [done|].
    rewrite Hlog', Hlog, <-app_assoc. split; [done|].
    rewrite !count_cons. cbn. lia.
Qed.

Lemma piped_stages_counts (k : kernel) (commands : list nat) (num n : nat) :
  ∀ i inp w, ∃ ok w' evs,
    piped_stages k commands num n i inp w = Ok ok w' ∧
    log w' = log w ++ evs ∧
    count is_wait evs = 0 ∧
    (ok = true → count is_pipe evs = n ∧ count is_fork evs = n).
Proof.
  induction n as [|n IH]; intros i inp w; cbn [piped_stages].
  { exists true, w, []. by rewrite app_nil_r. }
  destruct (stage_args_same_os (commands !! i) w) as (args & w1 & Hrun1 & Hos).
  erewrite bind_ok by exact Hrun1. destruct Hos as (_ & _ & _ & Hlog1).
  destruct (pipe_cases k w1) as [Hpipe|(fd0 & fd1 & _ & _ & Hpipe)];
    erewrite bind_ok by exact Hpipe; cbn beta iota.
  { eexists false, _, [_; _]. split; [done|].
    cbn [log emit]. rewrite Hlog1, <-app_assoc. by repeat split. }
  set (w2 := emit _ _). set (image := stage_child _ _ _ _ _).
  destruct (k_fork k w2) as [pid|] eqn:Hfork.
  - erewrite bind_ok by (by apply fork_run). cbn beta iota.
    set (w3 := emit _ _).
    assert (∃ w4 cl, (if decide (inp ≠ 0) then close inp else mret tt) w3 = Ok tt w4 ∧
                     log w4 = log w3 ++ cl ∧
                     Forall (λ e, ∃ fd, e = EClose fd) cl)
      as (w4 & cl & Hrun4 & Hlog4 & Hcl).
    { case_decide; [eexists _, [_]|exists w3, []]; (split; [done|]).
      - split; [done|]. repeat constructor. by eexists.
      - by rewrite app_nil_r. }
    erewrite bind_ok by exact Hrun4.
    unfold close at 1. rewrite bind_modify. cbn [snd fst].
    set (w5 := emit _ _).
    destruct (IH (S i) fd0 w5) as (ok & w' & evs & Hrun' & Hlog' & Hw & Hdone).
    exists ok, w', (EPipe (Some (fd0, fd1)) :: EFork (Some (pid, image w2))
                        :: cl ++ EClose fd1 :: evs).
    split; [done|].
    assert (Hcount : ∀ p, (∀ fd, p (EClose fd) = false) → count p cl = 0).
    { intros p Hp. clear -Hcl Hp. induction Hcl as [|e cl [fd ->] _ IH]; [done|].
      by rewrite count_cons, Hp, IH. }
    split.
    { rewrite Hlog'. subst w5. cbn [log emit set_ofile]. rewrite Hlog4.
      subst w3 w2. cbn [log emit set_ofile set_pipes set_children].
      rewrite Hlog1, <-!app_assoc. done. }
    rewrite !count_cons, !count_app, !count_cons, !Hcount by done. cbn.
    split; [lia|]. intros Hd. destruct (Hdone Hd). lia.
  - erewrite bind_ok by (by apply fork_fail). cbn beta iota.
    eexists false, _, [_; _; _]. split; [done|].
    cbn [log emit]. subst w2. cbn [log emit set_ofile set_pipes].
    rewrite Hlog1, <-!app_assoc. by repeat split.
Qed.

(** When [execute_piped_commands] returns 0 it has created as many pipes as
    there are commands, forked as many children and waited as many
    times. *)
Lemma execute_piped_commands_counts (k : kernel) (commands : list nat)
    (num : nat) (w w' : world) :
  execute_piped_commands k commands num w = Ok 0%Z w' →
  ∃ evs, log w' = log w ++ evs ∧
         count is_pipe evs = num ∧ count is_fork evs = num ∧
         count is_wait evs = num.
Proof.
  unfold execute_piped_commands. intros Hrun.
  destruct (piped_stages_counts k commands num num 0 0 w)
    as (ok & w1 & evs & Hrun1 & Hlog1 & Hw & Hdone).
  erewrite bind_ok in Hrun by exact Hrun1.
  destruct ok; [|done].
  destruct (wait_n_counts k num w1) as (w2 & evs2 & Hrun2 & Hlog2 & Hw2 & Hp2 & Hf2).
  erewrite bind_ok in Hrun by exact Hrun2. injection Hrun as <-.
  destruct Hdone as [Hp Hf]; [done|].
  exists (evs ++ evs2). rewrite Hlog2, Hlog1, <-app_assoc. split; [done|].
  rewrite !count_app. lia.
Qed.

(** ** The descriptors of the children of C3 *)

Section Stdio.
Context (k : kernel) (f0 f1 : file).
Hypothesis Hfresh : fresh_descriptors k.







End Stdio.

(** * The stages of a pipeline in general *)

Lemma in_delim_space (c : ascii) : c ∈ delim_space ↔ c = SPACE.
Proof. unfold delim_space. cbn. apply list_elem_of_singleton. Qed.

Lemma in_delim_pipe (c : ascii) : c ∈ delim_pipe ↔ c = "|"%char.
Proof. unfold delim_pipe. cbn. apply list_elem_of_singleton. Qed.

Lemma span_spaces_app (ds t rest : list ascii) :
  Forall (λ c, c ∈ delim_space) ds → t ≠ [] → Forall (λ c, c ∉ delim_space) t →
  span_spaces (ds ++ t ++ rest) = length ds.
Proof.
  intros Hds Hne Ht. induction Hds as [|c ds Hc%in_delim_space _ IH].
  - destruct t as [|c t]; [done|]. inversion_clear Ht as [|?? Hc _].
    cbn. rewrite decide_False; [done|]. by rewrite <-in_delim_space.
  - cbn. by rewrite decide_True, IH.
Qed.

Lemma strtok_custom_finished (d : list ascii) (w : world) :
  last w = None → strtok_custom None d w = Ok None w.
Proof. unfold strtok_custom. by intros ->. Qed.

Lemma split_loop_some (n c : nat) (commands : list nat) (w : world) :
  split_loop (S n) (Some c) commands w =
    (store "commands" MAXTOKENS (length commands) ≫= λ _,
     strtok_custom None delim_pipe ≫= λ cmd',
     split_loop n cmd' (commands ++ [c + span_spaces (drop c (buf w))])) w.
Proof. done. Qed.

Lemma split_loop_none (n : nat) (commands : list nat) (w : world) :
  split_loop n None commands w = Ok commands w.
Proof. by destruct n. Qed.

(** A line whose first token holds no pipe character and which has a pipe
    token behind it is run as a pipeline of one stage, the first token: the
    tokenization on spaces has ended the buffer's first C string behind that
    token, and the split on the pipe character sees nothing else. *)
Lemma spaced_pipeline_has_one_stage (w : world) (t0 : list ascii)
    (rest : list (list ascii)) :
  ws_split (cstr (buf w) 0) = t0 :: rest →
  t0 ≠ EXIT →
  PIPE ∈ (until_amp rest).1 →
  "|"%char ∉ t0 →
  line_stages w = Some [t0].
Proof.
  intros Hsplit Hexit Hpipe Hbar. unfold line_stages.
  destruct (read_tokens_full w) as (tok & w1 & Hrun & Hargv & _ & Hfirst).
  rewrite Hrun. unfold line_tokens in Hargv. rewrite Hsplit in Hargv.
  cbn [fst] in Hargv.
  (* the shape *)
  unfold classify. rewrite exit_check_head, has_token_spec, Hargv. cbn [head].
  rewrite bool_decide_eq_false_2 by (by intros [= ?]).
  change (cstr_of (list_ascii_of_string "|")) with PIPE.
  rewrite bool_decide_eq_true_2 by (by apply elem_of_cons; right).
  (* the buffer *)
  destruct (Hfirst t0 rest Hsplit) as (Hne & Hword & ds & Hds & Hc).
  destruct (cstr_of_split (buf w1)) as (tail & Hb & Ht).
  pose proof (cstr_of_no_nul (buf w1)) as Hn.
  unfold cstr in Hc. rewrite drop_0 in Hc. rewrite Hc in Hb, Hn.
  (* the split on the pipe character *)
  unfold split_commands.
  erewrite bind_ok.
  2:{ apply (strtok_last (Some 0) delim_pipe [] [] (ds ++ t0) tail w1);
        [by rewrite in_delim_pipe|by left|done|done| | |done..].
      - destruct ds, t0; done.
      - apply Forall_app. split.
        + eapply Forall_impl; [exact Hds|]. intros c Hcs%in_delim_space.
          rewrite in_delim_pipe. by subst c.
        + apply Forall_forall. intros c Hct. rewrite in_delim_pipe.
          by intros ->. }
  cbn [length Nat.add].
  erewrite bind_ok.
  2:{ change MAXTOKENS with (S 15) at 1. rewrite split_loop_some.
      erewrite bind_ok by (apply store_ok; cbn; unfold MAXTOKENS; lia).
      erewrite bind_ok by (by apply strtok_custom_finished).
      apply split_loop_none. }
  erewrite bind_ok by (apply store_ok; cbn; unfold MAXTOKENS; lia).
  cbn [mret M_ret]. unfold argv_of. cbn [buf set_last fmap list_fmap app].
  rewrite drop_0, Hb, <-app_assoc, span_spaces_app by done.
  rewrite Nat.add_0_l, cstr_at; [done| |done].
  by apply not_elem_of_app in Hn as [_ ?].
Qed.

(** * Concrete runs *)

(** C1: at the line [cmd1 | cmd2 | cmd3] the code does not yield three
    stages.  The first tokenization has cut the buffer behind [cmd1], so the
    second one, on the pipe character, sees [cmd1] alone: the line is run as
    a pipeline of the single stage [cmd1], where the specification's split
    has three command strings. *)
Theorem C1_three_commands_yield_one_stage :
  let w := boot "cmd1 | cmd2 | cmd3" in
  spec_stages (buf w) = list_ascii_of_string <$> ["cmd1 "; "cmd2 "; "cmd3"]%string ∧
  line_stages w = Some [list_ascii_of_string "cmd1"] ∧
  c_argv <$> forked (log (final (process_one_cmd kernel_ok w)))
    = [[list_ascii_of_string "cmd1"]].
Proof. vm_compute. done. Qed.

(** C2: for three commands, with every call succeeding, the executor
    creates three pipes, not two; it forks three children and waits three
    times, and the read end of the third pipe is still open in the shell
    when it returns.  The same holds when the three commands come from a
    line. *)
Theorem C2_three_commands_three_pipes :
  let r := execute_piped_commands kernel_ok [0; 5; 10] 3 three_commands in
  let l := log (final (process_one_cmd kernel_ok (boot three_stage_line))) in
  (∃ w', r = Ok 0%Z w') ∧
  count is_pipe (log (final r)) = 3 ∧
  count is_fork (log (final r)) = 3 ∧
  count is_wait (log (final r)) = 3 ∧
  ofile (final r) !! 3 = Some (PipeRead 2) ∧
  line_stages (boot three_stage_line)
    = Some (list_ascii_of_string <$> ["cmd1"; "cmd2"; "cmd3"]%string) ∧
  count is_pipe l = 3 ∧ count is_fork l = 3 ∧ count is_wait l = 3.
Proof. vm_compute. split; [by eexists|done]. Qed.

(** C3: in a pipeline of three commands, with every call succeeding, each
    child reaches [exec] with the shell's own standard input and output on
    the descriptors 0 and 1: [dup] hands out a new descriptor and does not
    replace one that is open (the second child has the read end of the
    first pipe on descriptor 6).  The last child also holds both ends of the
    pipe that was created for its stage.  The same holds when the three
    commands come from a line. *)
Theorem C3_children_keep_shell_stdio :
  let cs := forked (log (final (execute_piped_commands kernel_ok [0; 5; 10] 3
                                  three_commands))) in
  length cs = 3 ∧
  Forall (λ c, c_ofile c !! 0 = Some Console ∧ c_ofile c !! 1 = Some Console) cs ∧
  (c_ofile <$> cs !! 1) =
    Some (<[3 := PipeWrite 1]> (<[6 := PipeRead 0]> console)) ∧
  (c_ofile <$> cs !! 2) =
    Some (<[3 := PipeRead 2]> (<[5 := PipeWrite 2]> (<[6 := PipeRead 1]> console))) ∧
  c_ofile <$> forked (log (final (process_one_cmd kernel_ok (boot three_stage_line))))
    = c_ofile <$> cs.
Proof. vm_compute. split; [done|]. split; [by repeat constructor|done]. Qed.

(** C4 fails when the token array cannot be allocated: after the first of
    two lines [ls] the shell has printed [malloc failed] and called [exit];
    the second line is never read and no further prompt is printed. *)
Lemma C4_counterexample :
  let input := [typed "ls"; typed "ls"] in
  Forall (λ chunk, head (ws_split (line_of chunk)) ≠ Some EXIT) input ∧
  ∃ w', main kernel_nomem input (boot "") = Halt Exited w' ∧
        log w' = [EPrintf 1 SH_PROMPT []; ERead 3; EMalloc 2 false;
                  EPrintf 1 "malloc failed\n" []; EExit].
Proof.
  split; [by repeat constructor|]. vm_compute. by eexists.
Qed.

(** C4 (amended) for four lines, the last one empty, when no process can be
    created. *)
Lemma C4_witness :
  let input := [typed "ls"; typed "ls | wc"; typed "ls > f"; typed ""] in
  ∃ w',
    (main kernel_nofork input (boot "") = Halt Exited w' ∧
     count is_read (log w') = 0 + 4 ∧
     count is_prompt (log w') = 0 + 4 + 1) ∨
    main kernel_nofork input (boot "") = Halt (OutOfBounds "commands" MAXTOKENS) w'.
Proof.
  apply (C4_read_loop_survives_failures kernel_nofork
           [typed "ls"; typed "ls | wc"; typed "ls > f"; typed ""] (boot "")).
  - reflexivity.
  - repeat constructor; vm_compute; discriminate.
Defined.

(** C5 fails when the token array cannot be allocated: at the line [exit]
    with the children 7 and 9 outstanding the shell reports [malloc failed]
    and calls [exit] without a single [wait]; both children remain. *)
Lemma C5_counterexample :
  let w := boot_with "exit" [7; 9] in
  head (ws_split (cstr (buf w) 0)) = Some (list_ascii_of_string "exit") ∧
  ∃ w',
    process_one_cmd kernel_nomem w = Halt Exited w' ∧
    log w' = [EMalloc 2 false; EPrintf 1 "malloc failed\n" []; EExit] ∧
    count is_wait (log w') = 0 ∧
    children w' = [7; 9].
Proof. vm_compute. split; [done|]. by eexists. Qed.

(** C5 (amended) at the line [exit now] with the children 7 and 9
    outstanding. *)
Lemma C5_witness :
  ∃ pids w',
    process_one_cmd kernel_ok (boot_with "exit now" [7; 9]) = Halt Exited w' ∧
    pids ≡ₚ [7; 9] ∧
    log w' = [EMalloc 3 true] ++ (EWait ∘ Some <$> pids)
               ++ [EWait None; EFree; EExit] ∧
    children w' = [] ∧
    ofile w' = console.
Proof.
  apply (C5_exit_reaps_every_child kernel_ok (boot_with "exit now" [7; 9]));
    vm_compute; reflexivity.
Defined.

(** C6 fails at the line [&], whose only token is the marker: the flag is
    not set and the marker stays in the vector; and at [a & b &], where the
    vector ends at the first marker. *)
Lemma C6_counterexample :
  let w := boot "&" in
  let w' := boot "a & b &" in
  (list.last (ws_split (cstr (buf w) 0)) = Some AMP ∧
   ∃ tok w1,
     read_tokens (count_tokens (buf w)) w = Ok (tok, false) w1 ∧
     argv_of w1 tok = [AMP]) ∧
  (ws_split (cstr (buf w') 0)
     = list_ascii_of_string <$> ["a"; "&"; "b"; "&"]%string ∧
   ∃ tok w1,
     read_tokens (count_tokens (buf w')) w' = Ok (tok, true) w1 ∧
     argv_of w1 tok = [list_ascii_of_string "a"]).
Proof. vm_compute. by repeat (split || eexists). Qed.

(** C6 (amended) at the line [echo hi &]. *)
Lemma C6_witness :
  let w := boot "echo hi &" in
  ∃ tok w1,
    read_tokens (count_tokens (buf w)) w = Ok (tok, true) w1 ∧
    argv_of w1 tok = [list_ascii_of_string "echo"; list_ascii_of_string "hi"] ∧
    same_os w w1 ∧
    (list_ascii_of_string "echo" ≠ EXIT →
     PIPE ∉ [list_ascii_of_string "echo"; list_ascii_of_string "hi"] →
     GT ∉ [list_ascii_of_string "echo"; list_ascii_of_string "hi"] →
     classify (buf w1) tok = Plain) ∧
    ∀ pid, k_fork kernel_ok w1 = Some pid →
      process_normal kernel_ok tok true w1 =
        Ok 0%Z
           (emit (EPrintf 1 "[pid %d] runs as a background process\n"
                    [PInt (Z.of_nat pid)])
              (emit (EFork (Some (pid, Child (ofile w)
                                        (Some (list_ascii_of_string "echo"))
                                        [list_ascii_of_string "echo";
                                         list_ascii_of_string "hi"])))
                 (set_children (children w ++ [pid]) w1))).
Proof.
  apply (C6_trailing_marker_runs_in_background kernel_ok (boot "echo hi &")
           (list_ascii_of_string "echo") [list_ascii_of_string "hi"]).
  - vm_compute. reflexivity.
  - apply not_elem_of_cons. split; [by vm_compute|apply not_elem_of_nil].
Defined.

(** C7 for [ls > out.txt] when no file can be opened. *)
Lemma C7_witness :
  execute_redirection kernel_noopen [0; 3; 5] false ls_to_file =
    Ok (-1)%Z
       (emit (EPrintf 2 "Cannot open file %s\n"
                [PStr (Some (list_ascii_of_string "out.txt"))])
          (emit (EOpen (list_ascii_of_string "out.txt") [O_CREATE; O_WRONLY] None)
             ls_to_file)).
Proof.
  destruct (C7_failed_open_forks_nothing kernel_noopen [0; 3; 5] false ls_to_file)
    as [_ Hrefused].
  apply (Hrefused [list_ascii_of_string "ls"] (list_ascii_of_string "out.txt") []).
  - vm_compute. reflexivity.
  - apply not_elem_of_cons. split; [by vm_compute|apply not_elem_of_nil].
  - unfold MAXTOKENS. simpl. lia.
  - left. reflexivity.
Defined.

(** C8 fails at the line [ls > out.txt]: the one [open] of the run passes
    create-if-missing and write-only, and no truncation flag. *)
Lemma C8_counterexample :
  filter (λ e, is_open e = true)
         (log (final (process_one_cmd kernel_ok (boot "ls > out.txt"))))
    = [EOpen (list_ascii_of_string "out.txt") [O_CREATE; O_WRONLY] (Some 3)] ∧
  O_TRUNC ∉ [O_CREATE; O_WRONLY].
Proof.
  split; [by vm_compute|].
  intros H. by repeat (apply elem_of_cons in H as [H|H]; [done|]);
    apply elem_of_nil in H.
Qed.

(** C8 (amended) at the line [ls > out.txt] when every call succeeds: the
    target is opened on descriptor 3 and the child that is forked executes
    [ls]. *)
Lemma C8_witness :
  let w := boot "ls > out.txt" in
  (∃ r w' evs,
     process_one_cmd kernel_ok w = Ok 0%Z w' ∧
     log w' = log w ++ EMalloc (count_tokens (buf w) + 1) true
                    :: EOpen (list_ascii_of_string "out.txt") [O_CREATE; O_WRONLY] r
                    :: evs ∧
     Forall (λ c, c_argv c = [list_ascii_of_string "ls"]) (forked evs) ∧
     Forall (λ e, is_open e = false) evs ∧
     match r with
     | None =>
         evs = [EPrintf 2 "Cannot open file %s\n"
                  [PStr (Some (list_ascii_of_string "out.txt"))]; EFree]
     | Some fd =>
         ∃ fr rest,
           evs = EFork fr :: rest ∧
           match fr with
           | None => rest = [EPrintf 2 "Fork failed\n" []; EFree]
           | Some (_, c) =>
               c_argv c = [list_ascii_of_string "ls"] ∧
               c_path c = head [list_ascii_of_string "ls"] ∧
               ∃ ev, rest = [EClose fd; ev; EFree]
           end
     end) ∧
  c_argv <$> forked (log (final (process_one_cmd kernel_ok w)))
    = [[list_ascii_of_string "ls"]].
Proof.
  split; [|by vm_compute].
  apply (C8_target_opened_create_wronly kernel_ok (boot "ls > out.txt")
           [list_ascii_of_string "ls"] (list_ascii_of_string "out.txt") []).
  - vm_compute. reflexivity.
  - apply not_elem_of_cons. split; [by vm_compute|apply not_elem_of_nil].
  - repeat (apply not_elem_of_cons; split; [by vm_compute|]). apply not_elem_of_nil.
  - by vm_compute.
  - unfold MAXTOKENS. simpl. lia.
  - reflexivity.
Defined.



(** C10: at a line whose first token holds 16 command strings, the store of
    the sentinel behind the split loop is at index 16 of the 16-slot array
    [commands]. *)
Theorem C10_sentinel_store_past_commands :
  ∃ w', process_one_cmd kernel_ok (boot sixteen_stages)
          = Halt (OutOfBounds "commands" 16) w'.
Proof. vm_compute. by eexists. Qed.

(** * Further properties: the tokenizer on an arbitrary buffer *)

Lemma in_delim_false_iff (d : list ascii) (c : ascii) :
  in_delim d c = false ↔ c ∉ cstr_of d.
Proof. unfold in_delim. by rewrite bool_decide_eq_false. Qed.

Lemma span_delims_stop (d l : list ascii) (c : ascii) :
  l !! span_delims d l = Some c → in_delim d c = false.
Proof.
  induction l as [|a l IH]; [done|]. cbn.
  destruct (in_delim d a) eqn:Ha; cbn; [done|]. by intros [= <-].
Qed.

Lemma span_token_take (d l : list ascii) :
  Forall (λ c, c ≠ NUL ∧ c ∉ cstr_of d) (take (span_token d l) l).
Proof.
  induction l as [|a l IH]; [done|]. cbn.
  destruct (in_delim d a) eqn:Ha; cbn; [done|].
  case_bool_decide; cbn; [done|].
  constructor; [|done]. split; [done|by apply in_delim_false_iff].
Qed.

Lemma span_token_head (d : list ascii) (a : ascii) (l : list ascii) :
  in_delim d a = false → a ≠ NUL → span_token d (a :: l) = S (span_token d l).
Proof. intros Ha Hn. cbn. by rewrite Ha, bool_decide_eq_false_2. Qed.

Lemma length_take_span_token (d l : list ascii) :
  length (take (span_token d l) l) = span_token d l.
Proof.
  induction l as [|a l IH]; [done|]. cbn.
  destruct (in_delim d a || bool_decide (a = NUL)); cbn; [done|]. by rewrite IH.
Qed.

(** The C string in front of a terminator, or of the end of the buffer. *)
Lemma cstr_of_take (l : list ascii) (m : nat) :
  Forall (λ c, c ≠ NUL) (take m l) → char_at l m = NUL → cstr_of l = take m l.
Proof.
  revert m. induction l as [|a l IH]; intros m Hm Hc; [by destruct m|].
  destruct m as [|m].
  - unfold char_at in Hc. cbn in Hc. subst a. cbn. by rewrite decide_True.
  - cbn in Hm. inversion Hm; subst. rewrite cstr_of_cons, decide_False by done.
    cbn. f_equal. by apply IH.
Qed.

Lemma cstr_of_insert_nul (l : list ascii) (m : nat) :
  Forall (λ c, c ≠ NUL) (take m l) → cstr_of (<[m := NUL]> l) = take m l.
Proof.
  intros Hm. destruct (decide (m < length l)) as [Hlt|Hge].
  - rewrite (cstr_of_take _ m).
    + by rewrite take_insert_ge by lia.
    + by rewrite take_insert_ge by lia.
    + unfold char_at. by rewrite list_lookup_insert_eq.
  - rewrite list_insert_ge by lia. rewrite (cstr_of_take _ m); [done..|].
    unfold char_at. by rewrite lookup_ge_None_2 by lia.
Qed.

Lemma char_at_drop (b : list ascii) (p i : nat) :
  char_at (drop p b) i = char_at b (p + i).
Proof. unfold char_at. by rewrite lookup_drop. Qed.

(** The token that starts at [q], where the first loop has stopped on a
    character that is no terminator. *)
Lemma token_at (d b : list ascii) (p : nat) :
  let q := p + span_delims d (drop p b) in
  let m := span_token d (drop q b) in
  char_at b q ≠ NUL →
  0 < m ∧ Forall (λ c, c ≠ NUL ∧ c ∉ cstr_of d) (take m (drop q b)) ∧
  length (take m (drop q b)) = m.
Proof.
  intros q m Hq. split; [|split; [apply span_token_take|apply length_take_span_token]].
  subst m. unfold char_at in Hq.
  destruct (b !! q) as [c|] eqn:Hc; [|done]. cbn in Hq.
  pose proof Hc as Hc'. unfold q in Hc'. rewrite <-lookup_drop in Hc'.
  apply span_delims_stop in Hc'.
  rewrite (drop_S _ _ _ Hc), span_token_head by done. lia.
Qed.

(** X1.  One call of [strtok_custom], on any buffer and for any delimiter
    string: the call returns, and changes nothing of the shell but the
    buffer and the cursor [last].  When it returns [NULL] the buffer is as
    it was, the cursor is [NULL], and every later call that passes [NULL]
    returns [NULL] again and changes nothing.  When it returns a token, the
    token is a non-empty C string without any delimiter character, it is the
    stretch of the old buffer that starts at the returned pointer, the buffer
    differs from the old one at most in the one place behind the token, and
    the cursor is [NULL] or points just behind that place. *)
Theorem strtok_custom_token (s : option nat) (d : list ascii) (w : world) :
  ∃ r w',
    strtok_custom s d w = Ok r w' ∧ same_os w w' ∧
    length (buf w') = length (buf w) ∧
    match r with
    | None =>
        buf w' = buf w ∧ last w' = None ∧
        ∀ d', strtok_custom None d' w' = Ok None w'
    | Some q =>
        let t := cstr (buf w') q in
        t ≠ [] ∧ Forall (λ c, c ∉ cstr_of d) t ∧
        t = take (length t) (drop q (buf w)) ∧
        (∀ i, i ≠ q + length t → buf w' !! i = buf w !! i) ∧
        (last w' = None ∨ last w' = Some (S (q + length t)))
    end.
Proof.
  unfold strtok_custom.
  destruct (match s with Some p => Some p | None => last w end) as [p|] eqn:Hs.
  2:{ exists None, w. destruct s; [done|]. repeat split; try done.
      intros d'. by rewrite Hs. }
  set (q := p + span_delims d (drop p (buf w))).
  destruct (decide (char_at (buf w) q = NUL)) as [Hq|Hq].
  { exists None, (set_last None w). by repeat split. }
  destruct (token_at d (buf w) p Hq) as (Hpos & Htok & Hlen).
  fold q in Hpos, Htok, Hlen.
  set (m := span_token d (drop q (buf w))) in *.
  assert (Hnn : Forall (λ c, c ≠ NUL) (take m (drop q (buf w)))).
  { eapply Forall_impl; [exact Htok|]. by intros c [? _]. }
  assert (Hnd : Forall (λ c, c ∉ cstr_of d) (take m (drop q (buf w)))).
  { eapply Forall_impl; [exact Htok|]. by intros c [_ ?]. }
  assert (Hne : take m (drop q (buf w)) ≠ []).
  { intros H0. rewrite H0 in Hlen. simpl in Hlen. lia. }
  destruct (decide (char_at (buf w) (q + m) = NUL)) as [He|He].
  - exists (Some q), (set_last None w). split; [done|]. split; [done|].
    split; [done|]. cbn [buf set_last].
    assert (Ht : cstr (buf w) q = take m (drop q (buf w))).
    { unfold cstr. apply cstr_of_take; [done|]. by rewrite char_at_drop. }
    cbn zeta. rewrite Ht, Hlen. by repeat split; auto.
  - exists (Some q), (set_last (Some (S (q + m))) (set_buf (<[q + m := NUL]> (buf w)) w)).
    split; [done|]. split; [done|]. cbn [buf set_last set_buf].
    split; [by rewrite length_insert|].
    assert (Ht : cstr (<[q + m := NUL]> (buf w)) q = take m (drop q (buf w))).
    { unfold cstr. rewrite drop_insert_ge by lia.
      replace (q + m - q) with m by lia. by apply cstr_of_insert_nul. }
    cbn zeta. rewrite Ht, Hlen. repeat split; auto.
    intros i Hi. by rewrite list_lookup_insert_ne.
Qed.

(** * Further properties: the argument vector of a pipeline stage *)

(** The buffer around the C string at [p]. *)
Lemma buffer_at (b : list ascii) (p : nat) :
  p ≤ length b →
  ∃ pre tail, b = pre ++ cstr b p ++ tail ∧ length pre = p ∧ ends tail.
Proof.
  intros Hp. destruct (cstr_of_split (drop p b)) as (tail & Hd & Ht).
  exists (take p b), tail. split; [|split; [by rewrite length_take; lia|done]].
  unfold cstr. by rewrite <-Hd, take_drop.
Qed.

Lemma cstr_past_end (b : list ascii) (p : nat) : length b ≤ p → cstr b p = [].
Proof. intros Hp. unfold cstr. by rewrite drop_ge. Qed.

Lemma strtok_past_end (d : list ascii) (p : nat) (w : world) :
  length (buf w) ≤ p → strtok_custom (Some p) d w = Ok None (set_last None w).
Proof.
  intros Hp. unfold strtok_custom. rewrite drop_ge by done. cbn [span_delims].
  rewrite decide_True; [done|]. unfold char_at. by rewrite lookup_ge_None_2 by lia.
Qed.

Lemma collect_args_none (n : nat) (args : list nat) (w : world) :
  collect_args n None args w = Ok args w.
Proof. by destruct n. Qed.

Lemma collect_args_some (n t : nat) (args : list nat) (w : world) :
  collect_args (S n) (Some t) args w =
    (store "args" MAXTOKENS (length args) ≫= λ _,
     strtok_custom None delim_space ≫= λ tok',
     collect_args n tok' (args ++ [t])) w.
Proof. done. Qed.

(** The loop of lines 130-133 on what is left of a command string. *)
Lemma collect_args_spec (m : nat) :
  ∀ (s pre tail : list ascii) (w : world) (st : option nat) (n : nat)
    (args : list nat),
    length s ≤ m →
    buf w = pre ++ s ++ tail → NUL ∉ s → ends tail →
    starts_at st w (length pre) → length args + n ≤ MAXTOKENS - 1 →
    ∃ new w',
      (strtok_custom st delim_space ≫= λ tok, collect_args n tok args) w
        = Ok (args ++ new) w' ∧
      argv_of w' new = take n (ws_split s) ∧
      (∃ s', buf w' = pre ++ s' ++ tail ∧ length s' = length s) ∧ same_os w w'.
Proof.
  pose proof delim_space_nul as Hd. unfold ws_split.
  induction m as [|m IH]; intros s pre tail w st n args Hlen Hb Hn Ht Hs Hroom.
  all: destruct (word_cases delim_space s)
         as (ds & Hds & [->|(t & Hne & Htok & [->|(c & r & -> & Hc)])]).
  all: try (destruct t; [done|]; rewrite !length_app in Hlen; simpl in Hlen; lia).
  (* only delimiters are left *)
  1,2: erewrite bind_ok by (eapply strtok_none; eauto);
       rewrite collect_args_none, words_only_delims, take_nil by done;
       exists [], (set_last None w); rewrite app_nil_r;
       by repeat split; [exists ds|..].
  (* a last token *)
  - rewrite <-app_assoc in Hb.
    assert (NUL ∉ t) by (by apply not_elem_of_app in Hn as [_ ?]).
    erewrite bind_ok by (eapply strtok_last; eauto).
    rewrite words_token by done.
    destruct n as [|n].
    + exists [], (set_last None w). rewrite app_nil_r.
      by repeat split; [exists (ds ++ t); rewrite <-app_assoc|..].
    + rewrite collect_args_some.
      erewrite bind_ok by (apply store_ok; unfold MAXTOKENS in *; lia).
      erewrite bind_ok by (by apply strtok_custom_finished).
      rewrite collect_args_none.
      exists [length pre + length ds], (set_last None w).
      split; [done|].
      split; [|by split; [exists (ds ++ t); rewrite <-app_assoc|]].
      unfold argv_of. cbn [fmap list_fmap take buf set_last]. rewrite take_nil.
      by rewrite Hb, (app_assoc pre), <-length_app, cstr_at.
  (* a token and more behind it *)
  - rewrite <-!app_assoc, <-app_comm_cons in Hb.
    apply not_elem_of_app in Hn as [_ Hn].
    apply not_elem_of_app in Hn as [Hnt Hn].
    apply not_elem_of_cons in Hn as [_ Hnr].
    erewrite bind_ok by (eapply strtok_sep; eauto).
    rewrite words_token_sep by done.
    destruct n as [|n].
    + eexists [], _. rewrite app_nil_r.
      split; [done|]. split; [done|]. split; [|done].
      exists (ds ++ t ++ NUL :: r). cbn [buf set_last set_buf].
      by rewrite <-!app_assoc, !length_app.
    + rewrite collect_args_some.
      erewrite bind_ok by (apply store_ok; unfold MAXTOKENS in *; lia).
      set (w1 := set_last _ _).
      destruct (IH r (pre ++ ds ++ t ++ [NUL]) tail w1 None n
                  (args ++ [length pre + length ds]))
        as (new & w' & Hrun & Hargv & (r' & Hx & Hr') & Hos).
      { rewrite !length_app in Hlen. simpl in Hlen. lia. }
      { subst w1. cbn. by rewrite <-!app_assoc. }
      { done. }
      { done. }
      { right. split; [done|]. subst w1. cbn. rewrite !length_app. simpl.
        f_equal. lia. }
      { rewrite length_app. simpl. unfold MAXTOKENS in *. lia. }
      rewrite Hrun. exists ((length pre + length ds) :: new), w'.
      rewrite <-app_assoc. split; [done|]. split; [|split].
      * unfold argv_of in *. rewrite fmap_cons, Hargv. cbn [take]. f_equal.
        rewrite Hx, <-!app_assoc, (app_assoc pre), <-length_app.
        apply cstr_at; [done|]. right. eauto.
      * exists (ds ++ t ++ [NUL] ++ r'). rewrite Hx, <-!app_assoc.
        split; [done|]. rewrite !length_app. simpl. lia.
      * eapply same_os_trans; [|done]. done.
Qed.

(** X2.  The argument vector [execute_piped_commands] builds for a stage
    (lines 125-134): for a command string at any place of the buffer, the
    vector holds the first 15 whitespace-separated words of the string, in
    order; further words are dropped, and no store into [args], the
    sentinel's included, is out of bounds. *)
Theorem stage_args_words (p : nat) (w : world) :
  ∃ args w',
    stage_args (Some p) w = Ok args w' ∧
    argv_of w' args = take (MAXTOKENS - 1) (ws_split (cstr (buf w) p)) ∧
    same_os w w'.
Proof.
  unfold stage_args.
  destruct (decide (p ≤ length (buf w))) as [Hp|Hp].
  - destruct (buffer_at (buf w) p Hp) as (pre & tail & Hb & Hpre & Ht).
    destruct (collect_args_spec (length (cstr (buf w) p)) (cstr (buf w) p)
                pre tail w (Some p) (MAXTOKENS - 1) [])
      as (new & w' & Hrun & Hargv & _ & Hos);
      [done|done|apply cstr_of_no_nul|done|by left; rewrite Hpre|simpl; lia|].
    destruct (strtok_custom_same_os (Some p) delim_space w) as (tok & w1 & Hrun1 & _).
    erewrite bind_ok in Hrun by exact Hrun1.
    erewrite bind_ok by exact Hrun1.
    erewrite bind_ok by exact Hrun.
    assert (length new ≤ MAXTOKENS - 1) as Hlen.
    { rewrite <-(length_fmap (cstr (buf w'))). fold (argv_of w' new).
      rewrite Hargv, length_take. lia. }
    erewrite bind_ok by (apply store_ok; unfold MAXTOKENS in *; simpl in *; lia).
    by exists new, w'.
  - erewrite bind_ok by (apply strtok_past_end; lia).
    erewrite bind_ok by apply collect_args_none.
    erewrite bind_ok by (apply store_ok; unfold MAXTOKENS; simpl; lia).
    exists [], (set_last None w). rewrite cstr_past_end by lia. by repeat split.
Qed.

(** * Further properties: the command strings of a pipeline *)

Lemma delim_pipe_nul : NUL ∉ delim_pipe.
Proof. by rewrite in_delim_pipe. Qed.

Lemma span_spaces_le (t : list ascii) : span_spaces t ≤ length t.
Proof.
  induction t as [|c t IH]; [done|]. cbn. case_decide; simpl; lia.
Qed.

(** The loop of lines 110 and 287 stops at the end of the token: what is
    behind the token is a terminator or the end of the buffer. *)
Lemma span_spaces_token (t tail : list ascii) :
  ends tail → span_spaces (t ++ tail) = span_spaces t.
Proof.
  intros Ht. induction t as [|c t IH].
  - by destruct Ht as [->|[r ->]].
  - cbn. case_decide; [by rewrite IH|done].
Qed.

Lemma cstr_at_inner (pre t tail : list ascii) (j : nat) :
  NUL ∉ t → ends tail → j ≤ length t →
  cstr (pre ++ t ++ tail) (length pre + j) = drop j t.
Proof.
  intros Hn Ht Hj. rewrite <-(take_drop j t) at 1.
  rewrite <-app_assoc, (app_assoc pre).
  replace (length pre + j) with (length (pre ++ take j t))
    by (rewrite length_app, length_take; lia).
  apply cstr_at; [|done]. intros Hin. apply Hn. by eapply subseteq_drop.
Qed.

(** The loop of lines 285-290 on what is left of the line. *)
Lemma split_loop_spec (m : nat) :
  ∀ (s pre tail : list ascii) (w : world) (st : option nat) (n : nat)
    (commands : list nat),
    length s ≤ m →
    buf w = pre ++ s ++ tail → NUL ∉ s → ends tail →
    starts_at st w (length pre) → length commands + n ≤ MAXTOKENS →
    ∃ new w',
      (strtok_custom st delim_pipe ≫= λ cmd, split_loop n cmd commands) w
        = Ok (commands ++ new) w' ∧
      argv_of w' new
        = (λ s, drop (span_spaces s) s) <$> take n (words delim_pipe s) ∧
      (∃ x, buf w' = pre ++ x) ∧ same_os w w'.
Proof.
  pose proof delim_pipe_nul as Hd.
  induction m as [|m IH]; intros s pre tail w st n commands Hlen Hb Hn Ht Hs Hroom.
  all: destruct (word_cases delim_pipe s)
         as (ds & Hds & [->|(t & Hne & Htok & [->|(c & r & -> & Hc)])]).
  all: try (destruct t; [done|]; rewrite !length_app in Hlen; simpl in Hlen; lia).
  (* only delimiters are left *)
  1,2: erewrite bind_ok by (eapply strtok_none; eauto);
       rewrite split_loop_none, words_only_delims, take_nil by done;
       exists [], (set_last None w); rewrite app_nil_r;
       by repeat split; [exists (ds ++ tail)|..].
  (* a last command string *)
  - rewrite <-app_assoc in Hb.
    assert (NUL ∉ t) by (by apply not_elem_of_app in Hn as [_ ?]).
    erewrite bind_ok by (eapply strtok_last; eauto).
    rewrite words_token by done.
    destruct n as [|n].
    + exists [], (set_last None w). rewrite app_nil_r.
      by repeat split; [exists (ds ++ t ++ tail)|..].
    + rewrite split_loop_some.
      erewrite bind_ok by (apply store_ok; unfold MAXTOKENS in *; lia).
      erewrite bind_ok by (by apply strtok_custom_finished).
      rewrite split_loop_none. cbn [buf set_last].
      eexists [_], (set_last None w).
      split; [done|]. split; [|by split; [exists (ds ++ t ++ tail)|]].
      unfold argv_of. cbn [fmap list_fmap take buf set_last]. rewrite take_nil.
      cbn [list_fmap]. f_equal.
      rewrite Hb, (app_assoc pre), <-length_app, drop_app_length.
      rewrite span_spaces_token by done.
      apply cstr_at_inner; [done..|apply span_spaces_le].
  (* a command string and more behind it *)
  - rewrite <-!app_assoc, <-app_comm_cons in Hb.
    apply not_elem_of_app in Hn as [_ Hn].
    apply not_elem_of_app in Hn as [Hnt Hn].
    apply not_elem_of_cons in Hn as [_ Hnr].
    erewrite bind_ok by (eapply strtok_sep; eauto).
    rewrite words_token_sep by done.
    destruct n as [|n].
    + eexists [], _. rewrite app_nil_r.
      split; [done|]. split; [done|]. split; [|done].
      by eexists.
    + rewrite split_loop_some.
      erewrite bind_ok by (apply store_ok; unfold MAXTOKENS in *; lia).
      set (w1 := set_last _ _).
      assert (Hj : length pre + length ds + span_spaces (drop (length pre + length ds) (buf w1))
                   = length (pre ++ ds) + span_spaces t).
      { subst w1. cbn [buf set_last set_buf].
        rewrite (app_assoc pre), <-length_app, drop_app_length.
        f_equal. apply span_spaces_token. right. eauto. }
      rewrite Hj.
      destruct (IH r (pre ++ ds ++ t ++ [NUL]) tail w1 None n
                  (commands ++ [length (pre ++ ds) + span_spaces t]))
        as (new & w' & Hrun & Hargv & [x Hx] & Hos).
      { rewrite !length_app in Hlen. simpl in Hlen. lia. }
      { subst w1. cbn. by rewrite <-!app_assoc. }
      { done. }
      { done. }
      { right. split; [done|]. subst w1. cbn. rewrite !length_app. simpl.
        f_equal. lia. }
      { rewrite length_app. simpl. unfold MAXTOKENS in *. lia. }
      rewrite Hrun. exists ((length (pre ++ ds) + span_spaces t) :: new), w'.
      rewrite <-app_assoc. split; [done|]. split; [|split].
      * unfold argv_of in *. rewrite fmap_cons, Hargv. cbn [take fmap list_fmap].
        f_equal.
        rewrite Hx, <-!app_assoc, (app_assoc pre).
        apply cstr_at_inner; [done|right; eauto|apply span_spaces_le].
      * exists (ds ++ t ++ [NUL] ++ x). by rewrite Hx, <-!app_assoc.
      * eapply same_os_trans; [|done]. done.
Qed.

(** The function on a string of fewer than 16 pieces, and on one of 16 or
    more. *)
Lemma split_commands_cut (p : nat) (w : world) :
  ∃ new w',
    (strtok_custom (Some p) delim_pipe ≫= λ cmd, split_loop MAXTOKENS cmd []) w
      = Ok new w' ∧
    argv_of w' new
      = (λ s, drop (span_spaces s) s)
          <$> take MAXTOKENS (words delim_pipe (cstr (buf w) p)) ∧
    same_os w w'.
Proof.
  destruct (decide (p ≤ length (buf w))) as [Hp|Hp].
  - destruct (buffer_at (buf w) p Hp) as (pre & tail & Hb & Hpre & Ht).
    destruct (split_loop_spec (length (cstr (buf w) p)) (cstr (buf w) p)
                pre tail w (Some p) MAXTOKENS [])
      as (new & w' & Hrun & Hargv & _ & Hos);
      [done|done|apply cstr_of_no_nul|done|by left; rewrite Hpre|simpl; lia|].
    by exists new, w'.
  - erewrite bind_ok by (apply strtok_past_end; lia).
    rewrite split_loop_none, cstr_past_end by lia.
    by exists [], (set_last None w).
Qed.

Lemma split_commands_few (p : nat) (w : world) :
  length (words delim_pipe (cstr (buf w) p)) < MAXTOKENS →
  ∃ commands w',
    split_commands p w = Ok commands w' ∧
    argv_of w' commands = spec_stages (cstr (buf w) p) ∧ same_os w w'.
Proof.
  intros Hfew. unfold split_commands, spec_stages.
  destruct (split_commands_cut p w) as (new & w' & Hrun & Hargv & Hos).
  destruct (strtok_custom_same_os (Some p) delim_pipe w) as (cmd & w1 & Hrun1 & _).
  erewrite bind_ok in Hrun by exact Hrun1.
  erewrite bind_ok by exact Hrun1. erewrite bind_ok by exact Hrun.
  rewrite take_ge in Hargv by lia.
  assert (length new = length (words delim_pipe (cstr (buf w) p))) as Hlen.
  { rewrite <-(length_fmap (cstr (buf w'))). fold (argv_of w' new).
    by rewrite Hargv, length_fmap. }
  erewrite bind_ok by (apply store_ok; lia).
  by exists new, w'.
Qed.

Lemma split_commands_many (p : nat) (w : world) :
  MAXTOKENS ≤ length (words delim_pipe (cstr (buf w) p)) →
  ∃ w', split_commands p w = Halt (OutOfBounds "commands" MAXTOKENS) w' ∧
        same_os w w'.
Proof.
  intros Hmany. unfold split_commands.
  destruct (split_commands_cut p w) as (new & w' & Hrun & Hargv & Hos).
  destruct (strtok_custom_same_os (Some p) delim_pipe w) as (cmd & w1 & Hrun1 & _).
  erewrite bind_ok in Hrun by exact Hrun1.
  erewrite bind_ok by exact Hrun1. erewrite bind_ok by exact Hrun.
  assert (length new = MAXTOKENS) as Hlen.
  { rewrite <-(length_fmap (cstr (buf w'))). fold (argv_of w' new).
    rewrite Hargv, length_fmap, length_take. lia. }
  exists w'. split; [|done]. apply bind_halt. unfold store. rewrite Hlen.
  by rewrite decide_False by lia.
Qed.

(** X3.  [split_commands] (lines 105-116, and the same text at lines
    282-291) on a line that has not been cut yet.  When the C string at the
    pointer passed has fewer than 16 non-empty pieces between pipe
    characters, the function returns these pieces in order, each without
    its leading spaces.  With 16 pieces or more the loop fills all 16 slots
    and the store of the sentinel is at index 16, past the end of
    [commands]. *)
Theorem split_commands_pieces (p : nat) (w : world) :
  let s := cstr (buf w) p in
  if decide (length (words delim_pipe s) < MAXTOKENS) then
    ∃ commands w',
      split_commands p w = Ok commands w' ∧
      argv_of w' commands = spec_stages s ∧ same_os w w'
  else
    ∃ w', split_commands p w = Halt (OutOfBounds "commands" MAXTOKENS) w' ∧
          same_os w w'.
Proof.
  cbn zeta. case_decide.
  - by apply split_commands_few.
  - apply split_commands_many. lia.
Qed.

(** * Further properties: what a pipeline line is cut into *)

(** X4.  The command strings of a line that [process_one_cmd] runs as a
    pipeline (lines 251-291).  The tokenization on spaces has put a
    terminator behind the first token of the line, so the split on the pipe
    character only sees the line up to the end of that token: the command
    strings are the pieces of this prefix, and whatever follows the first
    blank behind the first token is run by no stage. *)
Theorem pipeline_stages_of_first_token (w : world) (t0 : list ascii)
    (rest : list (list ascii)) :
  let line := cstr (buf w) 0 in
  let prefix := take (span_spaces line + length t0) line in
  ws_split line = t0 :: rest →
  t0 ≠ EXIT →
  PIPE ∈ t0 :: (until_amp rest).1 →
  length (words delim_pipe prefix) < MAXTOKENS →
  line_stages w = Some (spec_stages prefix).
Proof.
  cbn zeta. intros Hsplit Hexit Hpipe Hfew. unfold line_stages.
  destruct (read_tokens_prefix w) as (tok & w1 & Hrun & Hargv & _ & Hfirst).
  rewrite Hrun. unfold line_tokens in Hargv. rewrite Hsplit in Hargv.
  cbn [fst] in Hargv.
  (* the shape *)
  unfold classify. rewrite exit_check_head, has_token_spec, Hargv. cbn [head].
  rewrite bool_decide_eq_false_2 by (by intros [= ?]).
  change (cstr_of (list_ascii_of_string "|")) with PIPE.
  rewrite bool_decide_eq_true_2 by done.
  (* the buffer *)
  destruct (Hfirst t0 rest Hsplit) as (Hne & Hword & ds & x & Hds & Hline & Hc).
  rewrite Hline in Hfew |- *.
  rewrite span_spaces_app in Hfew |- * by done.
  rewrite app_assoc, <-length_app, take_app_length in Hfew |- *.
  (* the split on the pipe character *)
  destruct (split_commands_few 0 w1) as (commands & w2 & -> & -> & _);
    [by rewrite Hc|]. by rewrite Hc.
Qed.

(** X4 at a line whose first token holds three command strings. *)
Lemma pipeline_stages_of_first_token_witness :
  let w := boot three_stage_line in
  let line := cstr (buf w) 0 in
  let prefix := take (span_spaces line + length (list_ascii_of_string "cmd1|cmd2|cmd3")) line in
  line_stages w = Some (spec_stages prefix) ∧
  spec_stages prefix = list_ascii_of_string <$> ["cmd1"; "cmd2"; "cmd3"]%string.
Proof.
  split; [|by vm_compute].
  apply (pipeline_stages_of_first_token (boot three_stage_line)
           (list_ascii_of_string "cmd1|cmd2|cmd3")
           [list_ascii_of_string "|"; list_ascii_of_string "x"]).
  - by vm_compute.
  - by vm_compute.
  - apply (bool_decide_unpack _). by vm_compute.
  - vm_compute. lia.
Defined.

(** * Further properties: the token vector of a line *)

Lemma length_until_amp (ts : list (list ascii)) :
  length (until_amp ts).1 ≤ length ts.
Proof.
  induction ts as [|t ts IH]; [done|]. cbn. case_decide; cbn; lia.
Qed.

Lemma length_line_tokens (line : list ascii) :
  length (line_tokens line).1 ≤ length (ws_split line).
Proof.
  unfold line_tokens. destruct (ws_split line) as [|t0 rest]; [done|].
  cbn. pose proof (length_until_amp rest). lia.
Qed.

(** X5.  The vector [process_one_cmd] fills in lines 251-262, for every
    content of the buffer: the tokenization returns, the array of
    [num_tok + 1] slots allocated in line 245 is large enough for every
    store, the sentinel's included, and the vector holds the
    whitespace-separated words of the line up to the first [&] behind the
    first word; the flag tells whether there is such a [&].  Descriptors,
    children and the log are untouched. *)
Theorem read_tokens_line (w : world) :
  let line := cstr (buf w) 0 in
  ∃ tok w',
    read_tokens (count_tokens (buf w)) w = Ok (tok, (line_tokens line).2) w' ∧
    argv_of w' tok = (line_tokens line).1 ∧
    length tok < count_tokens (buf w) + 1 ∧
    same_os w w'.
Proof.
  cbn zeta. destruct (read_tokens_spec w) as (tok & w' & Hrun & Hargv & Hos).
  exists tok, w'. split; [done|]. split; [done|]. split; [|done].
  rewrite <-(length_fmap (cstr (buf w'))). fold (argv_of w' tok). rewrite Hargv.
  pose proof (length_line_tokens (cstr (buf w) 0)).
  pose proof (ws_split_length (cstr (buf w) 0)).
  unfold count_tokens. lia.
Qed.

(** * Further properties: [wait] and the plain executor *)

Lemma wait_reaps (k : kernel) (w : world) :
  children w ≠ [] →
  ∃ i p,
    children w !! i = Some p ∧
    wait k w = Ok (Some p) (emit (EWait (Some p))
                              (set_children (delete i (children w)) w)).
Proof.
  intros Hne. unfold wait. destruct (children w) as [|c0 cs] eqn:Hcs; [done|].
  set (i := k_wait k w `mod` length (c0 :: cs)).
  assert (Hi : i < length (c0 :: cs)) by (apply Nat.mod_upper_bound; simpl; lia).
  destruct (lookup_lt_is_Some_2 _ _ Hi) as [p Hp].
  exists i, p. split; [done|]. by rewrite Hp.
Qed.

Lemma wait_none (k : kernel) (w : world) :
  children w = [] → wait k w = Ok None (emit (EWait None) w).
Proof. unfold wait. by intros ->. Qed.

(** X6.  [process_normal] (lines 81-102) in full.  It always returns and
    never touches the buffer or the shell's descriptors.  When [fork] fails
    it reports [Fork failed] and returns -1 without a child.  Otherwise it
    returns 0 and the child executes the vector it was given, on a copy of
    the shell's descriptors.  In the background the shell prints the pid and
    does not wait.  In the foreground it waits once, for whichever child
    ends first: the child reaped is one of those outstanding, the new one
    included, and it is the new one when no other child was outstanding. *)
Theorem process_normal_outcomes (k : kernel) (tok : list nat) (bg : bool)
    (w : world) :
  ∃ r w' evs,
    process_normal k tok bg w = Ok r w' ∧
    log w' = log w ++ evs ∧ ofile w' = ofile w ∧ buf w' = buf w ∧
    match k_fork k w with
    | None =>
        r = (-1)%Z ∧ children w' = children w ∧
        evs = [EFork None; EPrintf 2 "Fork failed\n" []]
    | Some pid =>
        r = 0%Z ∧
        ∃ ev,
          evs = [EFork (Some (pid, Child (ofile w) (path_of w tok) (argv_of w tok)));
                 ev] ∧
          if bg then
            ev = EPrintf 1 "[pid %d] runs as a background process\n"
                   [PInt (Z.of_nat pid)] ∧
            children w' = children w ++ [pid]
          else
            ∃ p, ev = EWait (Some p) ∧
                 children w ++ [pid] ≡ₚ p :: children w' ∧
                 (children w = [] → p = pid)
    end.
Proof.
  unfold process_normal. destruct (k_fork k w) as [pid|] eqn:Hf.
  - erewrite bind_ok by (by apply fork_run).
    set (w1 := emit _ _). destruct bg.
    + eexists _, _, _. split; [done|]. cbn. rewrite <-app_assoc.
      split; [done|]. split; [done|]. split; [done|]. split; [done|].
      by eexists.
    + destruct (wait_reaps k w1) as (i & p & Hp & Hw).
      { subst w1. cbn. by destruct (children w). }
      eexists _, _, _. split.
      { erewrite bind_ok; [|by erewrite bind_ok by exact Hw]. done. }
      cbn. rewrite <-app_assoc.
      split; [done|]. split; [done|]. split; [done|]. split; [done|].
      eexists. split; [done|]. exists p. split; [done|].
      subst w1. cbn in Hp. split; [by apply delete_Permutation|].
      intros Hnil. rewrite Hnil in Hp. destruct i; cbn in Hp; [by injection Hp|done].
  - erewrite bind_ok by (by apply fork_fail).
    eexists _, _, _. split; [done|]. cbn. rewrite <-app_assoc. done.
Qed.

(** * Further properties: the outcomes of the pipeline executor *)

Lemma forked_pids_app (l1 l2 : list event) :
  forked_pids (l1 ++ l2) = forked_pids l1 ++ forked_pids l2.
Proof. apply omap_app. Qed.

Lemma length_forked_pids (evs : list event) :
  length (forked_pids evs) = count is_fork evs.
Proof.
  induction evs as [|e evs IH]; [done|]. rewrite count_cons, <-IH.
  by destruct e as [| | | | |[[]|]| | | |].
Qed.

Lemma forked_pids_closes (cl : list event) :
  Forall (λ e, ∃ fd, e = EClose fd) cl → forked_pids cl = [].
Proof. induction 1 as [|e cl [fd ->] _ IH]; [done|]. by cbn. Qed.

Lemma count_closes (p : event → bool) (cl : list event) :
  (∀ fd, p (EClose fd) = false) →
  Forall (λ e, ∃ fd, e = EClose fd) cl → count p cl = 0.
Proof.
  intros Hp. induction 1 as [|e cl [fd ->] _ IH]; [done|].
  by rewrite count_cons, Hp, IH.
Qed.

(** Lines 169-171 when at least [n] children are outstanding: every [wait]
    reaps one. *)
Lemma wait_n_reaps (k : kernel) (n : nat) :
  ∀ w, n ≤ length (children w) →
    ∃ w' evs,
      wait_n k n w = Ok tt w' ∧ log w' = log w ++ evs ∧
      count is_wait evs = n ∧ count is_pipe evs = 0 ∧ count is_fork evs = 0 ∧
      length (children w') = length (children w) - n ∧
      Forall (λ e, ∃ p, e = EWait (Some p)) evs.
Proof.
  induction n as [|n IH]; intros w Hn; cbn [wait_n].
  - exists w, []. rewrite app_nil_r. repeat split; try done. lia.
  - destruct (wait_reaps k w) as (i & p & Hp & Hrun).
    { intros Hnil. rewrite Hnil in Hn. simpl in Hn. lia. }
    erewrite bind_ok by exact Hrun. set (w1 := emit _ _).
    assert (Hlen1 : length (children w1) = length (children w) - 1).
    { subst w1. cbn. rewrite length_delete by by eexists. lia. }
    destruct (IH w1) as (w' & evs & Hrun' & Hlog' & Hw & Hpi & Hf & Hlen & Hall);
      [lia|].
    exists w', (EWait (Some p) :: evs). split; [done|].
    split; [by rewrite Hlog'; subst w1; cbn; rewrite <-app_assoc|].
    rewrite !count_cons. cbn. repeat split; try lia.
    constructor; [by eexists|done].
Qed.

(** Lines 124-166, with what the loop leaves behind. *)
Lemma piped_stages_run (k : kernel) (commands : list nat) (num n : nat) :
  ∀ i inp w, ∃ ok w' evs,
    piped_stages k commands num n i inp w = Ok ok w' ∧
    log w' = log w ++ evs ∧
    count is_wait evs = 0 ∧
    children w' = children w ++ forked_pids evs ∧
    if ok : bool then count is_pipe evs = n ∧ count is_fork evs = n
    else count is_fork evs < n ∧
         ∃ l msg, evs = l ++ [EPrintf 2 msg []] ∧
                  (msg = "Pipe failed\n"%string ∨ msg = "Fork failed\n"%string).
Proof.
  induction n as [|n IH]; intros i inp w; cbn [piped_stages].
  { exists true, w, []. by rewrite !app_nil_r. }
  destruct (stage_args_same_os (commands !! i) w) as (args & w1 & Hrun1 & Hos).
  erewrite bind_ok by exact Hrun1. destruct Hos as (_ & Hch1 & _ & Hlog1).
  destruct (pipe_cases k w1) as [Hpipe|(fd0 & fd1 & _ & _ & Hpipe)];
    erewrite bind_ok by exact Hpipe; cbn beta iota.
  { eexists false, _, [_; _]. split; [done|].
    split; [by cbn [log emit]; rewrite Hlog1, <-app_assoc|].
    split; [done|].
    split; [by cbn [children emit forked_pids omap]; rewrite Hch1, app_nil_r|].
    split; [rewrite !count_cons, count_nil; cbn; lia|]. eexists [_], _. split; [done|by left]. }
  set (w2 := emit _ _). set (image := stage_child _ _ _ _ _).
  destruct (k_fork k w2) as [pid|] eqn:Hfork.
  - erewrite bind_ok by (by apply fork_run). cbn beta iota.
    set (w3 := emit _ _).
    assert (∃ w4 cl, (if decide (inp ≠ 0) then close inp else mret tt) w3 = Ok tt w4 ∧
                     log w4 = log w3 ++ cl ∧ children w4 = children w3 ∧
                     Forall (λ e, ∃ fd, e = EClose fd) cl)
      as (w4 & cl & Hrun4 & Hlog4 & Hch4 & Hcl).
    { case_decide; [eexists _, [_]|exists w3, []]; (split; [done|]).
      - split; [done|]. split; [done|]. repeat constructor. by eexists.
      - by rewrite app_nil_r. }
    erewrite bind_ok by exact Hrun4.
    unfold close at 1. rewrite bind_modify. cbn [snd fst].
    set (w5 := emit _ _).
    destruct (IH (S i) fd0 w5) as (ok & w' & evs & Hrun' & Hlog' & Hw & Hch' & Hok).
    exists ok, w', (EPipe (Some (fd0, fd1)) :: EFork (Some (pid, image w2))
                        :: cl ++ EClose fd1 :: evs).
    split; [done|].
    split.
    { rewrite Hlog'. subst w5. cbn [log emit set_ofile]. rewrite Hlog4.
      subst w3 w2. cbn [log emit set_ofile set_pipes set_children].
      rewrite Hlog1, <-!app_assoc. done. }
    split.
    { rewrite !count_cons, !count_app, !count_cons, (count_closes is_wait cl) by done.
      cbn. lia. }
    split.
    { rewrite Hch'. subst w5. cbn [children emit set_ofile]. rewrite Hch4.
      subst w3 w2. cbn [children emit set_ofile set_pipes set_children].
      rewrite Hch1, <-!app_assoc. f_equal.
      change (forked_pids (?a :: ?b :: ?l)) with (pid :: forked_pids l).
      rewrite forked_pids_app, (forked_pids_closes cl) by done. reflexivity. }
    destruct ok.
    + rewrite !count_cons, !count_app, !count_cons,
        ?(count_closes is_pipe cl), ?(count_closes is_fork cl) by done. cbn.
      destruct Hok. lia.
    + rewrite !count_cons, !count_app, !count_cons,
        ?(count_closes is_pipe cl), ?(count_closes is_fork cl) by done. cbn.
      destruct Hok as (Hlt & l & msg & -> & Hmsg). split; [lia|].
      eexists (_ :: _ :: cl ++ _ :: l), msg. split; [|done].
      cbn. by rewrite <-!app_assoc.
  - erewrite bind_ok by (by apply fork_fail). cbn beta iota.
    eexists false, _, [_; _; _]. split; [done|]. subst w2.
    split; [by cbn [log emit set_ofile set_pipes]; rewrite Hlog1, <-!app_assoc|].
    split; [done|].
    split; [by cbn [children emit set_ofile set_pipes forked_pids omap];
               rewrite Hch1, app_nil_r|].
    split; [rewrite !count_cons, count_nil; cbn; lia|]. eexists [_; _], _. split; [done|by right].
Qed.

(** X7.  [execute_piped_commands] (lines 119-174) in full, whatever the
    kernel answers.  The function always returns.  It returns 0 after it has
    created one pipe per command, the last command included, forked one
    child per command and waited once per command; as many children are
    outstanding afterwards as before.  Or it returns -1 right after the
    report of the first [pipe] or [fork] that failed: it has then waited for
    nothing, and the children it had forked up to there are all left
    outstanding. *)
Theorem execute_piped_commands_outcomes (k : kernel) (commands : list nat)
    (num : nat) (w : world) :
  ∃ r w' evs,
    execute_piped_commands k commands num w = Ok r w' ∧
    log w' = log w ++ evs ∧
    ((r = 0%Z ∧
      count is_pipe evs = num ∧ count is_fork evs = num ∧
      count is_wait evs = num ∧
      length (children w') = length (children w)) ∨
     (r = (-1)%Z ∧
      count is_wait evs = 0 ∧ count is_fork evs < num ∧
      children w' = children w ++ forked_pids evs ∧
      ∃ l msg, evs = l ++ [EPrintf 2 msg []] ∧
               (msg = "Pipe failed\n"%string ∨ msg = "Fork failed\n"%string))).
Proof.
  unfold execute_piped_commands.
  destruct (piped_stages_run k commands num num 0 0 w)
    as (ok & w1 & evs & Hrun1 & Hlog1 & Hw & Hch & Hok).
  erewrite bind_ok by exact Hrun1. destruct ok.
  - destruct Hok as [Hp Hf].
    destruct (wait_n_reaps k num w1)
      as (w2 & evs2 & Hrun2 & Hlog2 & Hw2 & Hp2 & Hf2 & Hlen & _).
    { rewrite Hch, length_app, length_forked_pids. lia. }
    erewrite bind_ok by exact Hrun2.
    eexists _, w2, (evs ++ evs2). split; [done|].
    rewrite Hlog2, Hlog1, <-app_assoc. split; [done|]. left.
    rewrite !count_app. repeat split; try lia.
    rewrite Hlen, Hch, length_app, length_forked_pids. lia.
  - eexists _, w1, evs. split; [done|]. split; [done|]. right.
    destruct Hok as [Hlt Hmsg]. by repeat split.
Qed.

(** * Further properties: the shell's descriptors *)

Lemma lowest_free_fresh : fresh_descriptors kernel_ok.
Proof.
  intros t n. change (k_fdalloc kernel_ok t) with (lowest_free t).
  unfold lowest_free.
  destruct (list_find (λ n, t !! n = None) (seq 0 NOFILE)) as [[i m]|] eqn:Hfind;
    [|done].
  intros [= <-]. apply list_find_Some in Hfind as (Hi & Hm & _).
  by apply lookup_seq in Hi as [-> _].
Qed.

Lemma wait_n_ofile (k : kernel) (n : nat) :
  ∀ w, ∃ w', wait_n k n w = Ok tt w' ∧ ofile w' = ofile w.
Proof.
  induction n as [|n IH]; intros w; cbn [wait_n]; [by exists w|].
  assert (∃ r w1, wait k w = Ok r w1 ∧ ofile w1 = ofile w) as (r & w1 & Hrun & Hof).
  { unfold wait. destruct (children w); by eexists _, _. }
  erewrite bind_ok by exact Hrun.
  destruct (IH w1) as (w' & Hrun' & Hof'). exists w'. split; [done|congruence].
Qed.

Lemma open_cases (k : kernel) (path : list ascii) (fl : list oflag) (w : world) :
  open k path fl w = Ok None (emit (EOpen path fl None) w) ∨
  ∃ fd,
    k_fdalloc k (ofile w) = Some fd ∧
    open k path fl w =
      Ok (Some fd) (emit (EOpen path fl (Some fd))
                      (set_ofile (<[fd := Opened path fl]> (ofile w)) w)).
Proof.
  unfold open. destruct (k_open k w path); [|by left].
  destruct (k_fdalloc k (ofile w)) as [fd|]; [|by left].
  right. by exists fd.
Qed.

(** Lines 184-193 never store out of bounds, and leave the scan with at
    most 15 arguments. *)
Lemma execute_redirection_scan (k : kernel) (tok : list nat) (bg : bool)
    (w : world) :
  ∃ ca out,
    scan_redirect (MAXTOKENS - 1) tok 0 [] w = Ok (ca, out) w ∧
    execute_redirection k tok bg w =
      match out with
      | Some o =>
          (open k (cstr (buf w) o) redirect_flags ≫= λ fd,
           match fd with
           | None =>
               printf 2 "Cannot open file %s\n" [PStr (Some (cstr (buf w) o))];;
               mret (-1)%Z
           | Some fd => redirect_run k ca (Some fd) bg
           end) w
      | None => redirect_run k ca None bg w
      end.
Proof.
  destruct (scan_redirect_ok (MAXTOKENS - 1) tok 0 [] w) as (ca & out & Hscan & Hlen);
    [lia|].
  exists ca, out. split; [done|]. unfold execute_redirection.
  erewrite bind_ok by exact Hscan. cbn beta iota.
  erewrite bind_ok by (apply store_ok; unfold MAXTOKENS in *; simpl in *; lia).
  destruct out; [|done]. by rewrite bind_get.
Qed.

Section Tables.
Context (k : kernel).
Hypothesis Hfresh : fresh_descriptors k.

Lemma piped_stages_table (T : gmap nat file) (commands : list nat) (num n : nat) :
  is_Some (T !! 0) →
  ∀ i inp w,
    pipeline_table T inp (ofile w) →
    ∃ ok w' inp',
      piped_stages k commands num n i inp w = Ok ok w' ∧
      (ok = true →
       pipeline_table T inp' (ofile w') ∧
       (0 < n → inp' ≠ 0) ∧ (n = 0 → inp' = inp)).
Proof.
  intros H0. induction n as [|n IH]; intros i inp w Ht; cbn [piped_stages].
  { exists true, w, inp. split; [done|]. intros _. split; [done|]. split; [lia|done]. }
  destruct (stage_args_same_os (commands !! i) w) as (args & w1 & Hrun1 & Hos).
  erewrite bind_ok by exact Hrun1. destruct Hos as (Hof1 & _ & _ & _).
  rewrite <-Hof1 in Ht.
  destruct (pipe_cases k w1) as [Hpipe|(fd0 & fd1 & Ha0%Hfresh & Ha1%Hfresh & Hpipe)];
    erewrite bind_ok by exact Hpipe; cbn beta iota.
  { by eexists false, _, 0. }
  set (w2 := emit _ _). set (image := stage_child _ _ _ _ _).
  destruct (k_fork k w2) as [pid|] eqn:Hfork.
  2:{ erewrite bind_ok by (by apply fork_fail). by eexists false, _, 0. }
  erewrite bind_ok by (by apply fork_run). cbn beta iota.
  set (w3 := emit _ _).
  assert (ofile w3 = <[fd1 := PipeWrite (pipes w1)]>
                       (<[fd0 := PipeRead (pipes w1)]> (ofile w1))) as Hof3 by done.
  assert (Hfd0 : fd0 ≠ 0).
  { intros ->. unfold pipeline_table in Ht. destruct H0 as [f H0].
    destruct (decide (inp = 0)) as [->|Hinp].
    - rewrite Ht in Ha0. congruence.
    - destruct Ht as (_ & id & Ht). rewrite Ht, lookup_insert_ne in Ha0 by done.
      congruence. }
  assert (Hnew : pipeline_table T fd0
            (fd_close (if decide (inp ≠ 0) then fd_close (ofile w3) inp else ofile w3)
               fd1)).
  { rewrite Hof3. unfold pipeline_table in *. unfold fd_close.
    pose proof Ha1 as Ha1'.
    apply lookup_insert_None in Ha1 as [Ha1 Hne].
    destruct (decide (inp = 0)) as [->|Hinp].
    - rewrite Ht in *. rewrite decide_False.
      2:{ intros ->. rewrite Ha0 in H0. by destruct H0. }
      split; [done|]. exists (pipes w1).
      case_decide; [done|]. by rewrite delete_insert_id.
    - destruct Ht as (HT & id & Ht). rewrite Ht in *. clear Ha1'.
      apply lookup_insert_None in Ha0 as [Ha0 Hne0].
      apply lookup_insert_None in Ha1 as [Ha1 Hne1].
      rewrite decide_False.
      2:{ intros ->. rewrite Ha0 in H0. by destruct H0. }
      split; [done|]. exists (pipes w1). rewrite decide_True by done.
      apply map_eq. intros j.
      destruct (decide (j = fd1)) as [->|]; [by simplify_map_eq|].
      destruct (decide (j = inp)) as [->|]; [by simplify_map_eq|].
      destruct (decide (j = fd0)) as [->|]; by simplify_map_eq. }
  assert (∃ w4, (if decide (inp ≠ 0) then close inp else mret tt) w3 = Ok tt w4 ∧
                ofile w4 = if decide (inp ≠ 0) then fd_close (ofile w3) inp
                           else ofile w3)
    as (w4 & Hrun4 & Hof4).
  { case_decide; by eexists. }
  erewrite bind_ok by exact Hrun4.
  unfold close at 1. rewrite bind_modify. cbn [snd fst].
  set (w5 := emit _ _).
  destruct (IH (S i) fd0 w5) as (ok & w' & inp' & Hrun' & Hok).
  { subst w5. cbn [ofile emit set_ofile]. by rewrite Hof4. }
  exists ok, w', inp'. split; [done|]. intros Htrue.
  destruct (Hok Htrue) as (Ht' & Hpos & Hzero). split; [done|].
  split; [|lia]. intros _. destruct n; [|apply Hpos; lia].
  by rewrite Hzero.
Qed.

(** X8.  What a pipeline costs the shell, for a kernel that hands out
    unused descriptors only and a shell whose descriptor 0 is open: when
    [execute_piped_commands] returns 0 for at least one command, the shell's
    descriptor table is the one it had plus one descriptor, the read end of
    a pipe.  It is the pipe of the last round, whose read end becomes [in]
    in line 164 and is closed by no later round. *)
Theorem pipeline_leaves_read_end_open (commands : list nat) (num : nat)
    (w : world) :
  is_Some (ofile w !! 0) → 0 < num →
  ∃ r w',
    execute_piped_commands k commands num w = Ok r w' ∧
    (r = 0%Z →
     ∃ fd id, ofile w !! fd = None ∧ ofile w' = <[fd := PipeRead id]> (ofile w)).
Proof.
  intros H0 Hnum. unfold execute_piped_commands.
  destruct (piped_stages_table (ofile w) commands num num H0 0 0 w)
    as (ok & w1 & inp & Hrun1 & Hok); [done|].
  erewrite bind_ok by exact Hrun1. destruct ok; [|by eexists _, _].
  destruct (wait_n_ofile k num w1) as (w2 & Hrun2 & Hof2).
  erewrite bind_ok by exact Hrun2. eexists _, w2. split; [done|]. intros _.
  destruct Hok as (Ht & Hpos & _); [done|].
  unfold pipeline_table in Ht. rewrite decide_False in Ht by (by apply Hpos).
  destruct Ht as (HT & id & Ht). exists inp, id. split; [done|congruence].
Qed.


(** X11.  The shell's descriptors across [execute_redirection], for a
    kernel that hands out unused descriptors only.  When the function
    returns 0 the shell's table is as it was: the target's descriptor has
    been closed again (line 221).  When the target was opened and [fork]
    then failed, the function returns -1 through line 207 without closing
    it: the shell keeps the target open, on a descriptor it did not have. *)
Theorem execute_redirection_descriptors (tok : list nat) (bg : bool) (w : world) :
  ∃ r w' evs,
    execute_redirection k tok bg w = Ok r w' ∧
    log w' = log w ++ evs ∧
    (r = 0%Z → ofile w' = ofile w) ∧
    (∀ path fl fd,
       EOpen path fl (Some fd) ∈ evs → EFork None ∈ evs →
       r = (-1)%Z ∧ ofile w !! fd = None ∧
       ofile w' = <[fd := Opened path fl]> (ofile w)).
Proof.
  destruct (execute_redirection_scan k tok bg w) as (ca & out & _ & ->).
  destruct out as [o|].
  - destruct (open_cases k (cstr (buf w) o) redirect_flags w) as [Hopen|(fd & Ha & Hopen)];
      erewrite bind_ok by exact Hopen.
    + eexists _, _, [_; _]. split; [done|]. cbn [log emit ofile].
      rewrite <-app_assoc. split; [done|]. split; [done|].
      intros path fl fd Hin. by repeat (apply elem_of_cons in Hin as [?|Hin]; [done|]);
        apply elem_of_nil in Hin.
    + set (w1 := emit _ _). apply Hfresh in Ha.
      destruct (k_fork k w1) as [pid|] eqn:Hfork.
      * destruct (redirect_run_forked k ca (Some fd) bg w1 pid Hfork)
          as (w' & ev & -> & Hlog & Hev & Hof).
        eexists _, w', _. split; [done|]. rewrite Hlog. subst w1.
        cbn [log emit set_ofile]. rewrite <-app_assoc. split; [done|].
        split.
        { intros _. rewrite Hof. cbn [ofile emit set_ofile]. unfold fd_close.
          by rewrite delete_insert_id. }
        intros path fl fd' _ Hin.
        destruct bg; [subst ev|destruct Hev as [p ->]];
          by repeat (apply elem_of_cons in Hin as [?|Hin]; [done|]);
            apply elem_of_nil in Hin.
      * rewrite redirect_run_failed by done.
        eexists _, _, [_; _; _]. split; [done|]. subst w1.
        cbn [log emit set_ofile ofile]. rewrite <-!app_assoc. split; [done|].
        split; [done|]. intros path fl fd' Hin _.
        apply elem_of_cons in Hin as [[= -> -> ->]|Hin]; [done|].
        by repeat (apply elem_of_cons in Hin as [?|Hin]; [done|]);
          apply elem_of_nil in Hin.
  - destruct (k_fork k w) as [pid|] eqn:Hfork.
    + destruct (redirect_run_forked k ca None bg w pid Hfork)
        as (w' & ev & -> & Hlog & Hev & Hof).
      eexists _, w', _. split; [done|]. split; [done|]. split; [done|].
      intros path fl fd' _ Hin. cbn [app] in Hin.
      destruct bg; [subst ev|destruct Hev as [p ->]];
        by repeat (apply elem_of_cons in Hin as [?|Hin]; [done|]);
          apply elem_of_nil in Hin.
    + rewrite redirect_run_failed by done.
      eexists _, _, [_; _]. split; [done|]. cbn [log emit ofile].
      rewrite <-!app_assoc. split; [done|]. split; [done|].
      intros path fl fd' Hin.
      by repeat (apply elem_of_cons in Hin as [?|Hin]; [done|]);
        apply elem_of_nil in Hin.
Qed.
End Tables.

(** * Further properties: the descriptor theorems at concrete runs *)

Lemma fresh_descriptors_nofork : fresh_descriptors kernel_nofork.
Proof. exact lowest_free_fresh. Qed.

(** X8 for three commands when every call succeeds. *)
Lemma pipeline_leaves_read_end_open_witness :
  ∃ r w',
    execute_piped_commands kernel_ok [0; 5; 10] 3 three_commands = Ok r w' ∧
    (r = 0%Z →
     ∃ fd id, ofile three_commands !! fd = None ∧
              ofile w' = <[fd := PipeRead id]> (ofile three_commands)).
Proof.
  apply (pipeline_leaves_read_end_open kernel_ok lowest_free_fresh
           [0; 5; 10] 3 three_commands).
  - exists Console. reflexivity.
  - lia.
Defined.



(** X11 for [ls > out.txt] when no process can be created. *)
Lemma execute_redirection_descriptors_witness :
  ∃ r w' evs,
    execute_redirection kernel_nofork [0; 3; 5] false ls_to_file = Ok r w' ∧
    log w' = log ls_to_file ++ evs ∧
    (r = 0%Z → ofile w' = ofile ls_to_file) ∧
    (∀ path fl fd,
       EOpen path fl (Some fd) ∈ evs → EFork None ∈ evs →
       r = (-1)%Z ∧ ofile ls_to_file !! fd = None ∧
       ofile w' = <[fd := Opened path fl]> (ofile ls_to_file)).
Proof.
  apply (execute_redirection_descriptors kernel_nofork fresh_descriptors_nofork
           [0; 3; 5] false ls_to_file).
Defined.

(** * Further properties: a redirection operator the scan does not reach *)



(** * Further properties: the shape of a line *)

(** X13.  How [process_one_cmd] decides what a line is (lines 251-305),
    for every content of the buffer, in terms of the words of the line in
    front of the first [&] that is not the first word.  The line is the
    builtin when its first word is [exit]; otherwise a pipeline when one of
    the words is [|]; otherwise a redirection when one of the words is [>];
    otherwise a plain command.  The operators count as words of their own
    only: a [|] or [>] inside a longer word decides nothing, nor does a word
    behind the [&]. *)
Theorem line_shape (w : world) :
  let ts := (line_tokens (cstr (buf w) 0)).1 in
  ∃ tok bg w',
    read_tokens (count_tokens (buf w)) w = Ok (tok, bg) w' ∧
    classify (buf w') tok =
      if decide (head ts = Some EXIT) then Builtin_exit
      else if decide (PIPE ∈ ts) then Pipeline
      else if decide (GT ∈ ts) then Redirected
      else Plain.
Proof.
  cbn zeta. destruct (read_tokens_spec w) as (tok & w' & Hrun & Hargv & _).
  eexists tok, _, w'. split; [exact Hrun|].
  unfold classify. rewrite exit_check_head, !has_token_spec, Hargv.
  change (cstr_of (list_ascii_of_string "|")) with PIPE.
  change (cstr_of (list_ascii_of_string ">")) with GT.
  change (list_ascii_of_string "exit") with EXIT.
  by repeat (case_bool_decide; case_decide; try done).
Qed.

(** * Further properties: whole command lines *)

(** Lines 233-262 when the allocation succeeds: the tokens are read and the
    shape of the line decides what runs. *)
Lemma process_one_cmd_tokens (k : kernel) (w : world) :
  k_malloc k w (count_tokens (buf w) + 1) = true →
  ∃ tok w2,
    argv_of w2 tok = (line_tokens (cstr (buf w) 0)).1 ∧
    same_os (emit (EMalloc (count_tokens (buf w) + 1) true) w) w2 ∧
    (∀ t0 rest, ws_split (cstr (buf w) 0) = t0 :: rest →
       t0 ≠ [] ∧ Forall (λ c, c ∉ delim_space) t0 ∧
       ∃ ds x, Forall (λ c, c ∈ delim_space) ds ∧
               cstr (buf w) 0 = ds ++ t0 ++ x ∧ cstr (buf w2) 0 = ds ++ t0) ∧
    process_one_cmd k w =
      match classify (buf w2) tok with
      | Builtin_exit => wait_for_background_processes k;; free;; exit
      | Pipeline =>
          commands ← split_commands 0;
          _ ← execute_piped_commands k commands (length commands);
          free;; mret 0%Z
      | Redirected =>
          _ ← execute_redirection k tok (line_tokens (cstr (buf w) 0)).2;
          free;; mret 0%Z
      | Plain =>
          _ ← process_normal k tok (line_tokens (cstr (buf w) 0)).2;
          free;; mret 0%Z
      end w2.
Proof.
  intros Hmem. unfold process_one_cmd. rewrite bind_get. cbn zeta.
  erewrite bind_ok by apply malloc_run. rewrite Hmem. cbn [negb].
  set (w1 := emit _ w).
  destruct (read_tokens_prefix w1) as (tok & w2 & Hrun & Hargv & Hos & Hfirst).
  change (buf w1) with (buf w) in *.
  erewrite bind_ok by exact Hrun. cbn beta iota. rewrite bind_get.
  by exists tok, w2.
Qed.

Lemma classify_argv (w : world) (tok : list nat) :
  classify (buf w) tok =
    if decide (head (argv_of w tok) = Some EXIT) then Builtin_exit
    else if decide (PIPE ∈ argv_of w tok) then Pipeline
    else if decide (GT ∈ argv_of w tok) then Redirected
    else Plain.
Proof.
  unfold classify. rewrite exit_check_head, !has_token_spec.
  change (cstr_of (list_ascii_of_string "|")) with PIPE.
  change (cstr_of (list_ascii_of_string ">")) with GT.
  change (list_ascii_of_string "exit") with EXIT.
  by repeat (case_bool_decide; case_decide; try done).
Qed.

(** X14.  A plain command line from end to end (lines 233-316 and 81-102),
    when the token array can be allocated: a line whose first word is not
    [exit] and that has no [|] and no [>] among its words in front of the
    background marker.  [process_one_cmd] returns 0 with the shell's
    descriptors unchanged, and its calls are, in order: the allocation, one
    [fork], one more call, and [free].  When [fork] fails the one more call
    is the report [Fork failed].  Otherwise the child executes the words of
    the line, the first word as the path, on a copy of the shell's
    descriptors, and the one more call is a [wait] that returns a child, or,
    with the marker, the report of the pid.  A line of blanks only is such a
    line: its child is given no path and no argument. *)
Theorem plain_line_runs_its_words (k : kernel) (w : world) :
  let ts := (line_tokens (cstr (buf w) 0)).1 in
  let bg := (line_tokens (cstr (buf w) 0)).2 in
  let n := count_tokens (buf w) + 1 in
  k_malloc k w n = true →
  head ts ≠ Some EXIT → PIPE ∉ ts → GT ∉ ts →
  ∃ w' evs,
    process_one_cmd k w = Ok 0%Z w' ∧
    log w' = log w ++ EMalloc n true :: evs ++ [EFree] ∧
    ofile w' = ofile w ∧
    (evs = [EFork None; EPrintf 2 "Fork failed\n" []] ∨
     ∃ pid ev,
       evs = [EFork (Some (pid, Child (ofile w) (head ts) ts)); ev] ∧
       if bg
       then ev = EPrintf 1 "[pid %d] runs as a background process\n"
                   [PInt (Z.of_nat pid)]
       else ∃ p, ev = EWait (Some p)).
Proof.
  cbn zeta. intros Hmem Hexit Hpipe Hgt.
  destruct (process_one_cmd_tokens k w Hmem) as (tok & w2 & Hargv & Hos & _ & ->).
  rewrite classify_argv, Hargv, !decide_False by done.
  destruct Hos as (Hof & Hch & _ & Hlog). cbn [ofile children log emit] in *.
  set (bg := (line_tokens _).2).
  set (c := Child (ofile w) (head (line_tokens (cstr (buf w) 0)).1)
              (line_tokens (cstr (buf w) 0)).1).
  assert (∃ r w3 evs,
            process_normal k tok bg w2 = Ok r w3 ∧
            log w3 = log w2 ++ evs ∧ ofile w3 = ofile w ∧
            (evs = [EFork None; EPrintf 2 "Fork failed\n" []] ∨
             ∃ pid ev,
               evs = [EFork (Some (pid, c)); ev] ∧
               if bg
               then ev = EPrintf 1 "[pid %d] runs as a background process\n"
                           [PInt (Z.of_nat pid)]
               else ∃ p, ev = EWait (Some p)))
    as (r & w3 & evs & Hrun & Hlog3 & Hof3 & Hevs).
  { unfold process_normal. destruct (k_fork k w2) as [pid|] eqn:Hfork.
    - erewrite bind_ok by (by apply fork_run). cbn beta iota.
      rewrite path_of_head, Hargv, Hof. fold c. set (w3 := emit _ _).
      destruct bg.
      + eexists _, _, [_; _]. split; [done|]. subst w3.
        cbn [log emit set_children ofile]. rewrite <-!app_assoc.
        split; [done|]. split; [done|]. right. by eexists _, _.
      + destruct (wait_reaps k w3) as (i & p & _ & Hw).
        { subst w3. cbn. by destruct (children w2). }
        eexists _, _, [_; _]. split.
        { erewrite bind_ok; [|by erewrite bind_ok by exact Hw]. done. }
        subst w3. cbn [log emit set_children ofile]. rewrite <-!app_assoc.
        split; [done|]. split; [done|]. right. eexists _, _. split; [done|].
        by eexists.
    - erewrite bind_ok by (by apply fork_fail).
      eexists _, _, [_; _]. split; [done|].
      cbn [log emit ofile]. rewrite <-!app_assoc.
      split; [done|]. split; [done|]. by left. }
  erewrite bind_ok by exact Hrun.
  eexists _, evs. split; [done|].
  cbn [log emit ofile]. rewrite Hlog3, Hlog, Hof3, <-!app_assoc.
  by split; [|split].
Qed.

(** X14 at a line of three blanks. *)
Lemma plain_line_runs_its_words_witness :
  let w := boot "   " in
  ∃ w' evs,
    process_one_cmd kernel_ok w = Ok 0%Z w' ∧
    log w' = log w ++ EMalloc 5 true :: evs ++ [EFree] ∧
    ofile w' = ofile w ∧
    (evs = [EFork None; EPrintf 2 "Fork failed\n" []] ∨
     ∃ pid ev,
       evs = [EFork (Some (pid, Child (ofile w) None [])); ev] ∧
       ∃ p, ev = EWait (Some p)).
Proof.
  apply (plain_line_runs_its_words kernel_ok (boot "   ")).
  - reflexivity.
  - by vm_compute.
  - vm_compute. apply not_elem_of_nil.
  - vm_compute. apply not_elem_of_nil.
Defined.

(** The calls of the pipeline executor. *)
Lemma pipeline_call_intro (e : event) :
  is_prompt e = false → is_read e = false → is_open e = false →
  (∀ args, e ≠ EPrintf 1 "[pid %d] runs as a background process\n" args) →
  pipeline_call e.
Proof. by repeat split. Qed.

(** X15.  A pipeline line from end to end, when the token array can be
    allocated: a line whose first word is not [exit] and that has a [|]
    among its words in front of the background marker.  Either the store of
    the sentinel behind the split loop is out of bounds, or
    [process_one_cmd] returns 0, also when a [pipe] or a [fork] has failed.
    Up to there the shell opens no file and reports no background child,
    whatever else the line holds: a [>] or a [&] on a pipeline line has no
    effect. *)
Theorem pipeline_line_opens_nothing (k : kernel) (w : world) :
  let ts := (line_tokens (cstr (buf w) 0)).1 in
  k_malloc k w (count_tokens (buf w) + 1) = true →
  head ts ≠ Some EXIT → PIPE ∈ ts →
  ∃ w', extends pipeline_call w w' ∧
    (process_one_cmd k w = Ok 0%Z w' ∨
     process_one_cmd k w = Halt (OutOfBounds "commands" MAXTOKENS) w').
Proof.
  cbn zeta. intros Hmem Hexit Hpipe.
  destruct (process_one_cmd_tokens k w Hmem) as (tok & w2 & Hargv & Hos & _ & ->).
  rewrite classify_argv, Hargv, decide_False, decide_True by done.
  assert (H2 : extends pipeline_call w w2).
  { eapply extends_trans; [|by apply extends_same_os].
    apply extends_emit. by apply pipeline_call_intro. }
  destruct (split_commands_cases pipeline_call w2) as (w3 & H3 & [[cs Hcs]|Hhalt]).
  - erewrite bind_ok by exact Hcs.
    destruct (runs_execute_piped_commands pipeline_call k
                ltac:(by intros; apply pipeline_call_intro)
                ltac:(by intros; apply pipeline_call_intro)
                ltac:(by intros; apply pipeline_call_intro)
                ltac:(by intros; apply pipeline_call_intro)
                ltac:(by intros; apply pipeline_call_intro) cs (length cs) w3)
      as (r & w4 & Hrun4 & _ & H4).
    erewrite bind_ok by exact Hrun4.
    eexists. split; [|by left].
    eapply extends_trans; [exact H2|]. eapply extends_trans; [exact H3|].
    eapply extends_trans; [exact H4|].
    apply extends_emit. by apply pipeline_call_intro.
  - exists w3. split; [by eapply extends_trans|]. right. by apply bind_halt.
Qed.

(** X15 at a line with a pipe token, a redirection and the marker. *)
Lemma pipeline_line_opens_nothing_witness :
  let w := boot "ls | wc > out &" in
  ∃ w', extends pipeline_call w w' ∧
    (process_one_cmd kernel_ok w = Ok 0%Z w' ∨
     process_one_cmd kernel_ok w = Halt (OutOfBounds "commands" MAXTOKENS) w').
Proof.
  apply (pipeline_line_opens_nothing kernel_ok (boot "ls | wc > out &")).
  - reflexivity.
  - by vm_compute.
  - apply (bool_decide_unpack _). by vm_compute.
Defined.

(** * Further properties: the read loop and the reaper *)

Lemma read_loop_blank (k : kernel) (input : list (list ascii)) :
  Forall (λ chunk, length chunk = 1) input →
  ∀ w, ∃ w',
    read_loop k input w = Ok tt w' ∧
    log w' = log w ++ concat ((λ _, [ERead 1; EPrintf 1 SH_PROMPT []]) <$> input) ∧
    children w' = children w ∧ ofile w' = ofile w.
Proof.
  induction 1 as [|chunk input Hlen _ IH]; intros w; cbn [read_loop].
  { exists w. by rewrite app_nil_r. }
  rewrite Hlen. change (1 `min` MAXLINE) with 1.
  rewrite decide_False by done. rewrite bind_modify, decide_True by done.
  unfold printf at 1. rewrite bind_modify.
  set (w1 := emit _ _).
  destruct (IH w1) as (w' & Hrun & Hlog & Hch & Hof).
  exists w'. split; [done|]. rewrite Hlog, Hch, Hof. subst w1.
  cbn [log emit set_buf children ofile]. rewrite fmap_cons. cbn [concat].
  by rewrite <-!app_assoc.
Qed.

(** X16.  [main] (lines 318-340) on an input of empty lines, each read as
    its newline alone, and then the end of the input: the shell prints one
    prompt at the start and one after every line, calls nothing else but
    [read], and ends with [exit].  In particular at the end of the input,
    unlike for the builtin, it does not wait: the children outstanding are
    left as they are. *)
Theorem main_blank_lines (k : kernel) (input : list (list ascii)) (w : world) :
  Forall (λ chunk, length chunk = 1) input →
  ∃ w',
    main k input w = Halt Exited w' ∧
    log w' = log w ++ EPrintf 1 SH_PROMPT []
                   :: concat ((λ _, [ERead 1; EPrintf 1 SH_PROMPT []]) <$> input)
                   ++ [EExit] ∧
    children w' = children w ∧ ofile w' = ofile w.
Proof.
  intros Hin. unfold main. unfold printf at 1. rewrite bind_modify.
  destruct (read_loop_blank k input Hin (emit (EPrintf 1 SH_PROMPT []) w))
    as (w' & Hrun & Hlog & Hch & Hof).
  erewrite bind_ok by exact Hrun. eexists. split; [done|].
  cbn [log emit children ofile]. rewrite Hlog, Hch, Hof. cbn [log emit children ofile].
  by rewrite <-!app_assoc.
Qed.

(** X16 for two empty lines with the children 7 and 9 outstanding. *)
Lemma main_blank_lines_witness :
  ∃ w',
    main kernel_ok [typed ""; typed ""] (boot_with "" [7; 9]) = Halt Exited w' ∧
    log w' = [EPrintf 1 SH_PROMPT []; ERead 1; EPrintf 1 SH_PROMPT [];
              ERead 1; EPrintf 1 SH_PROMPT []; EExit] ∧
    children w' = [7; 9] ∧ ofile w' = console.
Proof.
  apply (main_blank_lines kernel_ok [typed ""; typed ""] (boot_with "" [7; 9])).
  by repeat constructor.
Defined.

(** X17.  [wait_for_background_processes] (lines 72-78), whatever the
    kernel answers and however many children are outstanding: the loop ends;
    it has called [wait] once for every outstanding child, in the order the
    kernel chose, and once more, the call that failed; no child is left, and
    the buffer and the descriptors are untouched. *)
Theorem wait_for_background_processes_reaps_all (k : kernel) (w : world) :
  ∃ pids w',
    wait_for_background_processes k w = Ok tt w' ∧
    pids ≡ₚ children w ∧
    log w' = log w ++ (EWait ∘ Some <$> pids) ++ [EWait None] ∧
    children w' = [] ∧ ofile w' = ofile w ∧ buf w' = buf w.
Proof.
  destruct (wait_for_background_processes_spec k w) as (pids & Hperm & Hrun).
  by eexists pids, _.
Qed.

(** The read of a chunk of at least two characters. *)
Lemma read_loop_hands_over_line_aux (k : kernel) (chunk : list ascii)
    (input : list (list ascii)) (w : world) :
  let n := length chunk `min` MAXLINE in
  1 < n →
  ∃ w1,
    log w1 = log w ++ [ERead n] ∧
    ofile w1 = ofile w ∧ children w1 = children w ∧
    read_loop k (chunk :: input) w =
      (process_one_cmd k ≫= λ _,
       printf 1 SH_PROMPT [] ≫= λ _,
       modify (set_buf (replicate MAXLINE NUL)) ≫= λ _,
       read_loop k input) w1.
Proof.
  intros n Hn. cbn [read_loop]. fold n.
  rewrite decide_False by lia. rewrite bind_modify, decide_False by lia.
  rewrite bind_modify. set (w0 := emit (ERead n) _).
  by exists (set_buf (<[n - 1 := NUL]> (buf w0)) w0).
Qed.

(** X18.  The line [main] hands to [process_one_cmd] (lines 324-333), for
    a chunk of at least two characters: the C string at the start of the
    buffer is the chunk, cut to 256 characters, without its last character,
    whatever that character is, and up to a terminator if it holds one.
    This holds for every previous content of the buffer. *)
Theorem read_loop_hands_over_line (k : kernel) (chunk : list ascii)
    (input : list (list ascii)) (w : world) :
  let n := length chunk `min` MAXLINE in
  1 < n →
  ∃ w1,
    cstr (buf w1) 0 = line_of chunk ∧
    log w1 = log w ++ [ERead n] ∧
    ofile w1 = ofile w ∧ children w1 = children w ∧
    read_loop k (chunk :: input) w =
      (process_one_cmd k ≫= λ _,
       printf 1 SH_PROMPT [] ≫= λ _,
       modify (set_buf (replicate MAXLINE NUL)) ≫= λ _,
       read_loop k input) w1.
Proof.
  intros n Hn. cbn [read_loop]. fold n.
  rewrite decide_False by lia. rewrite bind_modify, decide_False by lia.
  rewrite bind_modify.
  set (w0 := emit (ERead n) _).
  exists (set_buf (<[n - 1 := NUL]> (buf w0)) w0). split; [|done].
  subst w0. cbn [buf set_buf emit]. apply line_in_buffer. fold n. lia.
Qed.

(** X18 for the chunk [ls] without a newline, over a buffer that holds an
    older line: the line is [l]. *)
Lemma read_loop_hands_over_line_witness :
  ∃ w1,
    cstr (buf w1) 0 = list_ascii_of_string "l" ∧
    log w1 = [ERead 2] ∧
    ofile w1 = console ∧ children w1 = [] ∧
    read_loop kernel_ok [list_ascii_of_string "ls"] (boot "echo hello") =
      (process_one_cmd kernel_ok ≫= λ _,
       printf 1 SH_PROMPT [] ≫= λ _,
       modify (set_buf (replicate MAXLINE NUL)) ≫= λ _,
       read_loop kernel_ok []) w1.
Proof.
  apply (read_loop_hands_over_line kernel_ok (list_ascii_of_string "ls") []
           (boot "echo hello")).
  vm_compute. lia.
Defined.

(** * Further properties: what the children of a pipeline line execute *)

Lemma fields_chars (d s : list ascii) :
  ∀ f c, f ∈ fields d s → c ∈ f → c ∈ s.
Proof.
  induction s as [|a s IH]; intros f c Hf Hc; cbn [fields] in Hf.
  - apply list_elem_of_singleton in Hf as ->. by apply elem_of_nil in Hc.
  - case_bool_decide.
    + apply elem_of_cons in Hf as [->|Hf]; [by apply elem_of_nil in Hc|].
      apply elem_of_cons. right. by eapply IH.
    + destruct (fields d s) as [|g gs] eqn:Hg.
      * apply list_elem_of_singleton in Hf as ->.
        apply list_elem_of_singleton in Hc as ->. apply list_elem_of_here.
      * apply elem_of_cons in Hf as [->|Hf].
        -- apply elem_of_cons in Hc as [->|Hc]; [apply list_elem_of_here|].
           apply elem_of_cons. right. eapply IH; [apply list_elem_of_here|done].
        -- apply elem_of_cons. right. eapply IH; [|done].
           apply elem_of_cons. by right.
Qed.

Lemma words_chars (d s f : list ascii) (c : ascii) :
  f ∈ words d s → c ∈ f → c ∈ s.
Proof.
  unfold words. intros [_ Hf]%list_elem_of_filter. by apply (fields_chars d).
Qed.

Lemma no_space_ws_split (s : list ascii) :
  Forall (λ c, c ≠ SPACE) s → ws_split s = if decide (s = []) then [] else [s].
Proof.
  intros Hs. unfold ws_split. case_decide as Hnil.
  - subst. by apply (words_only_delims _ []).
  - apply (words_token _ [] s); [done| |done].
    eapply Forall_impl; [exact Hs|]. intros c Hc. by rewrite in_delim_space.
Qed.

(** The trimmed pieces of a line that ends with its first word hold no
    space. *)
Lemma spec_stages_no_space (ds t0 : list ascii) :
  Forall (λ c, c ∈ delim_space) ds → Forall (λ c, c ∉ delim_space) t0 →
  Forall (λ s, Forall (λ c, c ≠ SPACE) s) (spec_stages (ds ++ t0)).
Proof.
  intros Hds Ht0. unfold spec_stages.
  assert (Hsolid : ∀ r f, (∀ c, c ∈ r → c ∈ t0) → f ∈ words delim_pipe r →
            Forall (λ c, c ≠ SPACE) (drop (span_spaces f) f)).
  { intros r f Hr Hf. apply Forall_forall. intros c Hc.
    apply (subseteq_drop _ _) in Hc. apply (words_chars _ _ _ _ Hf), Hr in Hc.
    rewrite Forall_forall in Ht0. intros ->. apply (Ht0 SPACE Hc).
    by apply in_delim_space. }
  assert (Hhead : ∀ a, (∀ c, c ∈ a → c ∈ t0) →
            Forall (λ c, c ≠ SPACE) (drop (span_spaces (ds ++ a)) (ds ++ a))).
  { intros a Ha. destruct a as [|c a].
    - rewrite app_nil_r. replace (span_spaces ds) with (length ds).
      + by rewrite drop_all.
      + clear -Hds. induction Hds as [|c ds Hc%in_delim_space _ IH]; [done|].
        cbn. by rewrite decide_True, IH.
    - assert (Forall (λ x, x ∉ delim_space) (c :: a)) as Hsol.
      { apply Forall_forall. intros x Hx. rewrite Forall_forall in Ht0.
        by apply Ht0, Ha. }
      rewrite <-(app_nil_r (c :: a)) at 1. rewrite span_spaces_app by done.
      rewrite drop_app_length. eapply Forall_impl; [exact Hsol|].
      intros x Hx ->. by apply Hx, in_delim_space. }
  assert (Hbar : Forall (λ c, c ∉ delim_pipe) ds).
  { eapply Forall_impl; [exact Hds|]. intros c ->%in_delim_space.
    by rewrite in_delim_pipe. }
  apply Forall_fmap, Forall_forall. intros f Hf. cbn.
  destruct (token_cases delim_pipe t0) as (a & Ha & [->|(c & r & -> & Hc)]).
  - unfold words in Hf. rewrite fields_token in Hf by by apply Forall_app.
    apply list_elem_of_filter in Hf as [_ ->%list_elem_of_singleton].
    by apply Hhead.
  - unfold words in Hf. rewrite app_assoc, fields_token_sep in Hf
      by (done || by apply Forall_app).
    rewrite filter_cons in Hf. fold (words delim_pipe r) in Hf.
    assert (f = ds ++ a ∨ f ∈ words delim_pipe r) as [->|Hf'].
    { case_decide; [|by right]. apply elem_of_cons in Hf as [?|?]; auto. }
    + apply Hhead. intros x Hx. apply elem_of_app. by left.
    + apply (Hsolid r); [|done]. intros x Hx. apply elem_of_app. right.
      apply elem_of_cons. by right.
Qed.

(** The vector of a stage whose command string holds no space: the string
    itself, or nothing when it is empty; the buffer is not written. *)
Lemma stage_args_word (p : nat) (w : world) :
  Forall (λ c, c ≠ SPACE) (cstr (buf w) p) →
  ∃ args,
    stage_args (Some p) w = Ok args (set_last None w) ∧
    argv_of w args = ws_split (cstr (buf w) p).
Proof.
  intros Hs. rewrite no_space_ws_split by done. unfold stage_args.
  pose proof delim_space_nul as Hd.
  destruct (decide (p ≤ length (buf w))) as [Hp|Hp].
  2:{ erewrite bind_ok by (apply strtok_past_end; lia).
      erewrite bind_ok by apply collect_args_none.
      erewrite bind_ok by (apply store_ok; unfold MAXTOKENS; simpl; lia).
      exists []. by rewrite cstr_past_end, decide_True by (done || lia). }
  destruct (buffer_at (buf w) p Hp) as (pre & tail & Hb & <- & Ht).
  case_decide as Hnil.
  - rewrite Hnil in Hb.
    erewrite bind_ok by (by apply (strtok_none _ _ pre [] tail); [|left|..]).
    erewrite bind_ok by apply collect_args_none.
    erewrite bind_ok by (apply store_ok; unfold MAXTOKENS; simpl; lia).
    by exists [].
  - erewrite bind_ok.
    2:{ apply (strtok_last _ _ pre [] (cstr (buf w) (length pre)) tail);
          [done|by left|done|done|done| |apply cstr_of_no_nul|done].
        eapply Forall_impl; [exact Hs|]. intros c Hc. by rewrite in_delim_space. }
    erewrite bind_ok.
    2:{ change (MAXTOKENS - 1) with (S 14). rewrite collect_args_some.
        erewrite bind_ok by (apply store_ok; unfold MAXTOKENS; simpl; lia).
        erewrite bind_ok by (by apply strtok_custom_finished).
        apply collect_args_none. }
    erewrite bind_ok by (apply store_ok; unfold MAXTOKENS; simpl; lia).
    eexists [_]. split; [done|]. cbn [length]. by rewrite Nat.add_0_r.
Qed.

Lemma forked_count_zero (evs : list event) :
  count is_fork evs = 0 → forked evs = [].
Proof.
  intros Hz. apply forked_no_fork.
  induction evs as [|e evs IH]; [done|].
  rewrite count_cons in Hz. constructor; [by destruct (is_fork e)|].
  apply IH. lia.
Qed.

(** Lines 124-166 on command strings that hold no space: the children in
    the order they are forked execute the command strings in their order,
    one word each. *)
Lemma piped_stages_words (k : kernel) (commands : list nat) (num n : nat) :
  ∀ i inp w,
    Forall (λ c, Forall (λ a, a ≠ SPACE) (cstr (buf w) c)) commands →
    i + n = length commands →
    ∃ ok w' evs,
      piped_stages k commands num n i inp w = Ok ok w' ∧
      log w' = log w ++ evs ∧
      c_argv <$> forked evs
        `prefix_of` (λ c, ws_split (cstr (buf w) c)) <$> drop i commands ∧
      if ok : bool then length (forked evs) = n
      else ∃ l msg, evs = l ++ [EPrintf 2 msg []].
Proof.
  induction n as [|n IH]; intros i inp w Hcs Hlen; cbn [piped_stages].
  { exists true, w, []. rewrite app_nil_r.
    split; [done|]. split; [done|]. split; [apply prefix_nil|done]. }
  destruct (lookup_lt_is_Some_2 commands i) as [c Hc]; [lia|].
  rewrite Hc.
  destruct (stage_args_word c w) as (args & Hrun1 & Hargs).
  { rewrite Forall_forall in Hcs. eapply Hcs, list_elem_of_lookup_2, Hc. }
  erewrite bind_ok by exact Hrun1. set (w1 := set_last None w).
  destruct (pipe_cases k w1) as [Hpipe|(fd0 & fd1 & _ & _ & Hpipe)];
    erewrite bind_ok by exact Hpipe; cbn beta iota.
  { eexists false, _, [_; _]. split; [done|].
    split; [by cbn [log emit]; rewrite <-app_assoc|].
    split; [apply prefix_nil|by eexists [_], _]. }
  set (w2 := emit _ _). set (image := stage_child _ _ _ _ _).
  destruct (k_fork k w2) as [pid|] eqn:Hfork.
  - erewrite bind_ok by (by apply fork_run). cbn beta iota.
    set (w3 := emit _ _).
    assert (∃ w4 cl, (if decide (inp ≠ 0) then close inp else mret tt) w3 = Ok tt w4 ∧
                     log w4 = log w3 ++ cl ∧ buf w4 = buf w3 ∧ forked cl = [])
      as (w4 & cl & Hrun4 & Hlog4 & Hbuf4 & Hcl).
    { case_decide; [eexists _, [_]|exists w3, []]; (split; [done|]).
      - by repeat split.
      - by rewrite app_nil_r. }
    erewrite bind_ok by exact Hrun4.
    unfold close at 1. rewrite bind_modify. cbn [snd fst].
    set (w5 := emit _ _).
    assert (Hbuf5 : buf w5 = buf w) by (subst w5; cbn; by rewrite Hbuf4).
    destruct (IH (S i) fd0 w5) as (ok & w' & evs & Hrun' & Hlog' & Hpre & Hok);
      [by rewrite Hbuf5|lia|].
    rewrite Hbuf5 in Hpre.
    exists ok, w', (EPipe (Some (fd0, fd1)) :: EFork (Some (pid, image w2))
                        :: cl ++ EClose fd1 :: evs).
    split; [done|].
    split.
    { rewrite Hlog'. subst w5. cbn [log emit set_ofile]. rewrite Hlog4.
      subst w3 w2. cbn [log emit set_ofile set_pipes set_children].
      by rewrite <-!app_assoc. }
    assert (Hfk : forked (EPipe (Some (fd0, fd1)) :: EFork (Some (pid, image w2))
                            :: cl ++ EClose fd1 :: evs)
                  = image w2 :: forked evs).
    { change (forked (?a :: ?b :: ?l)) with (image w2 :: forked l).
      by rewrite forked_app, Hcl. }
    rewrite Hfk. split.
    + rewrite (drop_S _ _ _ Hc), !fmap_cons.
      replace (c_argv (image w2)) with (ws_split (cstr (buf w) c))
        by (by rewrite <-Hargs).
      by apply prefix_cons.
    + destruct ok; [by cbn; rewrite Hok|].
      destruct Hok as (l & msg & ->).
      eexists (_ :: _ :: cl ++ _ :: l), msg. cbn. by rewrite <-!app_assoc.
  - erewrite bind_ok by (by apply fork_fail). cbn beta iota.
    eexists false, _, [_; _; _]. split; [done|]. subst w2.
    split; [by cbn [log emit set_ofile set_pipes]; rewrite <-!app_assoc|].
    split; [apply prefix_nil|by eexists [_; _], _].
Qed.

Lemma prefix_of_length_eq {A} (l1 l2 : list A) :
  l1 `prefix_of` l2 → length l1 = length l2 → l1 = l2.
Proof.
  intros [k ->] Hlen. rewrite length_app in Hlen.
  destruct k; [by rewrite app_nil_r|simpl in Hlen; lia].
Qed.

(** X19.  What a pipeline line runs, from end to end, when the token array
    can be allocated and the line up to the end of its first word has fewer
    than 16 pieces between pipe characters.  [process_one_cmd] returns 0.
    The children it has forked execute, in order and from the first on, the
    pieces of that prefix: each child is given one word, the piece, as its
    path and only argument, and nothing at all when the piece is empty.  So
    no stage of a pipeline is ever given an argument.  Every piece is
    executed unless the failure of a [pipe] or [fork] was reported. *)
Theorem pipeline_children_run_one_word (k : kernel) (w : world)
    (t0 : list ascii) (rest : list (list ascii)) :
  let line := cstr (buf w) 0 in
  let prefix := take (span_spaces line + length t0) line in
  k_malloc k w (count_tokens (buf w) + 1) = true →
  ws_split line = t0 :: rest →
  t0 ≠ EXIT →
  PIPE ∈ t0 :: (until_amp rest).1 →
  length (words delim_pipe prefix) < MAXTOKENS →
  ∃ w' evs,
    process_one_cmd k w = Ok 0%Z w' ∧
    log w' = log w ++ evs ∧
    c_argv <$> forked evs `prefix_of` ws_split <$> spec_stages prefix ∧
    Forall (λ c, length (c_argv c) ≤ 1) (forked evs) ∧
    ((∀ msg, EPrintf 2 msg [] ∉ evs) →
     c_argv <$> forked evs = ws_split <$> spec_stages prefix).
Proof.
  cbn zeta. intros Hmem Hsplit Hexit Hpipe Hfew.
  destruct (process_one_cmd_tokens k w Hmem)
    as (tok & w2 & Hargv & Hos & Hfirst & ->).
  unfold line_tokens in Hargv. rewrite Hsplit in Hargv. cbn [fst] in Hargv.
  rewrite classify_argv, Hargv. cbn [head].
  rewrite decide_False by (by intros [= ?]). rewrite decide_True by done.
  destruct (Hfirst t0 rest Hsplit) as (Hne & Hword & ds & x & Hds & Hline & Hc).
  rewrite Hline in Hfew |- *.
  rewrite span_spaces_app in Hfew |- * by done.
  rewrite app_assoc, <-length_app, take_app_length in Hfew |- *.
  (* the command strings *)
  destruct (split_commands_few 0 w2) as (commands & w3 & Hrun3 & Hstages & Hos3);
    [by rewrite Hc|]. rewrite Hc in Hstages.
  erewrite bind_ok by exact Hrun3.
  assert (Hsolid : Forall (λ c, Forall (λ a, a ≠ SPACE) (cstr (buf w3) c)) commands).
  { pose proof (spec_stages_no_space ds t0 Hds Hword) as Hall.
    rewrite <-Hstages in Hall. unfold argv_of in Hall.
    rewrite Forall_forall in Hall. apply Forall_forall. intros c Hin.
    by apply Hall, list_elem_of_fmap_2. }
  (* the stages *)
  destruct (piped_stages_words k commands (length commands) (length commands) 0 0 w3)
    as (ok & w4 & evs & Hrun4 & Hlog4 & Hpre & Hok); [done|done|].
  rewrite drop_0 in Hpre. fold (argv_of w3 commands) in Hpre.
  change ((λ c, ws_split (cstr (buf w3) c)) <$> commands)
    with ((ws_split ∘ cstr (buf w3)) <$> commands) in Hpre.
  rewrite list_fmap_compose in Hpre. fold (argv_of w3 commands) in Hpre.
  rewrite Hstages in Hpre.
  destruct Hos as (_ & _ & _ & Hlog2). destruct Hos3 as (_ & _ & _ & Hlog3).
  cbn [log emit] in Hlog2.
  assert (Hone : ∀ evs', forked evs' = forked evs →
            Forall (λ c, length (c_argv c) ≤ 1) (forked evs')).
  { intros evs' ->.
    destruct Hpre as [more Hpre].
    assert (Forall (λ a : list (list ascii), length a ≤ 1)
              (ws_split <$> spec_stages (ds ++ t0))) as Hall.
    { apply Forall_fmap. eapply Forall_impl; [by apply spec_stages_no_space|].
      intros s Hs. cbn. rewrite no_space_ws_split by done.
      case_decide; simpl; lia. }
    rewrite Hpre in Hall. apply Forall_app in Hall as [Hall _].
    rewrite Forall_forall in Hall. apply Forall_forall. intros c Hin.
    by apply Hall, list_elem_of_fmap_2. }
  destruct ok.
  - destruct (wait_n_counts k (length commands) w4)
      as (w5 & evs2 & Hrun5 & Hlog5 & _ & _ & Hf5).
    assert (Hfk : forked (EMalloc (count_tokens (buf w) + 1) true
                            :: (evs ++ evs2) ++ [EFree]) = forked evs).
    { change (forked (?a :: ?l)) with (forked l).
      rewrite !forked_app, (forked_count_zero evs2) by done.
      by rewrite !app_nil_r. }
    exists (emit EFree w5), (EMalloc (count_tokens (buf w) + 1) true
                               :: (evs ++ evs2) ++ [EFree]).
    assert (Hexec : execute_piped_commands k commands (length commands) w3
                    = Ok 0%Z w5).
    { unfold execute_piped_commands. erewrite bind_ok by exact Hrun4.
      cbn beta iota. by erewrite bind_ok by exact Hrun5. }
    split; [by erewrite bind_ok by exact Hexec|].
    split.
    { cbn [log emit]. rewrite Hlog5, Hlog4, Hlog3, Hlog2, <-!app_assoc. done. }
    rewrite Hfk. split; [done|]. split; [by apply Hone|]. intros _.
    apply prefix_of_length_eq; [done|].
    rewrite !length_fmap, Hok. rewrite <-Hstages. unfold argv_of.
    by rewrite length_fmap.
  - assert (Hfk : forked (EMalloc (count_tokens (buf w) + 1) true
                            :: evs ++ [EFree]) = forked evs).
    { change (forked (?a :: ?l)) with (forked l).
      rewrite !forked_app. cbn. by rewrite !app_nil_r. }
    exists (emit EFree w4), (EMalloc (count_tokens (buf w) + 1) true
                               :: evs ++ [EFree]).
    assert (Hexec : execute_piped_commands k commands (length commands) w3
                    = Ok (-1)%Z w4).
    { unfold execute_piped_commands. by erewrite bind_ok by exact Hrun4. }
    split; [by erewrite bind_ok by exact Hexec|].
    split.
    { cbn [log emit]. rewrite Hlog4, Hlog3, Hlog2, <-!app_assoc. done. }
    rewrite Hfk. split; [done|]. split; [by apply Hone|]. intros Hno.
    destruct Hok as (l & msg & ->). exfalso. apply (Hno msg).
    apply elem_of_cons. right. apply elem_of_app. left.
    apply elem_of_app. right. apply list_elem_of_here.
Qed.

(** X19 at a line whose first word holds three command strings, when every
    call succeeds. *)
Lemma pipeline_children_run_one_word_witness :
  let w := boot three_stage_line in
  let line := cstr (buf w) 0 in
  let prefix := take (span_spaces line + length (list_ascii_of_string "cmd1|cmd2|cmd3")) line in
  ∃ w' evs,
    process_one_cmd kernel_ok w = Ok 0%Z w' ∧
    log w' = log w ++ evs ∧
    c_argv <$> forked evs `prefix_of` ws_split <$> spec_stages prefix ∧
    Forall (λ c, length (c_argv c) ≤ 1) (forked evs) ∧
    ((∀ msg, EPrintf 2 msg [] ∉ evs) →
     c_argv <$> forked evs = ws_split <$> spec_stages prefix).
Proof.
  apply (pipeline_children_run_one_word kernel_ok (boot three_stage_line)
           (list_ascii_of_string "cmd1|cmd2|cmd3")
           [list_ascii_of_string "|"; list_ascii_of_string "x"]).
  - reflexivity.
  - by vm_compute.
  - by vm_compute.
  - apply (bool_decide_unpack _). by vm_compute.
  - vm_compute. lia.
Defined.

(** X20.  When the store of the sentinel leaves [commands], from end to
    end: for a line that is run as a pipeline and whose prefix up to the end
    of its first word has 16 or more pieces between pipe characters,
    [process_one_cmd] stores at index 16 of the 16-slot array.  Up to there
    it has allocated the token array and called nothing else. *)
Theorem pipeline_line_overflow (k : kernel) (w : world)
    (t0 : list ascii) (rest : list (list ascii)) :
  let line := cstr (buf w) 0 in
  let prefix := take (span_spaces line + length t0) line in
  k_malloc k w (count_tokens (buf w) + 1) = true →
  ws_split line = t0 :: rest →
  t0 ≠ EXIT →
  PIPE ∈ t0 :: (until_amp rest).1 →
  MAXTOKENS ≤ length (words delim_pipe prefix) →
  ∃ w',
    process_one_cmd k w = Halt (OutOfBounds "commands" MAXTOKENS) w' ∧
    log w' = log w ++ [EMalloc (count_tokens (buf w) + 1) true].
Proof.
  cbn zeta. intros Hmem Hsplit Hexit Hpipe Hmany.
  destruct (process_one_cmd_tokens k w Hmem)
    as (tok & w2 & Hargv & Hos & Hfirst & ->).
  unfold line_tokens in Hargv. rewrite Hsplit in Hargv. cbn [fst] in Hargv.
  rewrite classify_argv, Hargv. cbn [head].
  rewrite decide_False by (by intros [= ?]). rewrite decide_True by done.
  destruct (Hfirst t0 rest Hsplit) as (Hne & Hword & ds & x & Hds & Hline & Hc).
  rewrite Hline in Hmany.
  rewrite span_spaces_app in Hmany by done.
  rewrite app_assoc, <-length_app, take_app_length in Hmany.
  destruct (split_commands_many 0 w2) as (w3 & Hrun3 & Hos3); [by rewrite Hc|].
  exists w3. split; [by apply bind_halt|].
  destruct Hos as (_ & _ & _ & Hlog2). destruct Hos3 as (_ & _ & _ & Hlog3).
  by rewrite Hlog3, Hlog2.
Qed.

(** X20 at a line whose first word holds 16 command strings. *)
Lemma pipeline_line_overflow_witness :
  let w := boot sixteen_stages in
  ∃ w',
    process_one_cmd kernel_ok w = Halt (OutOfBounds "commands" MAXTOKENS) w' ∧
    log w' = log w ++ [EMalloc (count_tokens (buf w) + 1) true].
Proof.
  apply (pipeline_line_overflow kernel_ok (boot sixteen_stages)
           (list_ascii_of_string "a|b|c|d|e|f|g|h|i|j|k|l|m|n|o|p")
           [list_ascii_of_string "|"; list_ascii_of_string "q"]).
  - reflexivity.
  - by vm_compute.
  - by vm_compute.
  - apply (bool_decide_unpack _). by vm_compute.
  - vm_compute. lia.
Defined.

(** * Further properties: what the children of the pipeline executor execute *)

(** The tokenization of one stage writes inside the stage's command string
    only: a string that starts behind its terminator is as it was. *)
Lemma stage_args_frame (p : nat) (w : world) :
  ∃ args w',
    stage_args (Some p) w = Ok args w' ∧
    argv_of w' args = take (MAXTOKENS - 1) (ws_split (cstr (buf w) p)) ∧
    same_os w w' ∧
    ∀ q, p + length (cstr (buf w) p) < q → cstr (buf w') q = cstr (buf w) q.
Proof.
  unfold stage_args.
  destruct (decide (p ≤ length (buf w))) as [Hp|Hp].
  - destruct (buffer_at (buf w) p Hp) as (pre & tail & Hb & Hpre & Ht).
    pose proof (cstr_of_no_nul (drop p (buf w))) as Hnul.
    fold (cstr (buf w) p) in Hnul.
    remember (cstr (buf w) p) as s eqn:Hs.
    destruct (collect_args_spec (length s) s pre tail w (Some p) (MAXTOKENS - 1) [])
      as (new & w' & Hrun & Hargv & (s' & Hb' & Hlen') & Hos);
      [done|done|done|done|by left; rewrite Hpre|simpl; lia|].
    destruct (strtok_custom_same_os (Some p) delim_space w) as (tok & w1 & Hrun1 & _).
    erewrite bind_ok in Hrun by exact Hrun1.
    erewrite bind_ok by exact Hrun1.
    erewrite bind_ok by exact Hrun.
    assert (length new ≤ MAXTOKENS - 1) as Hlen.
    { rewrite <-(length_fmap (cstr (buf w'))). fold (argv_of w' new).
      rewrite Hargv, length_take. lia. }
    erewrite bind_ok by (apply store_ok; unfold MAXTOKENS in *; simpl in *; lia).
    exists new, w'. split; [done|]. split; [done|]. split; [done|].
    intros q Hq. unfold cstr. rewrite Hb', Hb.
    rewrite !app_assoc, !drop_app_ge; rewrite !length_app; try lia.
    by rewrite Hlen'.
  - erewrite bind_ok by (apply strtok_past_end; lia).
    erewrite bind_ok by apply collect_args_none.
    erewrite bind_ok by (apply store_ok; unfold MAXTOKENS; simpl; lia).
    exists [], (set_last None w). rewrite cstr_past_end by lia. by repeat split.
Qed.

Lemma separated_ext (b b' : list ascii) (cs : list nat) :
  Forall (λ c, cstr b' c = cstr b c) cs → separated b cs → separated b' cs.
Proof.
  induction 1 as [|c cs Hc _ IH]; [done|]. cbn. intros [Hall Hsep].
  split; [by rewrite Hc|by apply IH].
Qed.

(** Lines 124-166 on command strings that lie one behind the other. *)
Lemma piped_stages_argv (k : kernel) (commands : list nat) (num n : nat) :
  ∀ i inp w,
    separated (buf w) (drop i commands) →
    i + n = length commands →
    ∃ ok w' evs,
      piped_stages k commands num n i inp w = Ok ok w' ∧
      log w' = log w ++ evs ∧
      c_argv <$> forked evs
        `prefix_of` (λ c, take (MAXTOKENS - 1) (ws_split (cstr (buf w) c)))
                      <$> drop i commands ∧
      Forall (λ c, c_path c = head (c_argv c)) (forked evs) ∧
      if ok : bool then length (forked evs) = n
      else ∃ l msg, evs = l ++ [EPrintf 2 msg []].
Proof.
  induction n as [|n IH]; intros i inp w Hsep Hlen; cbn [piped_stages].
  { exists true, w, []. rewrite app_nil_r.
    split; [done|]. split; [done|]. split; [apply prefix_nil|done]. }
  destruct (lookup_lt_is_Some_2 commands i) as [c Hc]; [lia|].
  rewrite Hc. rewrite (drop_S _ _ _ Hc) in Hsep |- *. destruct Hsep as [Hbehind Hsep].
  destruct (stage_args_frame c w) as (args & w1 & Hrun1 & Hargs & Hos & Hframe).
  erewrite bind_ok by exact Hrun1. destruct Hos as (_ & _ & _ & Hlog1).
  assert (Hsame : Forall (λ c', cstr (buf w1) c' = cstr (buf w) c')
                    (drop (S i) commands)).
  { eapply Forall_impl; [exact Hbehind|]. intros c' Hc'. by apply Hframe. }
  destruct (pipe_cases k w1) as [Hpipe|(fd0 & fd1 & _ & _ & Hpipe)];
    erewrite bind_ok by exact Hpipe; cbn beta iota.
  { eexists false, _, [_; _]. split; [done|].
    split; [by cbn [log emit]; rewrite Hlog1, <-app_assoc|].
    split; [apply prefix_nil|]. split; [done|by eexists [_], _]. }
  set (w2 := emit _ _). set (image := stage_child _ _ _ _ _).
  destruct (k_fork k w2) as [pid|] eqn:Hfork.
  - erewrite bind_ok by (by apply fork_run). cbn beta iota.
    set (w3 := emit _ _).
    assert (∃ w4 cl, (if decide (inp ≠ 0) then close inp else mret tt) w3 = Ok tt w4 ∧
                     log w4 = log w3 ++ cl ∧ buf w4 = buf w3 ∧ forked cl = [])
      as (w4 & cl & Hrun4 & Hlog4 & Hbuf4 & Hcl).
    { case_decide; [eexists _, [_]|exists w3, []]; (split; [done|]).
      - by repeat split.
      - by rewrite app_nil_r. }
    erewrite bind_ok by exact Hrun4.
    unfold close at 1. rewrite bind_modify. cbn [snd fst].
    set (w5 := emit _ _).
    assert (Hbuf5 : buf w5 = buf w1) by (subst w5; cbn; by rewrite Hbuf4).
    destruct (IH (S i) fd0 w5)
      as (ok & w' & evs & Hrun' & Hlog' & Hpre & Hpath & Hok);
      [rewrite Hbuf5; by apply (separated_ext (buf w))|lia|].
    rewrite Hbuf5 in Hpre.
    exists ok, w', (EPipe (Some (fd0, fd1)) :: EFork (Some (pid, image w2))
                        :: cl ++ EClose fd1 :: evs).
    split; [done|].
    split.
    { rewrite Hlog'. subst w5. cbn [log emit set_ofile]. rewrite Hlog4.
      subst w3 w2. cbn [log emit set_ofile set_pipes set_children].
      by rewrite Hlog1, <-!app_assoc. }
    assert (Hfk : forked (EPipe (Some (fd0, fd1)) :: EFork (Some (pid, image w2))
                            :: cl ++ EClose fd1 :: evs)
                  = image w2 :: forked evs).
    { change (forked (?a :: ?b :: ?l)) with (image w2 :: forked l).
      by rewrite forked_app, Hcl. }
    rewrite Hfk. split; [|split].
    + rewrite !fmap_cons.
      replace (c_argv (image w2))
        with (take (MAXTOKENS - 1) (ws_split (cstr (buf w) c)))
        by (by rewrite <-Hargs).
      apply prefix_cons.
      replace ((λ c0, take (MAXTOKENS - 1) (ws_split (cstr (buf w) c0)))
                 <$> drop (S i) commands)
        with ((λ c0, take (MAXTOKENS - 1) (ws_split (cstr (buf w1) c0)))
                 <$> drop (S i) commands); [done|].
      apply Forall_fmap_ext. eapply Forall_impl; [exact Hsame|].
      intros c' Hc'. cbn. by rewrite Hc'.
    + constructor; [|done]. subst image. cbn [stage_child c_path c_argv].
      apply path_of_head.
    + destruct ok; [by cbn; rewrite Hok|].
      destruct Hok as (l & msg & ->).
      eexists (_ :: _ :: cl ++ _ :: l), msg. cbn. by rewrite <-!app_assoc.
  - erewrite bind_ok by (by apply fork_fail). cbn beta iota.
    eexists false, _, [_; _; _]. split; [done|]. subst w2.
    split; [by cbn [log emit set_ofile set_pipes]; rewrite Hlog1, <-!app_assoc|].
    split; [apply prefix_nil|]. split; [done|by eexists [_; _], _].
Qed.

(** X21.  What the children of [execute_piped_commands] execute (lines
    124-166), for command strings that lie one behind the other in the
    buffer and whatever the kernel answers.  The children, in the order they
    are forked, execute the command strings in their order: the child of a
    stage is given the first 15 whitespace-separated words of its command
    string, the first word as the path.  The tokenization of a stage writes
    inside its own command string only, so it spoils no later stage.  When
    the function returns 0, every command has its child. *)
Theorem execute_piped_commands_argv (k : kernel) (commands : list nat)
    (w : world) :
  separated (buf w) commands →
  ∃ r w' evs,
    execute_piped_commands k commands (length commands) w = Ok r w' ∧
    log w' = log w ++ evs ∧
    c_argv <$> forked evs
      `prefix_of` (λ c, take (MAXTOKENS - 1) (ws_split (cstr (buf w) c)))
                    <$> commands ∧
    Forall (λ c, c_path c = head (c_argv c)) (forked evs) ∧
    (r = 0%Z →
     c_argv <$> forked evs
       = (λ c, take (MAXTOKENS - 1) (ws_split (cstr (buf w) c))) <$> commands).
Proof.
  intros Hsep. unfold execute_piped_commands.
  destruct (piped_stages_argv k commands (length commands) (length commands) 0 0 w)
    as (ok & w1 & evs & Hrun1 & Hlog1 & Hpre & Hpath & Hok); [done|done|].
  rewrite drop_0 in Hpre. erewrite bind_ok by exact Hrun1. destruct ok.
  - destruct (wait_n_counts k (length commands) w1)
      as (w2 & evs2 & Hrun2 & Hlog2 & _ & _ & Hf2).
    erewrite bind_ok by exact Hrun2.
    eexists _, w2, (evs ++ evs2). split; [done|].
    rewrite Hlog2, Hlog1, <-app_assoc. split; [done|].
    rewrite forked_app, (forked_count_zero evs2), app_nil_r by done.
    split; [done|]. split; [done|]. intros _.
    apply prefix_of_length_eq; [done|]. by rewrite !length_fmap.
  - eexists _, w1, evs. split; [done|]. split; [done|]. split; [done|].
    split; [done|]. by intros [=].
Qed.

(** X21 for the command strings [ls -l] and [wc -c] when every call
    succeeds. *)
Lemma execute_piped_commands_argv_witness :
  ∃ r w' evs,
    execute_piped_commands kernel_ok [0; 6] 2 two_commands = Ok r w' ∧
    log w' = log two_commands ++ evs ∧
    c_argv <$> forked evs
      `prefix_of` (λ c, take (MAXTOKENS - 1) (ws_split (cstr (buf two_commands) c)))
                    <$> [0; 6] ∧
    Forall (λ c, c_path c = head (c_argv c)) (forked evs) ∧
    (r = 0%Z →
     c_argv <$> forked evs
       = (λ c, take (MAXTOKENS - 1) (ws_split (cstr (buf two_commands) c)))
           <$> [0; 6]).
Proof.
  apply (execute_piped_commands_argv kernel_ok [0; 6] two_commands).
  cbn [separated]. repeat split; repeat constructor; vm_compute; lia.
Defined.

(** * Further properties: a failed allocation *)

(** X22.  [main] when the token array of the first line cannot be
    allocated (lines 245-249 and 318-340), for a first chunk of at least two
    characters and whatever input follows: the shell's calls are the first
    prompt, the [read], the failed [malloc], the report [malloc failed] on
    descriptor 1, and [exit].  Nothing of the line is run, no further input
    is read, and the shell does not wait for its children. *)
Theorem main_stops_at_failed_allocation (k : kernel) (chunk : list ascii)
    (input : list (list ascii)) (w : world) :
  let n := length chunk `min` MAXLINE in
  1 < n →
  (∀ w' m, k_malloc k w' m = false) →
  ∃ w' m,
    main k (chunk :: input) w = Halt Exited w' ∧
    log w' = log w ++ [EPrintf 1 SH_PROMPT []; ERead n; EMalloc m false;
                       EPrintf 1 "malloc failed\n" []; EExit] ∧
    children w' = children w ∧ ofile w' = ofile w.
Proof.
  intros n Hn Hmem. unfold main. unfold printf at 1. rewrite bind_modify.
  set (w0 := emit _ w).
  destruct (read_loop_hands_over_line_aux k chunk input w0 Hn)
    as (w1 & Hlog1 & Hof1 & Hch1 & Hrun).
  eexists _, _. split.
  { apply bind_halt. rewrite Hrun. apply bind_halt.
    unfold process_one_cmd. rewrite bind_get. cbn zeta.
    erewrite bind_ok by apply malloc_run. rewrite Hmem. cbn [negb].
    unfold printf. by rewrite bind_modify. }
  cbn [log emit children ofile]. rewrite Hlog1, Hof1, Hch1. subst w0.
  cbn [log emit children ofile]. by rewrite <-!app_assoc.
Qed.

(** X22 for the line [ls] and a line behind it. *)
Lemma main_stops_at_failed_allocation_witness :
  ∃ w' m,
    main kernel_nomem [typed "ls"; typed "ls"] (boot "") = Halt Exited w' ∧
    log w' = [EPrintf 1 SH_PROMPT []; ERead 3; EMalloc m false;
              EPrintf 1 "malloc failed\n" []; EExit] ∧
    children w' = [] ∧ ofile w' = console.
Proof.
  apply (main_stops_at_failed_allocation kernel_nomem (typed "ls") [typed "ls"]
           (boot "")).
  - vm_compute. lia.
  - reflexivity.
Defined.
